

(** * SI-tools (app.py): a shallow embedding and its verified properties

    The program is a Streamlit page with six tabs.  Its logic is a handful
    of table transformations: keyword ranking ([process_product_data]),
    brand matching ([match_brands]), brand-list ingestion, an identifier
    de-duplication tool and two batch-merge handlers.

    Conventions of the embedding.
    - A Python [str] is a [list ascii]: the sequence of its characters, a
      character outside ASCII being held as the bytes of its UTF-8 form.
      Equality, concatenation and the search for an ASCII character are
      those of Python on every text.  The character classes (white space,
      word characters, letter case) are those of Python on ASCII text
      only; the statements that say so assume that the text is ASCII
      ([Py.isascii]).
    - Column labels are Rocq [string]s; a row of a [DataFrame] is a finite
      map from labels to cells.
    - pandas and zipfile entry points whose code is not part of the program
      (number parsing and printing, the sort permutation, file decoders) are
      section variables; what the program relies on is stated as a section
      hypothesis where a proof needs it.
    - A number cell holds a rational: the value of an int64 or of a finite
      float64 (there is no cell for an infinity).  Sums are taken in the
      arithmetic of the column's dtype, a parameter ([Np.arith]) of which
      the int64 case is written out; quotients are float64, rounded to
      nearest ([Float64.round]).
    - [Series.astype(str)] prints a blank cell as [nan], as pandas does
      before version 3; the statements that say so assume that no keyword
      is blank.
    - Rows of a table are labelled by position, as in a table read from a
      file.

    Part I is the program, Part II the vocabulary of the statements,
    Part III the properties and their proofs. *)

From Stdlib Require Import ZArith QArith Qpower Qround Lqa.
From Stdlib Require Import Ascii String List Permutation Sorted.
From stdpp Require Import gmap strings list.

Open Scope string_scope.
Open Scope list_scope.

(** * Part I: the program *)

(** ** Python [str] *)

Abbreviation str := (list ascii).

Module Py.

Definition lit (s : string) : str := list_ascii_of_string s.

Definition in_range (lo hi : nat) (c : ascii) : bool :=
  let n := nat_of_ascii c in (lo <=? n)%nat && (n <=? hi)%nat.

Definition isupper (c : ascii) : bool := in_range 65 90 c.
Definition islower (c : ascii) : bool := in_range 97 122 c.
Definition isdigit (c : ascii) : bool := in_range 48 57 c.

(** [s.isascii()]: every character code is below 128. *)
Definition ascii_char (c : ascii) : bool := (nat_of_ascii c <? 128)%nat.
Definition isascii (s : str) : bool := forallb ascii_char s.

(** [str.isspace] on one ASCII character: TAB, LF, VT, FF, CR, the four
    separators FS, GS, RS, US, and the space. *)
Definition isspace (c : ascii) : bool :=
  in_range 9 13 c || in_range 28 31 c || (nat_of_ascii c =? 32)%nat.

(** [str.lower] and [str.upper] on one ASCII character. *)
Definition lower_char (c : ascii) : ascii :=
  if isupper c then ascii_of_nat (nat_of_ascii c + 32) else c.

Definition upper_char (c : ascii) : ascii :=
  if islower c then ascii_of_nat (nat_of_ascii c - 32) else c.

Definition lower (s : str) : str := map lower_char s.
Definition upper (s : str) : str := map upper_char s.

Fixpoint lstrip (s : str) : str :=
  match s with
  | c :: s' => if isspace c then lstrip s' else s
  | [] => []
  end.

Definition rstrip (s : str) : str := rev (lstrip (rev s)).

(** [s.strip()] *)
Definition strip (s : str) : str := rstrip (lstrip s).

(** Truth value of a string: non-empty. *)
Definition truthy (s : str) : bool :=
  match s with [] => false | _ => true end.

(** [s.split(sep)] for a one-character separator: never the empty list. *)
Fixpoint split (sep : ascii) (s : str) : list str :=
  match s with
  | [] => [[]]
  | c :: s' =>
      if Ascii.eqb c sep then [] :: split sep s'
      else match split sep s' with
           | t :: ts => (c :: t) :: ts
           | [] => [[c]]
           end
  end.

(** [s.rsplit(sep, 1)]: at most one cut, at the last separator. *)
Fixpoint rsplit1 (sep : ascii) (s : str) : list str :=
  match s with
  | [] => [[]]
  | c :: s' =>
      match rsplit1 sep s' with
      | [t] => if Ascii.eqb c sep then [[]; t] else [c :: t]
      | h :: rest => (c :: h) :: rest
      | [] => [[c]]
      end
  end.

(** [sep.join(parts)] *)
Fixpoint join (sep : str) (parts : list str) : str :=
  match parts with
  | [] => []
  | [p] => p
  | p :: ps => p ++ sep ++ join sep ps
  end.

(** [s.endswith(suffix)] *)
Definition endswith (s suffix : str) : bool :=
  bool_decide (drop (length s - length suffix) s = suffix).

(** An insertion-ordered [dict], as the list of its items.  Assigning to
    a key that is present replaces the value and keeps the position. *)
Fixpoint dict_set {V} (d : list (str * V)) (k : str) (v : V) : list (str * V) :=
  match d with
  | [] => [(k, v)]
  | (k', v') :: d' =>
      if bool_decide (k' = k) then (k, v) :: d' else (k', v') :: dict_set d' k v
  end.

(** [dict.fromkeys(keys)] *)
Definition dict_fromkeys (keys : list str) : list (str * unit) :=
  fold_left (fun d k => dict_set d k tt) keys [].

End Py.

(** ** The two regular expressions of the program *)

Module Re.

(** [\w] on an ASCII character. *)
Definition is_word (c : ascii) : bool :=
  Py.isupper c || Py.islower c || Py.isdigit c || (nat_of_ascii c =? 95)%nat.

Definition is_word_opt (o : option ascii) : bool :=
  match o with Some c => is_word c | None => false end.

(** A literal under [re.IGNORECASE]: consumes [lit] from the front of
    [text], comparing characters up to case; returns what follows. *)
Fixpoint match_literal (lit text : str) : option str :=
  match lit, text with
  | [], _ => Some text
  | a :: lit', b :: text' =>
      if Ascii.eqb (Py.lower_char a) (Py.lower_char b) then match_literal lit' text'
      else None
  | _ :: _, [] => None
  end.

(** One attempt of [(?<!\w) literal (?!\w)] with [prev] the character just
    before the attempt. *)
Definition match_here (prev : option ascii) (lit text : str) : bool :=
  negb (is_word_opt prev) &&
  match match_literal lit text with
  | Some rest => negb (is_word_opt (head rest))
  | None => false
  end.

(** The scan of [re.search]: every start position from left to right. *)
Fixpoint search_from (prev : option ascii) (lit text : str) : bool :=
  match_here prev lit text ||
  match text with
  | [] => false
  | c :: text' => search_from (Some c) lit text'
  end.

(** [re.search(r'(?<!\w)' + re.escape(term) + r'(?!\w)', text, re.IGNORECASE)]
    as a truth value. *)
Definition search_word (term text : str) : bool := search_from None term text.

(** The class [[\n\s,;\t]] on an ASCII character. *)
Definition is_sep (c : ascii) : bool :=
  Py.isspace c || (nat_of_ascii c =? 44)%nat || (nat_of_ascii c =? 59)%nat.

(** [re.split(r'[\n\s,;\t]+', text)]: the pieces between maximal runs of
    separators, with an empty piece before a leading run and after a
    trailing one. *)
Fixpoint split_seps (text : str) : list str :=
  match text with
  | [] => [[]]
  | c :: text' =>
      if is_sep c then
        match text' with
        | c' :: _ => if is_sep c' then split_seps text' else [] :: split_seps text'
        | [] => [] :: split_seps text'
        end
      else
        match split_seps text' with
        | t :: ts => (c :: t) :: ts
        | [] => [[c]]
        end
  end.

End Re.

(** ** pandas tables *)

(** A cell: a missing value (NaN or None), a number, or a string. *)
Inductive cell : Type :=
| Null
| Num (q : Q)
| Str (s : str).

Record DataFrame : Type := mkDataFrame {
  columns : list string;
  rows : list (gmap string cell)
}.

Module Pd.

(** [row[c]], a missing entry reading as null. *)
Definition get (r : gmap string cell) (c : string) : cell := default Null (r !! c).

Definition isnull (c : cell) : bool :=
  match c with Null => true | _ => false end.

Definition is_str (c : cell) : bool :=
  match c with Str _ => true | _ => false end.

(** Equality of two cells as [drop_duplicates] sees it. *)
Definition cell_eqb (a b : cell) : bool :=
  match a, b with
  | Null, Null => true
  | Num p, Num q => Qeq_bool p q
  | Str s, Str t => bool_decide (s = t)
  | _, _ => false
  end.

Definition has_column (df : DataFrame) (c : string) : bool :=
  bool_decide (c ∈ columns df).

(** [df.empty]: an axis of length 0. *)
Definition empty (df : DataFrame) : bool :=
  match columns df, rows df with
  | [], _ | _, [] => true
  | _, _ => false
  end.

(** The values of [df[c]]. *)
Definition col (df : DataFrame) (c : string) : list cell :=
  map (fun r => get r c) (rows df).

(** [df[c] = values] *)
Definition setitem (df : DataFrame) (c : string) (values : list cell) : DataFrame :=
  {| columns := if has_column df c then columns df else columns df ++ [c];
     rows := zip_with (fun r v => <[c := v]> r) (rows df) values |}.

(** [df[c] = scalar] *)
Definition setitem_scalar (df : DataFrame) (c : string) (v : cell) : DataFrame :=
  {| columns := if has_column df c then columns df else columns df ++ [c];
     rows := map (fun r => <[c := v]> r) (rows df) |}.

(** [df.at[idx, c] = v] on a present column, rows labelled by position. *)
Definition set_at (df : DataFrame) (idx : nat) (c : string) (v : cell) : DataFrame :=
  {| columns := columns df;
     rows := alter (fun r => <[c := v]> r) idx (rows df) |}.

(** [df[cs]]: the listed columns, or nothing when one is absent (KeyError). *)
Definition select (df : DataFrame) (cs : list string) : option DataFrame :=
  if forallb (has_column df) cs then
    Some {| columns := cs;
            rows := map (fun r => list_to_map (map (fun c => (c, get r c)) cs)) (rows df) |}
  else None.

(** [df.drop(c, axis=1)] *)
Definition drop_column (df : DataFrame) (c : string) : DataFrame :=
  {| columns := List.filter (fun c' => negb (bool_decide (c' = c))) (columns df);
     rows := map (delete c) (rows df) |}.

(** [df[mask]] with the mask computed row by row. *)
Definition filter_rows (keep : gmap string cell -> bool) (df : DataFrame) : DataFrame :=
  {| columns := columns df; rows := List.filter keep (rows df) |}.

(** [df.dropna(subset=[c])] *)
Definition dropna (df : DataFrame) (c : string) : DataFrame :=
  filter_rows (fun r => negb (isnull (get r c))) df.

(** [df.drop_duplicates(subset=[c])]: the first row of each value stays. *)
Fixpoint dedup_rows (c : string) (seen : list cell) (rs : list (gmap string cell))
  : list (gmap string cell) :=
  match rs with
  | [] => []
  | r :: rs' =>
      if existsb (cell_eqb (get r c)) seen then dedup_rows c seen rs'
      else r :: dedup_rows c (get r c :: seen) rs'
  end.

Definition drop_duplicates (df : DataFrame) (c : string) : DataFrame :=
  {| columns := columns df; rows := dedup_rows c [] (rows df) |}.

(** [df.insert(0, c, scalar)]: refused (ValueError) when [c] is a column. *)
Definition insert_first (df : DataFrame) (c : string) (v : cell) : option DataFrame :=
  if has_column df c then None
  else Some {| columns := c :: columns df;
               rows := map (fun r => <[c := v]> r) (rows df) |}.

(** Labels of [cs] that are not yet in [acc], appended in order. *)
Definition union_columns (acc cs : list string) : list string :=
  fold_left (fun a c => if bool_decide (c ∈ a) then a else a ++ [c]) cs acc.

(** [pd.concat(dfs, ignore_index=True)]: columns in order of first
    appearance, rows in order; a column a table lacks reads as null. *)
Definition concat (dfs : list DataFrame) : DataFrame :=
  {| columns := fold_left (fun a df => union_columns a (columns df)) dfs [];
     rows := List.concat (map rows dfs) |}.

(** [a == b] on two values, as one element of the comparison of a column
    with a scalar: a missing value equals nothing. *)
Definition eq_value (a b : cell) : bool :=
  match a, b with
  | Num p, Num q => Qeq_bool p q
  | Str s, Str t => bool_decide (s = t)
  | _, _ => false
  end.

(** [Series.unique()]: each value once, in order of first appearance. *)
Fixpoint unique_from (seen : list cell) (cs : list cell) : list cell :=
  match cs with
  | [] => []
  | c :: cs' =>
      if existsb (cell_eqb c) seen then unique_from seen cs'
      else c :: unique_from (c :: seen) cs'
  end.

Definition unique (cs : list cell) : list cell := unique_from [] cs.

End Pd.

(** ** numpy numbers *)

Module Float64.

Local Open Scope Q_scope.

(** The exponent of a positive number: the floor of its logarithm in
    base 2. *)
Definition ilog2 (q : Q) : Z :=
  let e := (Z.log2 (Qnum q) - Z.log2 (Zpos (Qden q)))%Z in
  if Qle_bool (2 ^ e) q then e else (e - 1)%Z.

(** The nearest integer, a tie going to the even one. *)
Definition rne (q : Q) : Z :=
  let f := Qfloor q in
  match (q - inject_Z f ?= 1 # 2)%Q with
  | Lt => f
  | Gt => (f + 1)%Z
  | Eq => if Z.even f then f else (f + 1)%Z
  end.

(** The float64 nearest to a positive number: 53 significant bits, the
    exponent not below that of the subnormal numbers.  (A result beyond the
    largest float64 is an infinity for numpy and is not modelled.) *)
Definition round_pos (q : Q) : Q :=
  let e := Z.max (ilog2 q) (-1022) in
  inject_Z (rne (q / 2 ^ (e - 52))) * 2 ^ (e - 52).

(** The float64 nearest to a number: the value of a float literal, of an
    int64 converted to float64, of the exact result of an operation. *)
Definition round (q : Q) : Q :=
  match Qnum q with
  | Z0 => 0
  | Zpos _ => round_pos q
  | Zneg _ => - round_pos (- q)
  end.

(** [a / b] on two numbers of a column: both are taken to float64 and the
    quotient is rounded.  (A quotient by 0 is an infinity or NaN for numpy
    and is not modelled.) *)
Definition div (a b : Q) : Q := round (round a / round b).

End Float64.

Module Np.

(** The arithmetic numpy applies to a numeric column when it adds: the sum
    of two numbers, as one step of [cumsum] takes it, and the sum of a
    list, as [sum] takes it.  Which arithmetic it is depends on the dtype
    of the column: int64 wraps around, float64 rounds, and the order in
    which [sum] adds the numbers of a float64 column is numpy's own. *)
Record arith : Type := mkArith {
  add : Q -> Q -> Q;
  sum : list Q -> Q
}.

(** A 64-bit integer in two's complement: what wrap-around leaves of [z]. *)
Definition wrap64 (z : Z) : Z := ((z + 2 ^ 63) mod 2 ^ 64 - 2 ^ 63)%Z.

(** The arithmetic of an int64 column. *)
Definition int64 : arith :=
  {| add := fun a b => inject_Z (wrap64 (Qfloor a + Qfloor b));
     sum := fun l => inject_Z (fold_left (fun acc q => wrap64 (acc + Qfloor q)) l 0%Z) |}.

End Np.

(** ** Objects, references and exceptions

    A [DataFrame] is a mutable object.  The store is the list of the
    objects allocated so far and a reference is a position in it. *)

Abbreviation loc := nat.
Abbreviation heap := (list DataFrame).

Inductive exn : Type :=
| KeyError
| IndexError
| AttributeError
| ValueError
| Dangling.   (* a reference to no object: no Python program produces one *)

Inductive outcome (A : Type) : Type :=
| Return (a : A)
| Raise (e : exn).
Arguments Return {A} a.
Arguments Raise {A} e.

Definition M (A : Type) : Type := heap -> outcome A * heap.

Definition ret {A} (a : A) : M A := fun h => (Return a, h).

Definition bind {A B} (m : M A) (k : A -> M B) : M B :=
  fun h => match m h with
           | (Return a, h') => k a h'
           | (Raise e, h') => (Raise e, h')
           end.

Definition raise {A} (e : exn) : M A := fun h => (Raise e, h).

#[global] Instance M_ret : MRet M := @ret.
#[global] Instance M_bind : MBind M := fun A B k m => bind m k.

Definition load (l : loc) : M DataFrame :=
  fun h => match h !! l with
           | Some df => (Return df, h)
           | None => (Raise Dangling, h)
           end.

(** A new object: [df.copy()], or any call that builds a table. *)
Definition alloc (df : DataFrame) : M loc :=
  fun h => (Return (length h), h ++ [df]).

(** In-place update of the object at [l]. *)
Definition update (l : loc) (f : DataFrame -> DataFrame) : M unit :=
  fun h => match h !! l with
           | Some df => (Return tt, <[l := f df]> h)
           | None => (Raise Dangling, h)
           end.

Definition of_option {A} (e : exn) (o : option A) : M A :=
  match o with Some a => ret a | None => raise e end.

Definition of_outcome {A} (o : outcome A) : M A := fun h => (o, h).

Fixpoint for_each {A} (body : A -> M unit) (l : list A) : M unit :=
  match l with
  | [] => ret tt
  | x :: l' => body x;; for_each body l'
  end.

(** ** The application *)

(** Column labels and display strings of the program. *)
Definition col_keyword : string := "关键词".
Definition col_volume : string := "月搜索量".
Definition col_brand_name : string := "品牌名称".
Definition col_rule_keywords : string := "匹配关键词".
Definition col_keyword_lower : string := "keyword_lower".
Definition col_brand : string := "品牌".
Definition col_kind : string := "词性".
Definition col_feature : string := "特性参数".
Definition col_rank : string := "Rank".
Definition col_cumsum : string := "月搜索量累计和".
Definition col_share : string := "月搜索量累计占比".
Definition col_time : string := "时间".

Definition branded : cell := Str (Py.lit "Branded KWs").
Definition non_branded : cell := Str (Py.lit "Non-Branded KWs").

Section App.

(** [str(x)] of a number, as pandas prints it. *)
Variable num_repr : Q -> str.

(** [str(cell)], also [Series.astype(str)] element by element; a cell
    left blank in a file is read as NaN and prints as [nan].  ([str] does
    so in every version; [astype(str)] does before pandas 3 and keeps the
    cell missing from then on.) *)
Definition astype_str (c : cell) : str :=
  match c with
  | Null => Py.lit "nan"
  | Num q => num_repr q
  | Str s => s
  end.

(** *** match_brands (lines 56-127) *)

(** Line 79: the terms of one rule. *)
Definition rule_keywords (s : str) : list str :=
  map (fun kw => Py.lower (Py.strip kw))
      (List.filter (fun kw => Py.truthy (Py.strip kw)) (Py.split "," s)).

(** Lines 77-81: one rule row added to the mapping. *)
Definition add_rule_row (manual_map : list (str * str)) (row : gmap string cell)
  : list (str * str) :=
  let brand_name := astype_str (Pd.get row col_brand_name) in
  let keywords := rule_keywords (astype_str (Pd.get row col_rule_keywords)) in
  fold_left (fun m kw => Py.dict_set m kw brand_name) keywords manual_map.

(** Lines 75-81. *)
Definition build_manual_map (custom_rules_df : DataFrame) : outcome (list (str * str)) :=
  if Pd.empty custom_rules_df then Return []
  else if Pd.has_column custom_rules_df col_brand_name
          && Pd.has_column custom_rules_df col_rule_keywords
       then Return (fold_left add_rule_row (rows custom_rules_df) [])
       else Raise KeyError.

(** Lines 94-101: the first item of the mapping whose term is found. *)
Fixpoint manual_pass (items : list (str * str)) (keyword_lower : str)
  : option (str * str) :=
  match items with
  | [] => None
  | (manual_kw, manual_brand) :: rest =>
      if Py.truthy manual_kw && Re.search_word manual_kw keyword_lower
      then Some (manual_brand, manual_kw)
      else manual_pass rest keyword_lower
  end.

(** Line 110: the name, as stored, of the first row of the brand table
    whose lower-cased name is [brand].  The [.str] accessor exists on a
    column that holds a string; it maps a cell that is not a string to a
    missing value, which equals no string. *)
Fixpoint find_name (brand : str) (names : list cell) : option str :=
  match names with
  | [] => None
  | Str s :: names' =>
      if bool_decide (Py.lower s = brand) then Some s else find_name brand names'
  | _ :: names' => find_name brand names'
  end.

Definition original_brand (brand_df : DataFrame) (brand : str) : outcome str :=
  let names := Pd.col brand_df col_brand_name in
  if existsb Pd.is_str names then
    match find_name brand names with
    | Some s => Return s
    | None => Raise IndexError
    end
  else Raise AttributeError.

(** Lines 105-113: the first brand of the list that is found. *)
Fixpoint brand_pass (brand_df : DataFrame) (brand_list : list str) (keyword_lower : str)
  : outcome (option (str * str)) :=
  match brand_list with
  | [] => Return None
  | brand :: rest =>
      if Py.truthy brand && Re.search_word brand keyword_lower then
        match original_brand brand_df brand with
        | Return original => Return (Some (original, brand))
        | Raise e => Raise e
        end
      else brand_pass brand_df rest keyword_lower
  end.

(** Lines 89-113 for one keyword: [Some (matched_brand, matched_term)]
    when line 116 finds [matched_brand] true, that is, set and not the
    empty string. *)
Definition match_keyword (manual_map : list (str * str)) (brand_df : DataFrame)
    (brand_list : list str) (keyword_lower : str) : outcome (option (str * str)) :=
  let found :=
    match manual_pass manual_map keyword_lower with
    | Some (manual_brand, manual_kw) =>
        if Py.truthy manual_brand then Return (Some (manual_brand, manual_kw))
        else match brand_pass brand_df brand_list keyword_lower with
             | Return None => Return (Some (manual_brand, manual_kw))
             | other => other
             end
    | None => brand_pass brand_df brand_list keyword_lower
    end in
  match found with
  | Return (Some (matched_brand, matched_term)) =>
      if Py.truthy matched_brand then Return (Some (matched_brand, matched_term))
      else Return None
  | other => other
  end.

(** Lines 88-119: the body of the loop over the rows of [result_df]. *)
Definition match_row (result_df brand_df : loc) (manual_map : list (str * str))
    (brand_list : list str) (item : nat * gmap string cell) : M unit :=
  let '(idx, row) := item in
  let keyword_lower := astype_str (Pd.get row col_keyword_lower) in
  bdf ← load brand_df;
  found ← of_outcome (match_keyword manual_map bdf brand_list keyword_lower);
  match found with
  | Some (matched_brand, matched_term) =>
      update result_df (fun df => Pd.set_at df idx col_brand_name (Str matched_brand));;
      update result_df (fun df => Pd.set_at df idx col_brand (Str matched_term));;
      update result_df (fun df => Pd.set_at df idx col_kind branded)
  | None => ret tt
  end.

(** The function.  [None] as an argument or as the result is Python's
    [None]; the messages sent to the page are not part of the model. *)
Definition match_brands (product_df brand_df : option loc) (custom_rules_df : loc)
  : M (option loc) :=
  match product_df with
  | None => ret None
  | Some product_df =>
  pdf ← load product_df;
  if Pd.empty pdf then ret None else
  match brand_df with
  | None => ret None
  | Some brand_df =>
  bdf ← load brand_df;
  if Pd.empty bdf then ret None else
  selected ← of_option KeyError (Pd.select pdf [col_keyword; col_volume]);
  result_df ← alloc selected;
  update result_df (fun df =>
    Pd.setitem df col_keyword_lower
      (map (fun c => Str (Py.lower (astype_str c))) (Pd.col df col_keyword)));;
  bdf ← load brand_df;
  (if Pd.has_column bdf col_brand_name then ret tt else raise KeyError);;
  let brand_list := map (fun c => Py.lower (astype_str c)) (Pd.col bdf col_brand_name) in
  rules ← load custom_rules_df;
  manual_map ← of_outcome (build_manual_map rules);
  update result_df (fun df => Pd.setitem_scalar df col_brand_name Null);;
  update result_df (fun df => Pd.setitem_scalar df col_brand Null);;
  update result_df (fun df => Pd.setitem_scalar df col_kind non_branded);;
  snapshot ← load result_df;
  for_each (match_row result_df brand_df manual_map brand_list)
           (imap (fun idx row => (idx, row)) (rows snapshot));;
  update result_df (fun df => Pd.setitem_scalar df col_feature Null);;
  current ← load result_df;
  result_df ← alloc (Pd.drop_column current col_keyword_lower);
  ret (Some result_df)
  end
  end.

(** *** The rule form (lines 163-183) *)

Definition initial_rules : DataFrame :=
  {| columns := [col_brand_name; col_rule_keywords]; rows := [] |}.

(** Lines 166-174: a submission with both fields filled appends a rule. *)
Definition add_rule_form (submitted : bool) (custom_brand custom_keywords : str)
    (custom_rules : DataFrame) : DataFrame :=
  if submitted && Py.truthy custom_brand && Py.truthy custom_keywords then
    Pd.concat
      [custom_rules;
       {| columns := [col_brand_name; col_rule_keywords];
          rows := [ {[ col_brand_name := Str custom_brand;
                       col_rule_keywords := Str custom_keywords ]} ] |}]
  else custom_rules.

(** What a user can do to the rules of a session. *)
Inductive rule_event : Type :=
| SubmitRule (custom_brand custom_keywords : str)
| ClearRules.

Definition rule_step (custom_rules : DataFrame) (ev : rule_event) : DataFrame :=
  match ev with
  | SubmitRule b k => add_rule_form true b k custom_rules
  | ClearRules => initial_rules
  end.

(** [st.session_state.custom_rules] after a sequence of events. *)
Definition session_rules (events : list rule_event) : DataFrame :=
  fold_left rule_step events initial_rules.

(** *** Keyword-file upload (lines 186-204) *)

(** The new value of [st.session_state.product_data], given what
    [pd.read_excel(product_file, skiprows=2)] produced ([None]: it
    raised). *)
Definition product_upload (read : option DataFrame) (product_data : option DataFrame)
  : option DataFrame :=
  match read with
  | None => product_data
  | Some df =>
      if negb (Pd.has_column df col_keyword) || negb (Pd.has_column df col_volume)
      then product_data
      else Some df
  end.

(** *** Brand-list ingestion (lines 206-224) *)

(** The new value of [st.session_state.brand_data], given what
    [pd.read_excel] produced ([None]: it raised). *)
Definition brand_upload (read : option DataFrame) (brand_data : option DataFrame)
  : option DataFrame :=
  match read with
  | None => brand_data
  | Some brand_df =>
      if Pd.has_column brand_df col_brand_name then
        Some (Pd.drop_duplicates (Pd.dropna brand_df col_brand_name) col_brand_name)
      else brand_data
  end.

(** *** process_product_data (lines 26-54) *)

(** [pd.to_numeric] on a string: the finite number it reads, [None] when
    it reads no number.  (A text it reads as an infinity has no cell to go
    to: a statement on numbers assumes that no volume is such a text.) *)
Variable parse_number : str -> option Q.

(** The permutation [sort_values(..., ascending=False)] applies: the
    positions of the keys, from the largest key to the smallest. *)
Variable argsort_desc : list Q -> list nat.

(** The arithmetic of the volume column: that of the dtype
    [pd.to_numeric] gave it.  A number is handed to it, and taken back
    from it, in lowest terms. *)
Variable np : Np.arith.

(** [pd.to_numeric(_, errors='coerce')] on one cell. *)
Definition to_numeric (c : cell) : cell :=
  match c with
  | Null => Null
  | Num q => Num q
  | Str s => match parse_number s with Some q => Num q | None => Null end
  end.

Definition num (c : cell) : Q :=
  match c with Num q => q | _ => 0%Q end.

(** [cell > 0]; a missing value compares false. *)
Definition is_positive (c : cell) : bool :=
  match c with Num q => negb (Qle_bool q 0) | _ => false end.

(** [Series.cumsum()]: the first number, then each number added to the
    sum so far; a missing value is skipped and stays missing. *)
Fixpoint cumsum_from (acc : option Q) (cells : list cell) : list cell :=
  match cells with
  | [] => []
  | Num q :: cells' =>
      let acc' := match acc with
                  | Some a => Qred (Np.add np a (Qred q))
                  | None => Qred q
                  end in
      Num acc' :: cumsum_from (Some acc') cells'
  | _ :: cells' => Null :: cumsum_from acc cells'
  end.

Definition cumsum (cells : list cell) : list cell := cumsum_from None cells.

(** [Series.sum()], missing values skipped. *)
Definition series_sum (cells : list cell) : Q :=
  Qred (Np.sum np (omap (fun c => match c with Num q => Some (Qred q) | _ => None end)
                        cells)).

(** [series / scalar]: true division, in float64 whatever the dtype. *)
Definition div_scalar (cells : list cell) (d : Q) : list cell :=
  map (fun c => match c with Num q => Num (Float64.div q d) | _ => Null end) cells.

(** [df.sort_values(c, ascending=False).reset_index(drop=True)] *)
Definition sort_values_desc (df : DataFrame) (c : string) : DataFrame :=
  {| columns := columns df;
     rows := omap (fun i => rows df !! i)
               (argsort_desc (map (fun r => num (Pd.get r c)) (rows df))) |}.

(** [range(1, n + 1)] as a column. *)
Definition rank_column (n : nat) : list cell :=
  map (fun i => Num (inject_Z (Z.of_nat i))) (seq 1 n).

Definition process_product_data (df : DataFrame) : option DataFrame :=
  let df_clean := df in
  if negb (Pd.has_column df_clean col_keyword && Pd.has_column df_clean col_volume)
  then None else
  let df_clean :=
    Pd.setitem df_clean col_volume (map to_numeric (Pd.col df_clean col_volume)) in
  let df_clean := Pd.dropna df_clean col_volume in
  let df_clean := Pd.filter_rows (fun r => is_positive (Pd.get r col_volume)) df_clean in
  if Pd.empty df_clean then None else
  let df_sorted := sort_values_desc df_clean col_volume in
  let df_sorted := Pd.setitem df_sorted col_rank (rank_column (length (rows df_sorted))) in
  let df_sorted := Pd.setitem df_sorted col_cumsum (cumsum (Pd.col df_sorted col_volume)) in
  let df_sorted :=
    Pd.setitem df_sorted col_share
      (div_scalar (Pd.col df_sorted col_cumsum) (series_sum (Pd.col df_sorted col_volume))) in
  Some df_sorted.

(** *** The ranking tab (lines 232-250) *)

(** [cell >= threshold]; a missing value compares false. *)
Definition reaches (threshold : Q) (c : cell) : bool :=
  match c with Num q => Qle_bool threshold q | _ => false end.

(** The float64 the literal [0.6] denotes. *)
Definition point_six : Q := Float64.round (6 # 10).

(** Lines 237-242: [Some rank] is the rank named in the notice, [None]
    the notice that no keyword reaches 60%. *)
Definition rank_60_percent (processed_data : DataFrame) : option cell :=
  let percent_60_data :=
    Pd.filter_rows (fun r => reaches point_six (Pd.get r col_share)) processed_data in
  if Pd.empty percent_60_data then None
  else match rows percent_60_data with
       | r :: _ => Some (Pd.get r col_rank)
       | [] => None
       end.

(** Line 245. *)
Definition display_columns (processed_data : DataFrame) : list string :=
  List.filter (fun c => negb (bool_decide (c ∈ [col_share; col_cumsum])))
              (columns processed_data).

(** *** The results tab (lines 296-330) *)

(** The choice that filters nothing.  The text is held as the bytes of
    its UTF-8 form; it is only compared for equality. *)
Definition all_choice : cell := Str (Py.lit "全部").

(** Lines 298-310: total, branded, non-branded, and the percentage of
    line 310; [None] when that division is by zero. *)
Definition match_metrics (matched_results : DataFrame) : option (nat * nat * Z * Q) :=
  let total_keywords := length (rows matched_results) in
  let branded_keywords :=
    length (rows (Pd.filter_rows (fun r => Pd.eq_value (Pd.get r col_kind) branded)
                                 matched_results)) in
  let non_branded_keywords := (Z.of_nat total_keywords - Z.of_nat branded_keywords)%Z in
  if (total_keywords =? 0)%nat then None
  else Some (total_keywords, branded_keywords, non_branded_keywords,
             (inject_Z (Z.of_nat branded_keywords) / inject_Z (Z.of_nat total_keywords)
              * 100)%Q).

(** Line 322: the choices of the brand filter. *)
Definition brand_options (matched_results : DataFrame) : list cell :=
  all_choice ::
  Pd.unique (List.filter (fun c => negb (Pd.isnull c))
                         (Pd.col matched_results col_brand_name)).

(** Lines 326-330. *)
Definition apply_filters (word_type_filter brand_filter : cell) (matched_results : DataFrame)
  : DataFrame :=
  let filtered_results := matched_results in
  let filtered_results :=
    if negb (Pd.eq_value word_type_filter all_choice) then
      Pd.filter_rows (fun r => Pd.eq_value (Pd.get r col_kind) word_type_filter)
                     filtered_results
    else filtered_results in
  let filtered_results :=
    if negb (Pd.eq_value brand_filter all_choice) then
      Pd.filter_rows (fun r => Pd.eq_value (Pd.get r col_brand_name) brand_filter)
                     filtered_results
    else filtered_results in
  filtered_results.

(** *** The ASIN tool (lines 364-412) *)

Record asin_results : Type := mkAsinResults {
  original_count : nat;
  unique_count : nat;
  unique_asins : list str
}.

(** Lines 365-390: [None] is the branch that reports a blank input and
    stores nothing. *)
Definition asin_dedup (asin_input : str) : option asin_results :=
  if Py.truthy (Py.strip asin_input) then
    let asin_list := Re.split_seps (Py.strip asin_input) in
    let asin_list :=
      map (fun asin => Py.upper (Py.strip asin))
          (List.filter (fun asin => Py.truthy (Py.strip asin)) asin_list) in
    let original_count := length asin_list in
    let unique_asins := map fst (Py.dict_fromkeys asin_list) in
    let unique_count := length unique_asins in
    Some {| original_count := original_count;
            unique_count := unique_count;
            unique_asins := unique_asins |}
  else None.

(** Line 412: the text shown for copying. *)
Definition asin_text (results : asin_results) : str :=
  Py.join (Py.lit " ") (unique_asins results).

(** *** The two merge tabs (lines 449-491 and 503-593) *)

(** The bytes of an uploaded file, and the decoders applied to them;
    [None] stands for any exception the decoder raises. *)
Variable Blob : Type.
Variable zip_open : Blob -> option (list (str * Blob)).
Variable read_csv : Blob -> option DataFrame.
Variable read_excel : Blob -> option DataFrame.

Record upload : Type := mkUpload {
  name : str;
  content : Blob
}.

(** [name.rsplit('.', 1)[0]] *)
Definition base_name (name : str) : str :=
  match Py.rsplit1 "." name with
  | h :: _ => h
  | [] => []
  end.

Definition is_csv (file_name : str) : bool :=
  Py.endswith (Py.lower file_name) (Py.lit ".csv").

Definition is_tabular (file_name : str) : bool :=
  is_csv file_name || Py.endswith (Py.lower file_name) (Py.lit ".xlsx").

Definition read_table (file_name : str) (f : Blob) : option DataFrame :=
  if is_csv file_name then read_csv f else read_excel f.

(** Lines 453-470: one pass of the loop of the ZIP tab on the pair
    [(all_data, error_files)]. *)
Definition zip_step (acc : list DataFrame * list str) (zip_file : upload)
  : list DataFrame * list str :=
  let '(all_data, error_files) := acc in
  match zip_open (content zip_file) with
  | None => (all_data, error_files ++ [name zip_file])
  | Some z =>
      match List.filter (fun f => is_tabular (fst f)) z with
      | [] => (all_data, error_files ++ [name zip_file])
      | (file_name, f) :: _ =>
          match read_table file_name f with
          | None => (all_data, error_files ++ [name zip_file])
          | Some df =>
              let df := Pd.setitem_scalar df col_time (Str (base_name (name zip_file))) in
              (all_data ++ [df], error_files)
          end
      end
  end.

(** Lines 508-526: one pass of the loop of the file tab. *)
Definition file_step (acc : list DataFrame * list str) (file : upload)
  : list DataFrame * list str :=
  let '(all_data, error_files) := acc in
  match read_table (name file) (content file) with
  | None => (all_data, error_files ++ [name file])
  | Some df =>
      let time_column := base_name (name file) in
      match Pd.insert_first df col_time (Str time_column) with
      | None => (all_data, error_files ++ [name file])
      | Some df => (all_data ++ [df], error_files)
      end
  end.

(** What a merge tab shows. *)
Inductive merge_result : Type :=
| NothingUploaded
| Merged (merged_df : DataFrame) (files : nat)
| EmptyWarning.

Record merge_view : Type := mkMergeView {
  result : merge_result;
  failed : list str;          (* [error_files] *)
  failure_shown : bool        (* the closing error message is displayed *)
}.

Definition merge_tab (step : list DataFrame * list str -> upload -> list DataFrame * list str)
    (uploaded : list upload) : merge_view :=
  match uploaded with
  | [] => {| result := NothingUploaded; failed := []; failure_shown := false |}
  | _ =>
      let '(all_data, error_files) := fold_left step uploaded ([], []) in
      {| result := match all_data with
                   | [] => EmptyWarning
                   | _ => Merged (Pd.concat all_data) (length all_data)
                   end;
         failed := error_files;
         failure_shown := match error_files with [] => false | _ => true end |}
  end.

(** Lines 449-491. *)
Definition zip_merge_tab (uploaded_zips : list upload) : merge_view :=
  merge_tab zip_step uploaded_zips.

(** Lines 503-593. *)
Definition file_merge_tab (uploaded_files : list upload) : merge_view :=
  merge_tab file_step uploaded_files.

End App.

Arguments name {Blob} _.
Arguments content {Blob} _.
Arguments mkUpload {Blob} _ _.

(** * Part II: the vocabulary of the statements

    Predicates and functions the properties are stated with, the tables
    the proofs compare the program with, and the samples used as
    instances.  Nothing here is part of the program. *)

Ltac by_ascii_cases c :=
  destruct c as [[] [] [] [] [] [] [] []]; vm_compute; try reflexivity; try congruence.

(** ** Text *)

(** A string with no separator character. *)
Definition sep_free (s : str) : Prop := Forall (fun c => Re.is_sep c = false) s.

(** Tokens as the tool leaves them: non-empty and free of separators. *)
Definition token (u : str) : Prop := u <> [] /\ sep_free u.

(** A token in the form the tool stores: also upper-cased. *)
Definition stored_token (u : str) : Prop := token u /\ Py.upper u = u.

(** [term] occurs in [text] at position [p] as a whole word: the text
    splits around an occurrence that equals the term up to case, the
    character before it (if any) and the character after it (if any)
    being no word character. *)
Definition whole_word_at (term text : str) (p : nat) : Prop :=
  exists pre mid suf,
    text = pre ++ mid ++ suf /\
    length pre = p /\
    Py.lower mid = Py.lower term /\
    Re.is_word_opt (last pre) = false /\
    Re.is_word_opt (head suf) = false.

(** The character before an attempt that starts after [pre], when the
    scan itself started after the character [prev]. *)
Definition char_before (prev : option ascii) (pre : str) : option ascii :=
  match last pre with
  | Some c => Some c
  | None => prev
  end.

(** ** Whole words, in the words of the claim

    The alphabets are written out; nothing here refers to the character
    functions of the program. *)

Definition lower_letters : str := list_ascii_of_string "abcdefghijklmnopqrstuvwxyz".
Definition upper_letters : str := list_ascii_of_string "ABCDEFGHIJKLMNOPQRSTUVWXYZ".
Definition digit_characters : str := list_ascii_of_string "0123456789".

(** Alphanumeric or underscore. *)
Definition alnum_or_underscore (c : ascii) : Prop :=
  c ∈ lower_letters ++ upper_letters ++ digit_characters ++ ["_"%char].

(** The same character, or the two cases of one letter. *)
Definition same_letter (a b : ascii) : Prop :=
  a = b \/ (a, b) ∈ zip lower_letters upper_letters
        \/ (b, a) ∈ zip lower_letters upper_letters.

(** Equal up to the case of the letters. *)
Definition same_up_to_case (s t : str) : Prop := Forall2 same_letter s t.

(** [term] occurs in [text] at position [p], up to case, and the character
    before the occurrence (if any) and the character after it (if any)
    are not alphanumeric or underscore. *)
Definition occurs_whole_word_at (term text : str) (p : nat) : Prop :=
  exists pre mid suf,
    text = pre ++ mid ++ suf /\
    length pre = p /\
    same_up_to_case mid term /\
    (forall c, last pre = Some c -> ~ alnum_or_underscore c) /\
    (forall c, head suf = Some c -> ~ alnum_or_underscore c).

#[global] Instance alnum_or_underscore_dec (c : ascii) : Decision (alnum_or_underscore c).
Proof. unfold alnum_or_underscore. apply _. Defined.

#[global] Instance same_letter_dec (a b : ascii) : Decision (same_letter a b).
Proof. unfold same_letter. apply _. Defined.

(** Every character, by its code. *)
Definition all_chars : list ascii := map ascii_of_nat (seq 0 256).

(** ** Dictionaries *)

(** Keys seen so far, extended with a key when it is new. *)
Definition add_key (ks : list str) (k : str) : list str :=
  if bool_decide (k ∈ ks) then ks else ks ++ [k].

(** [d[k]] *)
Definition dict_get {V} (d : list (str * V)) (k : str) : option V :=
  snd <$> List.find (fun p => bool_decide (fst p = k)) d.

(** The brand of the last pair of [pairs] whose term is [term]. *)
Definition last_brand_of (pairs : list (str * str)) (term : str) : option str :=
  snd <$> last (List.filter (fun p => bool_decide (fst p = term)) pairs).

(** The first term, in the order of [pairs], that is found in the keyword. *)
Definition first_matching_term (pairs : list (str * str)) (keyword_lower : str)
  : option str :=
  fst <$> List.find (fun p => Re.search_word (fst p) keyword_lower) pairs.

(** A mapping filled pair by pair. *)
Definition fill (pairs : list (str * str)) (d : list (str * str)) : list (str * str) :=
  fold_left (fun m p => Py.dict_set m (fst p) (snd p)) pairs d.

(** ** The ASIN tool *)

(** The list [asin_list] of line 370. *)
Definition asin_tokens (asin_input : str) : list str :=
  map (fun asin => Py.upper (Py.strip asin))
      (List.filter (fun asin => Py.truthy (Py.strip asin))
                   (Re.split_seps (Py.strip asin_input))).

(** What idempotence of the tool means for one input: the text it
    displays, fed back, gives the same list, and nothing is removed. *)
Definition dedup_idempotent_on (asin_input : str) : Prop :=
  forall r, asin_dedup asin_input = Some r ->
    asin_dedup (asin_text r) =
    Some {| original_count := unique_count r;
            unique_count := unique_count r;
            unique_asins := unique_asins r |}.

(** ** The store *)

(** [m] started in a store of at least [n] objects leaves the first [n]
    as they are, never shrinks the store, and returns a value in [Q]. *)
Definition frames {A} (n : nat) (Q : A -> Prop) (m : M A) : Prop :=
  forall h o h', (n <= length h)%nat -> m h = (o, h') ->
    take n h' = take n h /\ (length h <= length h')%nat /\
    match o with Return a => Q a | Raise _ => True end.

(** Two runs agree when they end the same way and, if they return a
    table, the two tables are equal. *)
Definition same_result (run1 run2 : outcome (option loc) * heap) : Prop :=
  match run1, run2 with
  | (Return (Some out1), h1), (Return (Some out2), h2) =>
      exists df, h1 !! out1 = Some df /\ h2 !! out2 = Some df
  | (Return None, _), (Return None, _) => True
  | (Raise e1, _), (Raise e2, _) => e1 = e2
  | _, _ => False
  end.

(** ** The table [match_brands] builds *)

(** Lines 117-119 on the table itself. *)
Definition record_match (df : DataFrame) (idx : nat) (found : option (str * str))
  : DataFrame :=
  match found with
  | Some (matched_brand, matched_term) =>
      Pd.set_at
        (Pd.set_at (Pd.set_at df idx col_brand_name (Str matched_brand))
                   idx col_brand (Str matched_term))
        idx col_kind branded
  | None => df
  end.

(** Lines 117-119 on one row. *)
Definition mark_row (found : option (str * str)) (row : gmap string cell)
  : gmap string cell :=
  match found with
  | Some (matched_brand, matched_term) =>
      <[col_kind := branded]>
        (<[col_brand := Str matched_term]>
           (<[col_brand_name := Str matched_brand]> row))
  | None => row
  end.

(** A row of [result_df] when the loop starts (lines 68-69 and 84-86). *)
Definition prepared_row (keyword_lower : str) (r : gmap string cell) : gmap string cell :=
  <[col_kind := non_branded]>
    (<[col_brand := Null]>
       (<[col_brand_name := Null]>
          (<[col_keyword_lower := Str keyword_lower]>
             (list_to_map [(col_keyword, Pd.get r col_keyword);
                           (col_volume, Pd.get r col_volume)])))).

(** The row of the result for a row [r] of the keyword table, given what
    the matching of its keyword found. *)
Definition result_row (keyword_lower : str) (found : option (str * str))
    (r : gmap string cell) : gmap string cell :=
  delete col_keyword_lower
    (<[col_feature := Null]> (mark_row found (prepared_row keyword_lower r))).

(** A row the rule form writes. *)
Definition form_row (r : gmap string cell) : Prop :=
  exists b k, Pd.get r col_brand_name = Str b /\ b <> [] /\
              Pd.get r col_rule_keywords = Str k.

Section MatchingVocabulary.

Variable num_repr : Q -> str.

(** The loop of lines 88-119 on the table itself. *)
Fixpoint loop_rows (mm : list (str * str)) (bdf : DataFrame) (bl : list str)
    (items : list (nat * gmap string cell)) (df : DataFrame) : outcome DataFrame :=
  match items with
  | [] => Return df
  | (idx, row) :: rest =>
      match match_keyword mm bdf bl (astype_str num_repr (Pd.get row col_keyword_lower)) with
      | Return found => loop_rows mm bdf bl rest (record_match df idx found)
      | Raise e => Raise e
      end
  end.

(** The table [match_brands] returns, written as a function of the three
    tables it is given, with no store: the steps of the program in the
    same order, each on the value the program has at that point. *)
Definition match_table (pdf bdf rdf : DataFrame) : outcome (option DataFrame) :=
  if Pd.empty pdf then Return None else
  if Pd.empty bdf then Return None else
  match Pd.select pdf [col_keyword; col_volume] with
  | None => Raise KeyError
  | Some df =>
  let df := Pd.setitem df col_keyword_lower
              (map (fun c => Str (Py.lower (astype_str num_repr c))) (Pd.col df col_keyword)) in
  if Pd.has_column bdf col_brand_name then
    let bl := map (fun c => Py.lower (astype_str num_repr c)) (Pd.col bdf col_brand_name) in
    match build_manual_map num_repr rdf with
    | Raise e => Raise e
    | Return mm =>
        let df := Pd.setitem_scalar df col_brand_name Null in
        let df := Pd.setitem_scalar df col_brand Null in
        let df := Pd.setitem_scalar df col_kind non_branded in
        match loop_rows mm bdf bl (imap (fun idx row => (idx, row)) (rows df)) df with
        | Raise e => Raise e
        | Return df =>
            Return (Some (Pd.drop_column (Pd.setitem_scalar df col_feature Null)
                                         col_keyword_lower))
        end
    end
  else Raise KeyError
  end.

(** The assignments of lines 77-81 in the order they are made: each rule
    in turn, each of its terms in turn, as pairs (term, brand). *)
Definition rule_pairs (rdf : DataFrame) : list (str * str) :=
  flat_map (fun row =>
              map (fun kw => (kw, astype_str num_repr (Pd.get row col_brand_name)))
                  (rule_keywords (astype_str num_repr (Pd.get row col_rule_keywords))))
           (rows rdf).

(** Line 72. *)
Definition brand_list (bdf : DataFrame) : list str :=
  map (fun c => Py.lower (astype_str num_repr c)) (Pd.col bdf col_brand_name).

End MatchingVocabulary.

(** ** Brand names *)

(** Equality of two names once letters are folded to lower case. *)
Definition cell_eqb_nocase (a b : cell) : bool :=
  match a, b with
  | Str s, Str t => bool_decide (Py.lower s = Py.lower t)
  | _, _ => Pd.cell_eqb a b
  end.

(** No two rows of the table have names that [same] identifies. *)
Definition names_distinct (same : cell -> cell -> bool) (df : DataFrame) : Prop :=
  ForallOrdPairs
    (fun r1 r2 => same (Pd.get r1 col_brand_name) (Pd.get r2 col_brand_name) = false)
    (rows df).

(** ** Merging *)

(** [o is None] *)
Definition is_none {A} (o : option A) : bool :=
  match o with None => true | Some _ => false end.

Section MergeVocabulary.

Variable Blob : Type.
Variable zip_open : Blob -> option (list (str * Blob)).
Variable read_csv : Blob -> option DataFrame.
Variable read_excel : Blob -> option DataFrame.

(** The table an archive contributes: that of its first entry with a
    tabular extension, every row labelled with the archive's base name;
    nothing when the archive cannot be opened, has no such entry, or the
    entry cannot be read. *)
Definition zip_table (zip_file : upload Blob) : option DataFrame :=
  z ← zip_open (content zip_file);
  entry ← head (List.filter (fun f => is_tabular (fst f)) z);
  df ← read_table Blob read_csv read_excel (fst entry) (snd entry);
  Some (Pd.setitem_scalar df col_time (Str (base_name (name zip_file)))).

(** The table a plain file contributes: its content with the label as a
    new first column; nothing when the file cannot be read or already has
    a column of that name. *)
Definition file_table (file : upload Blob) : option DataFrame :=
  df ← read_table Blob read_csv read_excel (name file) (content file);
  Pd.insert_first df col_time (Str (base_name (name file))).

(** The three ways an archive fails to give a table. *)
Definition zip_unparsable (zip_file : upload Blob) : Prop :=
  zip_open (content zip_file) = None \/
  (exists z, zip_open (content zip_file) = Some z /\
             Forall (fun f => is_tabular (fst f) = false) z) \/
  (exists z file_name f rest,
      zip_open (content zip_file) = Some z /\
      List.filter (fun f => is_tabular (fst f)) z = (file_name, f) :: rest /\
      read_table Blob read_csv read_excel file_name f = None).

End MergeVocabulary.

(** ** Ranking *)

(** The volume of a row, once coerced. *)
Definition volume (r : gmap string cell) : Q := num (Pd.get r col_volume).

(** The exact sum of a list, added up from the left. *)
Definition qsum (l : list Q) : Q := fold_left Qplus l 0%Q.

(** The exact sum of the first [i + 1] volumes. *)
Definition running_total (vols : list Q) (i : nat) : Q :=
  fold_left Qplus (take (S i) vols) 0%Q.

(** The running sums of a list as [cumsum] takes them in the arithmetic
    [np], and its total as [sum] takes it. *)
Fixpoint np_running (np : Np.arith) (acc : option Q) (vols : list Q) : list Q :=
  match vols with
  | [] => []
  | v :: vols' =>
      let acc' := match acc with
                  | Some a => Qred (Np.add np a (Qred v))
                  | None => Qred v
                  end in
      acc' :: np_running np (Some acc') vols'
  end.

Definition np_total (np : Np.arith) (vols : list Q) : Q :=
  Qred (Np.sum np (map Qred vols)).

(** A row with its rank and cumulative columns set. *)
Definition ranked (i : nat) (total cum : Q) (r : gmap string cell) : gmap string cell :=
  <[col_share := Num (Float64.div cum total)]>
    (<[col_cumsum := Num cum]>
       (<[col_rank := Num (inject_Z (Z.of_nat (S i)))]> r)).

(** Lines 51-53 on a sorted table. *)
Definition with_rank_columns (np : Np.arith) (df_sorted : DataFrame) : DataFrame :=
  let df_sorted := Pd.setitem df_sorted col_rank (rank_column (length (rows df_sorted))) in
  let df_sorted := Pd.setitem df_sorted col_cumsum (cumsum np (Pd.col df_sorted col_volume)) in
  Pd.setitem df_sorted col_share
    (div_scalar (Pd.col df_sorted col_cumsum) (series_sum np (Pd.col df_sorted col_volume))).

(** A whole number. *)
Definition whole (q : Q) : bool := Qeq_bool q (inject_Z (Qfloor q)).

(** The sums of whole numbers, exactly: each sum so far, and the total. *)
Fixpoint zrunning (acc : Z) (zs : list Z) : list Z :=
  match zs with
  | [] => []
  | z :: zs' => (acc + z)%Z :: zrunning (acc + z)%Z zs'
  end.

Definition ztotal (zs : list Z) : Z := fold_left Z.add zs 0%Z.

(** What the program relies on from the arithmetic of the column: the sum
    of whole numbers that are not negative is exact as long as it stays
    below 2^53.  (An int64 holds every whole number below 2^63.  A float64
    holds every whole number up to 2^53, and the sum of two float64 is the
    float64 nearest to their exact sum, so every partial sum [sum] forms,
    in whatever order, is exact.) *)
Definition exact_below_2_53 (np : Np.arith) : Prop :=
  (forall a b : Z, (0 <= a)%Z -> (0 <= b)%Z -> (a + b < 2 ^ 53)%Z ->
     (Np.add np (inject_Z a) (inject_Z b) == inject_Z (a + b))%Q) /\
  (forall zs : list Z, Forall (fun z => (0 <= z)%Z) zs -> (ztotal zs < 2 ^ 53)%Z ->
     (Np.sum np (map inject_Z zs) == inject_Z (ztotal zs))%Q).

(** No volume of the table is a text that [pd.to_numeric] reads as an
    infinity ([infinite] tells these texts: inf, -inf, Infinity, 1e999 and
    the like). *)
Definition finite_volumes (infinite : str -> bool) (df : DataFrame) : bool :=
  forallb (fun c => match c with Str s => negb (infinite s) | _ => true end)
          (Pd.col df col_volume).

Section RankingVocabulary.

Variable parse_number : str -> option Q.

(** The rows that survive cleaning: those whose volume coerces to a
    positive number, with the number in place of the original cell. *)
Definition surviving (df : DataFrame) : list (gmap string cell) :=
  omap (fun r => match to_numeric parse_number (Pd.get r col_volume) with
                 | Num q => if negb (Qle_bool q 0) then Some (<[col_volume := Num q]> r)
                            else None
                 | _ => None
                 end) (rows df).

(** Lines 39-43. *)
Definition cleaned (df : DataFrame) : DataFrame :=
  Pd.filter_rows (fun r => is_positive (Pd.get r col_volume))
    (Pd.dropna
       (Pd.setitem df col_volume (map (to_numeric parse_number) (Pd.col df col_volume)))
       col_volume).

End RankingVocabulary.

(** Sorters that meet the contract of [sort_values]: insertion into a
    list of positions kept in order of never-increasing key.  A position
    is inserted after the positions of equal key, or before them when
    [ties_first] is set. *)

Definition passes (ties_first : bool) (keys : list Q) (i j : nat) : bool :=
  if ties_first then negb (Qle_bool (nth j keys 0%Q) (nth i keys 0%Q))
  else Qle_bool (nth i keys 0%Q) (nth j keys 0%Q).

Fixpoint insert_desc (ties_first : bool) (keys : list Q) (i : nat) (idx : list nat)
  : list nat :=
  match idx with
  | [] => [i]
  | j :: idx' =>
      if passes ties_first keys i j then j :: insert_desc ties_first keys i idx'
      else i :: idx
  end.

Definition insertion_argsort_by (ties_first : bool) (keys : list Q) : list nat :=
  fold_left (fun acc i => insert_desc ties_first keys i acc) (seq 0 (length keys)) [].

Definition insertion_argsort : list Q -> list nat := insertion_argsort_by false.

(** ** Samples *)

Definition keyword_row (keyword : string) (volume : Z) : gmap string cell :=
  {[ col_keyword := Str (Py.lit keyword); col_volume := Num (inject_Z volume) ]}.

Definition brand_row (brand : string) : gmap string cell :=
  {[ col_brand_name := Str (Py.lit brand) ]}.

Definition keyword_table (rs : list (gmap string cell)) : DataFrame :=
  {| columns := [col_keyword; col_volume]; rows := rs |}.

Definition brand_table (rs : list (gmap string cell)) : DataFrame :=
  {| columns := [col_brand_name]; rows := rs |}.

(** The classification columns of the table at [out], row by row:
    brand name, matched term, kind. *)
Definition verdicts (run : outcome (option loc) * heap) : option (list (cell * cell * cell)) :=
  match run with
  | (Return (Some out), h) =>
      df ← h !! out;
      Some (map (fun r => (Pd.get r col_brand_name, Pd.get r col_brand, Pd.get r col_kind))
                (rows df))
  | _ => None
  end.

Definition sample_keywords : DataFrame :=
  keyword_table [keyword_row "mouse pad" 100;
                 {[ col_keyword := Str (Py.lit "broken"); col_volume := Str (Py.lit "n/a") ]};
                 keyword_row "wireless mouse" 1000;
                 keyword_row "unused" 0;
                 keyword_row "logitech mouse" 500].

(** Files whose bytes are modelled by what they decode to. *)

#[warnings="-register-all"] Inductive sample_blob : Type :=
| Corrupt
| Sheet (df : DataFrame)
| Archive (entries : list (str * sample_blob)).

Definition sample_zip_open (b : sample_blob) : option (list (str * sample_blob)) :=
  match b with Archive entries => Some entries | _ => None end.

Definition sample_read (b : sample_blob) : option DataFrame :=
  match b with Sheet df => Some df | _ => None end.

Definition dated_table : DataFrame :=
  {| columns := [col_time; "a"];
     rows := [ {[ col_time := Str (Py.lit "old"); "a" := Num 1 ]};
               {[ col_time := Null; "a" := Num 2 ]} ] |}.

Definition plain_table : DataFrame :=
  {| columns := ["a"]; rows := [ {[ "a" := Num 3 ]} ] |}.

(** ** More vocabulary *)

(** The position of the first occurrence of [x] in [l] (the length of [l]
    when there is none). *)
Fixpoint first_index (x : str) (l : list str) : nat :=
  match l with
  | [] => 0
  | y :: l' => if bool_decide (y = x) then 0 else S (first_index x l')
  end.

(** The row of [result_df] for a row of the keyword table when the loop
    of [match_brands] starts. *)
Definition start_row (num_repr : Q -> str) (r : gmap string cell) : gmap string cell :=
  prepared_row (Py.lower (astype_str num_repr (Pd.get r col_keyword))) r.

(** A row of the result of [match_brands]: a brand, the term that was
    found and the kind Branded, or no brand, no term and the kind
    Non-Branded. *)
Definition classified (r : gmap string cell) : Prop :=
  (exists brand term,
      brand <> [] /\ term <> [] /\ Py.lower term = term /\
      Pd.get r col_brand_name = Str brand /\
      Pd.get r col_brand = Str term /\
      Pd.get r col_kind = branded) \/
  (Pd.get r col_brand_name = Null /\
   Pd.get r col_brand = Null /\
   Pd.get r col_kind = non_branded).

(** The stored table after a sequence of uploads, each given by what the
    reader produced for it. *)
Definition product_session (reads : list (option DataFrame)) : option DataFrame :=
  fold_left (fun stored read => product_upload read stored) reads None.

Definition brand_session (reads : list (option DataFrame)) : option DataFrame :=
  fold_left (fun stored read => brand_upload read stored) reads None.

(** An upload that is read and has the columns asked for. *)
Definition product_accepted (read : option DataFrame) : bool :=
  match read with
  | Some df => Pd.has_column df col_keyword && Pd.has_column df col_volume
  | None => false
  end.

Definition brand_accepted (read : option DataFrame) : bool :=
  match read with
  | Some df => Pd.has_column df col_brand_name
  | None => false
  end.

(** The table of the last upload that [accepted] lets through. *)
Definition last_accepted (accepted : option DataFrame -> bool)
    (reads : list (option DataFrame)) : option DataFrame :=
  match last (List.filter accepted reads) with
  | Some (Some df) => Some df
  | _ => None
  end.

Section MergedRows.

Variable Blob : Type.
Variable zip_open : Blob -> option (list (str * Blob)).
Variable read_csv : Blob -> option DataFrame.
Variable read_excel : Blob -> option DataFrame.

(** The rows a plain file contributes to the merge. *)
Definition file_rows (file : upload Blob) : list (gmap string cell) :=
  match read_table Blob read_csv read_excel (name file) (content file) with
  | Some df =>
      if Pd.has_column df col_time then []
      else map (fun r => <[col_time := Str (base_name (name file))]> r) (rows df)
  | None => []
  end.

(** The rows an archive contributes to the merge. *)
Definition zip_rows (zip_file : upload Blob) : list (gmap string cell) :=
  match zip_open (content zip_file) with
  | Some z =>
      match List.filter (fun f => is_tabular (fst f)) z with
      | (file_name, entry) :: _ =>
          match read_table Blob read_csv read_excel file_name entry with
          | Some df =>
              map (fun r => <[col_time := Str (base_name (name zip_file))]> r) (rows df)
          | None => []
          end
      | [] => []
      end
  | None => []
  end.

End MergedRows.

(** * Part III: properties *)

(** ** Characters and strings *)

Lemma upper_char_idem (c : ascii) : Py.upper_char (Py.upper_char c) = Py.upper_char c.
Proof. by_ascii_cases c. Qed.

Lemma lower_char_idem (c : ascii) : Py.lower_char (Py.lower_char c) = Py.lower_char c.
Proof. by_ascii_cases c. Qed.

Lemma is_sep_upper_char (c : ascii) : Re.is_sep (Py.upper_char c) = Re.is_sep c.
Proof. by_ascii_cases c. Qed.

Lemma isspace_is_sep (c : ascii) : Py.isspace c = true -> Re.is_sep c = true.
Proof. unfold Re.is_sep. intros ->. reflexivity. Qed.

Lemma not_sep_not_space (c : ascii) : Re.is_sep c = false -> Py.isspace c = false.
Proof. destruct (Py.isspace c) eqn:E; [|done]. by rewrite (isspace_is_sep c E). Qed.

Lemma upper_idem (s : str) : Py.upper (Py.upper s) = Py.upper s.
Proof.
  unfold Py.upper. rewrite map_map. apply map_ext. intros c. apply upper_char_idem.
Qed.

Lemma sep_free_upper (s : str) : sep_free s -> sep_free (Py.upper s).
Proof.
  unfold sep_free, Py.upper. intros H. apply Forall_map.
  eapply Forall_impl; [exact H|]. intros c Hc. simpl. by rewrite is_sep_upper_char.
Qed.

Lemma lstrip_sep_free (s : str) : sep_free s -> Py.lstrip s = s.
Proof.
  destruct s as [|c s]; [done|]. intros H. apply Forall_cons in H as [Hc _].
  simpl. by rewrite (not_sep_not_space c Hc).
Qed.

Lemma strip_sep_free (s : str) : sep_free s -> Py.strip s = s.
Proof.
  intros H. unfold Py.strip, Py.rstrip. rewrite (lstrip_sep_free s H).
  rewrite lstrip_sep_free; [apply rev_involutive|].
  unfold sep_free. by apply Forall_rev.
Qed.

(** ** [re.split] and [join] *)

Lemma split_seps_nonempty (t : str) : Re.split_seps t <> [].
Proof.
  induction t as [|c t IH]; [done|]. simpl.
  destruct (Re.is_sep c).
  - destruct t as [|c' t']; [done|]. destruct (Re.is_sep c'); [exact IH|done].
  - destruct (Re.split_seps t); done.
Qed.

(** Every piece [re.split] returns is free of separators. *)
Lemma split_seps_sep_free (t : str) : Forall sep_free (Re.split_seps t).
Proof.
  induction t as [|c t IH]; simpl.
  - repeat constructor.
  - destruct (Re.is_sep c) eqn:Hc.
    + destruct t as [|c' t'].
      * repeat constructor.
      * destruct (Re.is_sep c'); [exact IH|]. constructor; [constructor|exact IH].
    + destruct (Re.split_seps t) as [|p ps].
      * repeat constructor. exact Hc.
      * apply Forall_cons in IH as [Hp Hps]. constructor; [|exact Hps].
        constructor; [exact Hc|exact Hp].
Qed.

(** A separator-free prefix joins the first piece of what follows. *)
Lemma split_seps_app_sep_free (u r : str) :
  sep_free u ->
  Re.split_seps (u ++ r) =
  match Re.split_seps r with
  | t :: ts => (u ++ t) :: ts
  | [] => [u]
  end.
Proof.
  intros Hu. pose proof (split_seps_nonempty r) as Hne.
  induction Hu as [|c u Hc Hu IH]; simpl.
  - destruct (Re.split_seps r); done.
  - rewrite Hc, IH. destruct (Re.split_seps r); done.
Qed.

Lemma split_seps_single (u : str) : sep_free u -> Re.split_seps u = [u].
Proof.
  intros Hu. rewrite <- (app_nil_r u) at 1.
  rewrite (split_seps_app_sep_free u [] Hu). simpl. by rewrite app_nil_r.
Qed.

Lemma join_head_token (u : str) (us : list str) :
  token u -> exists c rest, Py.join (Py.lit " ") (u :: us) = c :: rest /\ Re.is_sep c = false.
Proof.
  intros [Hne Hu]. destruct u as [|c u]; [done|].
  apply Forall_cons in Hu as [Hc _].
  exists c. destruct us as [|u' us]; simpl; eauto.
Qed.

(** Splitting the space-joined text of a list of tokens gives the list back. *)
Lemma split_seps_join (us : list str) :
  us <> [] -> Forall token us ->
  Re.split_seps (Py.join (Py.lit " ") us) = us.
Proof.
  induction us as [|u us IH]; [done|]. intros _ Hall.
  apply Forall_cons in Hall as [Hu Hus].
  destruct us as [|u' us].
  - simpl. apply split_seps_single, Hu.
  - change (Py.join (Py.lit " ") (u :: u' :: us))
      with (u ++ Py.lit " " ++ Py.join (Py.lit " ") (u' :: us)).
    rewrite split_seps_app_sep_free by apply Hu.
    assert (Hu' : token u') by (by apply Forall_cons in Hus as [? _]).
    destruct (join_head_token u' us Hu') as (c & rest & Hj & Hc).
    assert (Hsp : Re.split_seps (Py.lit " " ++ Py.join (Py.lit " ") (u' :: us))
                  = [] :: u' :: us).
    { rewrite <- IH at 2 by done. rewrite Hj. simpl. by rewrite Hc. }
    rewrite Hsp. by rewrite app_nil_r.
Qed.

(** The joined text of tokens has no space at either end. *)
Lemma lstrip_head (c : ascii) (s : str) : Py.isspace c = false -> Py.lstrip (c :: s) = c :: s.
Proof. intros H. simpl. by rewrite H. Qed.

Lemma join_last_token (us : list str) (u : str) :
  token u -> exists c rest, rev (Py.join (Py.lit " ") (us ++ [u])) = c :: rest /\ Re.is_sep c = false.
Proof.
  intros [Hne Hu].
  assert (Hlast : exists c rest, rev u = c :: rest /\ Re.is_sep c = false).
  { destruct (rev u) as [|c rest] eqn:E.
    - apply (f_equal (@rev ascii)) in E. rewrite rev_involutive in E. done.
    - exists c, rest. split; [done|].
      assert (Hin : In c (rev u)) by (rewrite E; left; done).
      apply in_rev in Hin. unfold sep_free in Hu. rewrite Forall_forall in Hu.
      apply Hu. by apply list_elem_of_In. }
  destruct Hlast as (c & rest & Hrev & Hc).
  induction us as [|u0 us IH].
  - simpl. eauto.
  - destruct IH as (c' & rest' & Hr & Hc').
    change ((u0 :: us) ++ [u]) with (u0 :: (us ++ [u])).
    destruct (us ++ [u]) as [|x xs] eqn:E; [by destruct us|].
    change (Py.join (Py.lit " ") (u0 :: x :: xs))
      with (u0 ++ Py.lit " " ++ Py.join (Py.lit " ") (x :: xs)).
    rewrite !rev_app_distr, Hr. simpl. eauto.
Qed.

Lemma strip_join (us : list str) :
  us <> [] -> Forall token us ->
  Py.strip (Py.join (Py.lit " ") us) = Py.join (Py.lit " ") us.
Proof.
  intros Hne Hall. unfold Py.strip, Py.rstrip.
  destruct us as [|u us]; [done|].
  assert (Hu : token u) by (by apply Forall_cons in Hall as [? _]).
  destruct (join_head_token u us Hu) as (c & rest & Hj & Hc).
  rewrite Hj, lstrip_head by (by apply not_sep_not_space). rewrite <- Hj.
  destruct (exists_last (l := u :: us)) as (us' & ul & Heq); [done|].
  rewrite Heq in *.
  assert (Hul : token ul).
  { rewrite Forall_forall in Hall. apply Hall. apply list_elem_of_In, in_app_iff.
    right. by left. }
  destruct (join_last_token us' ul Hul) as (c' & rest' & Hr & Hc').
  rewrite Hr, lstrip_head by (by apply not_sep_not_space). rewrite <- Hr.
  apply rev_involutive.
Qed.

(** ** Insertion-ordered dictionaries *)

(** The keys of a dictionary after one assignment. *)
Lemma keys_dict_set {V} (d : list (str * V)) (k : str) (v : V) :
  map fst (Py.dict_set d k v) =
  if bool_decide (k ∈ map fst d) then map fst d else map fst d ++ [k].
Proof.
  induction d as [|[k' v'] d IH]; cbn [Py.dict_set map fst].
  - rewrite bool_decide_eq_false_2; [done|]. apply not_elem_of_nil.
  - destruct (decide (k' = k)) as [->|Hne].
    + rewrite !bool_decide_eq_true_2; [done|apply list_elem_of_here|done].
    + rewrite (bool_decide_eq_false_2 (k' = k)) by done. cbn [map fst]. rewrite IH.
      destruct (decide (k ∈ map fst d)) as [Hin|Hnin].
      * rewrite !bool_decide_eq_true_2; [done|by apply list_elem_of_further|done].
      * rewrite !bool_decide_eq_false_2; [done| |done].
        rewrite elem_of_cons. intros [?|?]; congruence.
Qed.

Lemma keys_fold_dict_set {V} (v : V) (l : list str) (d : list (str * V)) :
  map fst (fold_left (fun d k => Py.dict_set d k v) l d) = fold_left add_key l (map fst d).
Proof.
  revert d. induction l as [|k l IH]; intros d; simpl; [done|].
  rewrite IH, keys_dict_set. done.
Qed.

Lemma keys_fromkeys (l : list str) :
  map fst (Py.dict_fromkeys l) = fold_left add_key l [].
Proof. unfold Py.dict_fromkeys. by rewrite keys_fold_dict_set. Qed.

Lemma add_keys_NoDup (l ks : list str) : NoDup ks -> NoDup (fold_left add_key l ks).
Proof.
  revert ks. induction l as [|k l IH]; intros ks Hks; simpl; [done|].
  apply IH. unfold add_key. case_bool_decide; [done|].
  apply NoDup_app. split_and!; [done| |apply NoDup_singleton].
  intros x Hx ->%list_elem_of_singleton. done.
Qed.

Lemma add_keys_elem (l ks : list str) (x : str) :
  x ∈ fold_left add_key l ks <-> x ∈ ks \/ x ∈ l.
Proof.
  revert ks. induction l as [|k l IH]; intros ks; simpl.
  - split; [by left|]. intros [?|H]; [done|]. by apply not_elem_of_nil in H.
  - rewrite IH. unfold add_key. case_bool_decide.
    + rewrite elem_of_cons. split; [tauto|]. intros [?|[->|?]]; tauto.
    + rewrite elem_of_app, list_elem_of_singleton, elem_of_cons. tauto.
Qed.

(** Keys that are all new and distinct are appended as they come. *)
Lemma add_keys_fresh (l ks : list str) :
  NoDup (ks ++ l) -> fold_left add_key l ks = ks ++ l.
Proof.
  revert ks. induction l as [|k l IH]; intros ks Hnd; simpl.
  - by rewrite app_nil_r.
  - assert (Hk : k ∉ ks).
    { apply NoDup_app in Hnd as (_ & Hdis & _). intros Hin.
      apply (Hdis k Hin). apply list_elem_of_here. }
    unfold add_key. rewrite bool_decide_eq_false_2 by done.
    rewrite IH; [by rewrite <- app_assoc|]. by rewrite <- app_assoc.
Qed.

Lemma fromkeys_NoDup (l : list str) : NoDup (map fst (Py.dict_fromkeys l)).
Proof. rewrite keys_fromkeys. apply add_keys_NoDup, NoDup_nil_2. Qed.

Lemma fromkeys_elem (l : list str) (x : str) : x ∈ map fst (Py.dict_fromkeys l) <-> x ∈ l.
Proof.
  rewrite keys_fromkeys, add_keys_elem. split; [|by right].
  intros [H|?]; [|done]. by apply not_elem_of_nil in H.
Qed.

Lemma fromkeys_of_NoDup (l : list str) : NoDup l -> map fst (Py.dict_fromkeys l) = l.
Proof. intros H. rewrite keys_fromkeys. by apply (add_keys_fresh l []). Qed.

(** ** The ASIN tool *)

Lemma asin_tokens_stored (asin_input : str) : Forall stored_token (asin_tokens asin_input).
Proof.
  unfold asin_tokens. apply Forall_map. apply Forall_forall. intros a Ha.
  apply list_elem_of_In, filter_In in Ha as [Hin Htr].
  pose proof (split_seps_sep_free (Py.strip asin_input)) as Hsf.
  rewrite Forall_forall in Hsf. specialize (Hsf a (proj2 (list_elem_of_In _ _) Hin)).
  simpl. rewrite (strip_sep_free a Hsf) in *. split; [split|].
  - destruct a; [done|]. done.
  - by apply sep_free_upper.
  - apply upper_idem.
Qed.

Lemma asin_dedup_unfold (asin_input : str) :
  asin_dedup asin_input =
  if Py.truthy (Py.strip asin_input) then
    Some {| original_count := length (asin_tokens asin_input);
            unique_count := length (map fst (Py.dict_fromkeys (asin_tokens asin_input)));
            unique_asins := map fst (Py.dict_fromkeys (asin_tokens asin_input)) |}
  else None.
Proof. reflexivity. Qed.

(** The tokens read back from the displayed text of stored tokens. *)
Lemma asin_tokens_join (us : list str) :
  us <> [] -> Forall stored_token us ->
  asin_tokens (Py.join (Py.lit " ") us) = us.
Proof.
  intros Hne Hall.
  assert (Htok : Forall token us) by (eapply Forall_impl; [exact Hall|]; by intros ? [? _]).
  unfold asin_tokens. rewrite strip_join, split_seps_join by done.
  clear Hne Htok. induction Hall as [|u us [[Hu Hsf] Hup] _ IH]; [done|].
  simpl. rewrite (strip_sep_free u Hsf).
  destruct u as [|c u]; [done|]. simpl Py.truthy. cbn iota.
  simpl map. rewrite (strip_sep_free (c :: u) Hsf), Hup. f_equal. exact IH.
Qed.

(** C6 (as the code computes it): on the input "B08 b08 B08,X1; X1" the
    tool stores the unique list ["B08"; "X1"] with unique_count 2, and
    original_count 5, the number of tokens before duplicates are removed. *)
Theorem C6_dedup_example :
  asin_dedup (Py.lit "B08 b08 B08,X1; X1") =
  Some {| original_count := 5;
          unique_count := 2;
          unique_asins := [Py.lit "B08"; Py.lit "X1"] |}.
Proof. vm_compute. reflexivity. Qed.

(** C6, counterexample to the count of the claim: the run on
    "B08 b08 B08,X1; X1" does not store original_count = 4. *)
Lemma C6_original_count_not_4 :
  ~ (exists r, asin_dedup (Py.lit "B08 b08 B08,X1; X1") = Some r /\
               unique_asins r = [Py.lit "B08"; Py.lit "X1"] /\
               original_count r = 4%nat /\
               unique_count r = 2%nat).
Proof.
  intros (r & Hr & _ & Hc & _). vm_compute in Hr.
  injection Hr as <-. simpl in Hc. discriminate Hc.
Qed.

(** C7 (as the code behaves): feeding back the displayed text of a run
    whose unique list is not empty returns the same list, in the same
    order, with original_count equal to unique_count. *)
Theorem C7_dedup_idempotent (asin_input : str) (r : asin_results) :
  asin_dedup asin_input = Some r ->
  unique_asins r <> [] ->
  asin_dedup (asin_text r) =
  Some {| original_count := unique_count r;
          unique_count := unique_count r;
          unique_asins := unique_asins r |}.
Proof.
  rewrite asin_dedup_unfold. destruct (Py.truthy (Py.strip asin_input)); [|done].
  intros [= <-]. cbn [unique_asins unique_count asin_text].
  set (us := map fst (Py.dict_fromkeys (asin_tokens asin_input))). intros Hne.
  assert (Hall : Forall stored_token us).
  { apply Forall_forall. intros u Hu. unfold us in Hu.
    apply (proj1 (fromkeys_elem _ _)) in Hu.
    pose proof (asin_tokens_stored asin_input) as H. rewrite Forall_forall in H.
    exact (H u Hu). }
  assert (Htok : Forall token us) by (eapply Forall_impl; [exact Hall|]; by intros ? [? _]).
  unfold asin_text. cbn [unique_asins].
  rewrite asin_dedup_unfold, strip_join, asin_tokens_join by done.
  assert (Htruthy : Py.truthy (Py.join (Py.lit " ") us) = true).
  { destruct us as [|u us']; [done|].
    apply Forall_cons in Htok as [Hu _].
    destruct (join_head_token u us' Hu) as (c & rest & -> & _). done. }
  rewrite Htruthy, fromkeys_of_NoDup by apply fromkeys_NoDup. done.
Qed.

(** C7, witness: the run on "B08 b08 B08,X1; X1". *)
Lemma C7_dedup_idempotent_witness :
  asin_dedup (asin_text {| original_count := 5; unique_count := 2;
                           unique_asins := [Py.lit "B08"; Py.lit "X1"] |}) =
  Some {| original_count := 2; unique_count := 2;
          unique_asins := [Py.lit "B08"; Py.lit "X1"] |}.
Proof.
  apply (C7_dedup_idempotent (Py.lit "B08 b08 B08,X1; X1")).
  - vm_compute. reflexivity.
  - simpl. discriminate.
Defined.

(** C7, counterexample to the claim as stated: the input "," is accepted
    and leaves an empty unique list; its displayed text is blank, and the
    tool rejects a blank input instead of returning the empty list. *)
Lemma C7_blank_output_not_idempotent : ~ dedup_idempotent_on (Py.lit ",").
Proof.
  intros H. specialize (H _ eq_refl). vm_compute in H. discriminate H.
Qed.

(** ** Whole-word search *)

Lemma match_literal_spec (lit text rest : str) :
  Re.match_literal lit text = Some rest <->
  exists mid, text = mid ++ rest /\ Py.lower mid = Py.lower lit.
Proof.
  revert text. induction lit as [|a lit IH]; intros text; simpl.
  - split.
    + intros [= ->]. by exists [].
    + intros (mid & -> & Hm). destruct mid; [done|discriminate Hm].
  - destruct text as [|b text].
    + split; [done|]. intros (mid & Ht & Hm).
      destruct mid; [discriminate Hm|discriminate Ht].
    + destruct (Ascii.eqb_spec (Py.lower_char a) (Py.lower_char b)) as [Hab|Hab].
      * rewrite IH. split.
        -- intros (mid & -> & Hm). exists (b :: mid). simpl. by rewrite Hm, Hab.
        -- intros (mid & Ht & Hm). destruct mid as [|b' mid]; [discriminate Hm|].
           simpl in Ht, Hm. injection Ht as <- ->. injection Hm as _ Hm. by exists mid.
      * split; [done|]. intros (mid & Ht & Hm).
        destruct mid as [|b' mid]; [discriminate Hm|].
        simpl in Ht, Hm. injection Ht as <- ->. injection Hm as Hb _. congruence.
Qed.

Lemma match_here_spec (prev : option ascii) (lit text : str) :
  Re.match_here prev lit text = true <->
  Re.is_word_opt prev = false /\
  exists mid suf, text = mid ++ suf /\ Py.lower mid = Py.lower lit /\
                  Re.is_word_opt (head suf) = false.
Proof.
  unfold Re.match_here. rewrite andb_true_iff, negb_true_iff.
  apply and_iff_compat_l.
  destruct (Re.match_literal lit text) as [rest|] eqn:E.
  - apply match_literal_spec in E as (mid & -> & Hm). rewrite negb_true_iff. split.
    + intros H. by exists mid, rest.
    + intros (mid' & suf & Ht & Hm' & Hs).
      assert (Hlen : length mid = length mid').
      { apply (f_equal (@length ascii)) in Hm, Hm'. unfold Py.lower in *.
        rewrite !length_map in *. congruence. }
      apply app_inj_1 in Ht as [-> ->]; done.
  - split; [done|]. intros (mid & suf & -> & Hm & _).
    assert (Re.match_literal lit (mid ++ suf) = Some suf) as He
      by (apply match_literal_spec; eauto).
    congruence.
Qed.

Lemma search_from_spec (prev : option ascii) (lit text : str) :
  Re.search_from prev lit text = true <->
  exists pre mid suf,
    text = pre ++ mid ++ suf /\
    Py.lower mid = Py.lower lit /\
    Re.is_word_opt (char_before prev pre) = false /\
    Re.is_word_opt (head suf) = false.
Proof.
  revert prev. induction text as [|c text IH]; intros prev.
  - simpl. rewrite orb_false_r, match_here_spec. split.
    + intros (Hp & mid & suf & Ht & Hm & Hs). by exists [], mid, suf.
    + intros (pre & mid & suf & Ht & Hm & Hp & Hs).
      destruct pre; [|discriminate Ht]. split; [exact Hp|]. by exists mid, suf.
  - cbn [Re.search_from]. rewrite orb_true_iff, match_here_spec, IH. split.
    + intros [(Hp & mid & suf & Ht & Hm & Hs)|(pre & mid & suf & Ht & Hm & Hp & Hs)].
      * by exists [], mid, suf.
      * exists (c :: pre), mid, suf. rewrite Ht. split_and!; try done.
        unfold char_before in *. rewrite last_cons. by destruct (last pre).
    + intros (pre & mid & suf & Ht & Hm & Hp & Hs). destruct pre as [|c' pre].
      * left. split; [exact Hp|]. by exists mid, suf.
      * right. simpl in Ht. injection Ht as <- ->. exists pre, mid, suf.
        split_and!; try done. unfold char_before in *. rewrite last_cons in Hp.
        by destruct (last pre).
Qed.

(** The search succeeds exactly when the term occurs somewhere as a whole
    word, up to case. *)
Lemma search_word_spec (term text : str) :
  Re.search_word term text = true <-> exists p, whole_word_at term text p.
Proof.
  unfold Re.search_word, whole_word_at. rewrite search_from_spec. split.
  - intros (pre & mid & suf & Ht & Hm & Hp & Hs). exists (length pre), pre, mid, suf.
    split_and!; try done. unfold char_before in Hp. by destruct (last pre).
  - intros (p & pre & mid & suf & Ht & _ & Hm & Hp & Hs). exists pre, mid, suf.
    split_and!; try done. unfold char_before. by destruct (last pre).
Qed.

(** ** The store: what a computation leaves untouched *)

Lemma frames_ret {A} n (Q : A -> Prop) (a : A) : Q a -> frames n Q (ret a).
Proof. intros HQ h o h' Hn. unfold ret. intros [= <- <-]. done. Qed.

Lemma frames_raise {A} n (Q : A -> Prop) (e : exn) : frames n Q (raise e).
Proof. intros h o h' Hn. unfold raise. intros [= <- <-]. done. Qed.

Lemma frames_bind {A B} n (P : A -> Prop) (Q : B -> Prop) (m : M A) (k : A -> M B) :
  frames n P m -> (forall a, P a -> frames n Q (k a)) -> frames n Q (m ≫= k).
Proof.
  intros Hm Hk h o h' Hn. unfold mbind, M_bind, bind.
  destruct (m h) as [[a|e] h1] eqn:E; intros Hrun.
  - destruct (Hm h _ _ Hn E) as (Ht & Hl & Ha).
    destruct (Hk a Ha h1 o h' ltac:(lia) Hrun) as (Ht' & Hl' & Ho).
    split_and!; [congruence|lia|done].
  - injection Hrun as <- <-. destruct (Hm h _ _ Hn E) as (Ht & Hl & _). done.
Qed.

Lemma frames_weaken {A} n (P Q : A -> Prop) (m : M A) :
  frames n P m -> (forall a, P a -> Q a) -> frames n Q m.
Proof.
  intros Hm HPQ h o h' Hn Hrun. destruct (Hm h o h' Hn Hrun) as (Ht & Hl & Ho).
  split_and!; [done..|]. destruct o; auto.
Qed.

Lemma frames_load n (l : loc) : frames n (fun _ => True) (load l).
Proof.
  intros h o h' Hn. unfold load. destruct (h !! l); intros [= <- <-]; done.
Qed.

Lemma frames_alloc n (df : DataFrame) : frames n (fun l => (n <= l)%nat) (alloc df).
Proof.
  intros h o h' Hn. unfold alloc. intros [= <- <-].
  split_and!; [|rewrite length_app; lia|done].
  by rewrite take_app_le.
Qed.

Lemma frames_update n (l : loc) (f : DataFrame -> DataFrame) :
  (n <= l)%nat -> frames n (fun _ => True) (update l f).
Proof.
  intros Hl h o h' Hn. unfold update. destruct (h !! l); intros [= <- <-]; [|done].
  split_and!; [|by rewrite length_insert|done].
  by rewrite take_insert_ge.
Qed.

Lemma frames_of_option {A} n (e : exn) (o : option A) : frames n (fun _ => True) (of_option e o).
Proof. destruct o; [by apply frames_ret|apply frames_raise]. Qed.

Lemma frames_of_outcome {A} n (o : outcome A) : frames n (fun _ => True) (of_outcome o).
Proof. intros h o' h' Hn. unfold of_outcome. intros [= <- <-]. by destruct o. Qed.

Lemma frames_for_each {A} n (body : A -> M unit) (l : list A) :
  (forall x, frames n (fun _ => True) (body x)) ->
  frames n (fun _ => True) (for_each body l).
Proof.
  intros Hb. induction l as [|x l IH]; simpl.
  - by apply frames_ret.
  - eapply frames_bind; [apply Hb|]. intros _ _. exact IH.
Qed.

Section MatchBrandsStore.

Variable num_repr : Q -> str.

Lemma frames_match_row n (result_df brand_df : loc) mm bl item :
  (n <= result_df)%nat ->
  frames n (fun _ => True) (match_row num_repr result_df brand_df mm bl item).
Proof.
  intros Hr. destruct item as [idx row]. unfold match_row.
  eapply frames_bind; [apply frames_load|]. intros bdf _.
  eapply frames_bind; [apply frames_of_outcome|]. intros [[b t]|] _.
  - eapply frames_bind; [by apply frames_update|]. intros _ _.
    eapply frames_bind; [by apply frames_update|]. intros _ _.
    by apply frames_update.
  - by apply frames_ret.
Qed.

(** [match_brands] writes only to objects it allocates itself. *)
Lemma frames_match_brands n (product_df brand_df : option loc) (custom_rules_df : loc) :
  frames n (fun o => forall out, o = Some out -> (n <= out)%nat)
         (match_brands num_repr product_df brand_df custom_rules_df).
Proof.
  unfold match_brands.
  destruct product_df as [p|]; [|by apply frames_ret].
  eapply frames_bind; [apply frames_load|]. intros pdf _.
  destruct (Pd.empty pdf); [by apply frames_ret|].
  destruct brand_df as [b|]; [|by apply frames_ret].
  eapply frames_bind; [apply frames_load|]. intros bdf _.
  destruct (Pd.empty bdf); [by apply frames_ret|].
  eapply frames_bind; [apply frames_of_option|]. intros sel _.
  eapply frames_bind; [apply frames_alloc|]. intros res Hres.
  eapply frames_bind; [by apply frames_update|]. intros _ _.
  eapply frames_bind; [apply frames_load|]. intros bdf' _.
  eapply frames_bind.
  { instantiate (1 := fun _ => True). destruct (Pd.has_column bdf' col_brand_name);
      [by apply frames_ret|apply frames_raise]. }
  intros _ _.
  eapply frames_bind; [apply frames_load|]. intros rules _.
  eapply frames_bind; [apply frames_of_outcome|]. intros mm _.
  do 3 (eapply frames_bind; [by apply frames_update|]; intros _ _).
  eapply frames_bind; [apply frames_load|]. intros snapshot _.
  eapply frames_bind; [apply frames_for_each; intros x; by apply frames_match_row|].
  intros _ _.
  eapply frames_bind; [by apply frames_update|]. intros _ _.
  eapply frames_bind; [apply frames_load|]. intros current _.
  eapply frames_bind; [apply frames_alloc|]. intros out Hout.
  apply frames_ret. intros ? [= <-]. done.
Qed.

End MatchBrandsStore.

(** ** [match_brands] as a function of the contents of its arguments *)

Lemma run_bind {A B} (m : M A) (k : A -> M B) (h : heap) :
  (m ≫= k) h = match m h with
               | (Return a, h') => k a h'
               | (Raise e, h') => (Raise e, h')
               end.
Proof. reflexivity. Qed.

Lemma run_ret {A} (a : A) (h : heap) : ret a h = (Return a, h).
Proof. reflexivity. Qed.

Lemma run_raise {A} (e : exn) (h : heap) : raise (A := A) e h = (Raise e, h).
Proof. reflexivity. Qed.

Lemma run_alloc (df : DataFrame) (h : heap) : alloc df h = (Return (length h), h ++ [df]).
Proof. reflexivity. Qed.

Lemma run_of_outcome {A} (o : outcome A) (h : heap) : of_outcome o h = (o, h).
Proof. reflexivity. Qed.

Lemma load_here (h : heap) (l : loc) (df : DataFrame) :
  h !! l = Some df -> load l h = (Return df, h).
Proof. intros H. unfold load. by rewrite H. Qed.

Lemma load_old (h ext : heap) (l : loc) (df : DataFrame) :
  h !! l = Some df -> load l (h ++ ext) = (Return df, h ++ ext).
Proof. intros H. unfold load. by rewrite (lookup_app_l_Some _ _ _ _ H). Qed.

Lemma load_new (h ext : heap) (df : DataFrame) :
  load (length h) (h ++ df :: ext) = (Return df, h ++ df :: ext).
Proof. unfold load. by rewrite list_lookup_middle. Qed.

Lemma update_new (h ext : heap) (df : DataFrame) (f : DataFrame -> DataFrame) :
  update (length h) f (h ++ df :: ext) = (Return tt, h ++ f df :: ext).
Proof.
  unfold update. rewrite list_lookup_middle by done.
  by rewrite insert_app_r_alt, Nat.sub_diag by done.
Qed.

Section MatchBrandsTable.

Variable num_repr : Q -> str.

Lemma for_each_match_row (h : heap) (b : loc) (bdf : DataFrame) mm bl items (df : DataFrame) :
  h !! b = Some bdf ->
  exists df',
    for_each (match_row num_repr (length h) b mm bl) items (h ++ [df]) =
      (match loop_rows num_repr mm bdf bl items df with
       | Return _ => Return tt
       | Raise e => Raise e
       end, h ++ [df']) /\
    (forall d, loop_rows num_repr mm bdf bl items df = Return d -> df' = d).
Proof.
  intros Hb. revert df. induction items as [|[idx row] items IH]; intros df.
  - exists df. split; [done|]. by intros d [= <-].
  - cbn [for_each loop_rows]. rewrite run_bind. unfold match_row at 1.
    rewrite run_bind, (load_old _ _ _ _ Hb), run_bind, run_of_outcome.
    destruct (match_keyword mm bdf bl _) as [[[mb mt]|]|e].
    + rewrite run_bind, update_new, run_bind, update_new, update_new.
      destruct (IH (record_match df idx (Some (mb, mt)))) as (df' & Hrun & Hd).
      exists df'. split; [exact Hrun|exact Hd].
    + rewrite run_ret. destruct (IH df) as (df' & Hrun & Hd).
      exists df'. split; [exact Hrun|exact Hd].
    + exists df. split; [done|]. by intros d.
Qed.

(** The run of [match_brands] on three tables of the store: what it
    returns, and the store it leaves, which is the old one with the
    objects it allocated added at the end. *)
Lemma match_brands_run (h : heap) (p b r : loc) (pdf bdf rdf : DataFrame) :
  h !! p = Some pdf -> h !! b = Some bdf -> h !! r = Some rdf ->
  match match_table num_repr pdf bdf rdf with
  | Return (Some df) =>
      exists tmp, match_brands num_repr (Some p) (Some b) r h =
                  (Return (Some (S (length h))), h ++ [tmp; df])
  | Return None => match_brands num_repr (Some p) (Some b) r h = (Return None, h)
  | Raise e => exists news, match_brands num_repr (Some p) (Some b) r h = (Raise e, h ++ news)
  end.
Proof.
  intros Hp Hb Hr. unfold match_brands, match_table.
  rewrite run_bind, (load_here _ _ _ Hp).
  destruct (Pd.empty pdf); [done|].
  rewrite run_bind, (load_here _ _ _ Hb).
  destruct (Pd.empty bdf); [done|].
  rewrite run_bind.
  destruct (Pd.select pdf [col_keyword; col_volume]) as [sel|]; cbn [of_option].
  2: { rewrite run_raise. exists []. by rewrite app_nil_r. }
  rewrite run_ret, run_bind, run_alloc, run_bind, update_new.
  rewrite run_bind, (load_old _ _ _ _ Hb), run_bind.
  destruct (Pd.has_column bdf col_brand_name).
  2: { rewrite run_raise. by eexists. }
  rewrite run_ret, run_bind, (load_old _ _ _ _ Hr), run_bind, run_of_outcome.
  destruct (build_manual_map num_repr rdf) as [mm|e]; [|by eexists].
  rewrite run_bind, update_new, run_bind, update_new, run_bind, update_new.
  rewrite run_bind, load_new, run_bind.
  match goal with
  | |- context [for_each ?body ?items (h ++ [?df])] =>
      destruct (for_each_match_row h b bdf mm
                  (map (fun c => Py.lower (astype_str num_repr c)) (Pd.col bdf col_brand_name))
                  items df Hb) as (df' & Hrun & Hd)
  end.
  rewrite Hrun. clear Hrun.
  match type of Hd with
  | forall d, ?L = Return d -> _ => destruct L as [dfinal|e] eqn:Hloop
  end; [|by eexists].
  rewrite (Hd dfinal eq_refl).
  rewrite run_bind, update_new, run_bind, load_new, run_bind, run_alloc, run_ret.
  eexists. rewrite length_app, <- app_assoc. simpl. rewrite Nat.add_1_r. reflexivity.
Qed.

End MatchBrandsTable.

(** ** The rows of the result of [match_brands] *)

Lemma zip_with_map_map {A B C D} (f : B -> C -> D) (g : A -> B) (h : A -> C) (l : list A) :
  zip_with f (map g l) (map h l) = map (fun x => f (g x) (h x)) l.
Proof. induction l as [|x l IH]; [done|]. cbn. by rewrite IH. Qed.

Lemma get_keyword_lower_prepared (kl : str) (r : gmap string cell) :
  Pd.get (prepared_row kl r) col_keyword_lower = Str kl.
Proof. unfold Pd.get, prepared_row. by simplify_map_eq. Qed.

Lemma get_keyword_selected (r : gmap string cell) :
  Pd.get (list_to_map [(col_keyword, Pd.get r col_keyword);
                       (col_volume, Pd.get r col_volume)]) col_keyword
  = Pd.get r col_keyword.
Proof. unfold Pd.get at 1. by simplify_map_eq. Qed.

Lemma rows_record_match (df : DataFrame) (done rest : list (gmap string cell))
    (r : gmap string cell) (found : option (str * str)) :
  rows df = done ++ r :: rest ->
  rows (record_match df (length done) found) = done ++ mark_row found r :: rest /\
  columns (record_match df (length done) found) = columns df.
Proof.
  intros Hrows. destruct found as [[b t]|]; [|done].
  split; [|done]. cbn [record_match Pd.set_at rows mark_row]. rewrite Hrows.
  rewrite !alter_app_r_alt, !Nat.sub_diag by done. done.
Qed.

Section MatchBrandsRows.

Variable num_repr : Q -> str.

Lemma prepared_rows (l : list (gmap string cell)) :
  map (fun r => <[col_kind := non_branded]> r)
    (map (fun r => <[col_brand := Null]> r)
       (map (fun r => <[col_brand_name := Null]> r)
          (zip_with (fun r v => <[col_keyword_lower := v]> r)
             (map (fun r => list_to_map (map (fun c => (c, Pd.get r c))
                                             [col_keyword; col_volume])) l)
             (map (fun c => Str (Py.lower (astype_str num_repr c)))
                (Pd.col
                   {| columns := [col_keyword; col_volume];
                      rows := map (fun r => list_to_map (map (fun c => (c, Pd.get r c))
                                                             [col_keyword; col_volume])) l |}
                   col_keyword)))))
  = map (fun r => prepared_row (Py.lower (astype_str num_repr (Pd.get r col_keyword))) r) l.
Proof.
  unfold Pd.col. cbn [rows]. rewrite !map_map, zip_with_map_map, map_map.
  apply map_ext. intros r. cbn [map]. rewrite get_keyword_selected. reflexivity.
Qed.

Lemma loop_rows_spec mm bdf bl (rest done : list (gmap string cell)) (df df' : DataFrame) :
  rows df = done ++ rest ->
  loop_rows num_repr mm bdf bl (imap (fun i r => ((length done + i)%nat, r)) rest) df
    = Return df' ->
  columns df' = columns df /\
  exists rest',
    rows df' = done ++ rest' /\
    Forall2 (fun r r' =>
               exists found,
                 match_keyword mm bdf bl (astype_str num_repr (Pd.get r col_keyword_lower))
                   = Return found /\
                 r' = mark_row found r) rest rest'.
Proof.
  revert done df. induction rest as [|r rest IH]; intros done df Hrows.
  - cbn. intros [= <-]. split; [done|]. exists []. split; [done|constructor].
  - cbn [imap loop_rows]. rewrite Nat.add_0_r.
    destruct (match_keyword mm bdf bl _) as [found|e] eqn:Hfound; [|done].
    intros Hloop.
    destruct (rows_record_match df done rest r found Hrows) as [Hrows' Hcols'].
    specialize (IH (done ++ [mark_row found r]) (record_match df (length done) found)).
    rewrite <- app_assoc in IH. specialize (IH Hrows').
    rewrite length_app in IH. cbn [length] in IH.
    rewrite (imap_ext _ (fun i r0 => ((length done + 1 + i)%nat, r0))) in Hloop
      by (intros; cbn; f_equal; lia).
    destruct (IH Hloop) as (Hc & rest' & Hr & Hall).
    split; [congruence|]. exists (mark_row found r :: rest'). split.
    + by rewrite Hr, <- app_assoc.
    + constructor; [|exact Hall]. by exists found.
Qed.

(** Each row of the table [match_brands] returns is the row of the
    keyword table at the same position, marked with what the matching of
    its lower-cased keyword found. *)
Lemma match_table_rows (pdf bdf rdf out : DataFrame) :
  match_table num_repr pdf bdf rdf = Return (Some out) ->
  exists mm,
    build_manual_map num_repr rdf = Return mm /\
    columns out = [col_keyword; col_volume; col_brand_name; col_brand; col_kind; col_feature] /\
    Forall2 (fun r r' =>
               let keyword_lower := Py.lower (astype_str num_repr (Pd.get r col_keyword)) in
               exists found,
                 match_keyword mm bdf
                   (map (fun c => Py.lower (astype_str num_repr c)) (Pd.col bdf col_brand_name))
                   keyword_lower = Return found /\
                 r' = result_row keyword_lower found r)
            (rows pdf) (rows out).
Proof.
  unfold match_table.
  destruct (Pd.empty pdf); [done|]. destruct (Pd.empty bdf); [done|].
  unfold Pd.select. destruct (forallb _ _); [|done].
  destruct (Pd.has_column bdf col_brand_name); [|done].
  destruct (build_manual_map num_repr rdf) as [mm|e]; [|done].
  match goal with
  | |- context [loop_rows _ _ _ _ (imap _ (rows ?d)) ?d] => set (df0 := d)
  end.
  destruct (loop_rows num_repr mm bdf _ _ df0) as [df'|e] eqn:Hloop; [|done].
  intros [= <-]. exists mm. split; [done|].
  destruct (loop_rows_spec mm bdf _ (rows df0) [] df0 df' eq_refl Hloop)
    as (Hcols & rest' & Hrows & Hall).
  simpl in Hrows. split.
  - cbn [Pd.drop_column Pd.setitem_scalar columns]. unfold Pd.has_column.
    rewrite Hcols. vm_compute. reflexivity.
  - cbn [Pd.drop_column Pd.setitem_scalar rows]. rewrite Hrows. clear Hloop Hrows Hcols.
    subst df0. cbn [Pd.setitem_scalar Pd.setitem rows Pd.col] in Hall.
    rewrite prepared_rows in Hall.
    apply Forall2_fmap_l in Hall. rewrite map_map. apply Forall2_fmap_r.
    eapply Forall2_impl; [exact Hall|]. unfold compose. intros r r' (found & Hfound & ->).
    rewrite get_keyword_lower_prepared in Hfound. cbn [astype_str] in Hfound.
    exists found. split; [exact Hfound|reflexivity].
Qed.

End MatchBrandsRows.

(** The cells of a row of the result. *)
Lemma result_row_cells (kl : str) (found : option (str * str)) (r : gmap string cell) :
  Pd.get (result_row kl found r) col_keyword = Pd.get r col_keyword /\
  Pd.get (result_row kl found r) col_volume = Pd.get r col_volume /\
  Pd.get (result_row kl found r) col_brand_name =
    match found with Some (b, _) => Str b | None => Null end /\
  Pd.get (result_row kl found r) col_brand =
    match found with Some (_, t) => Str t | None => Null end /\
  Pd.get (result_row kl found r) col_kind =
    match found with Some _ => branded | None => non_branded end /\
  Pd.get (result_row kl found r) col_feature = Null.
Proof.
  unfold Pd.get at 1 3 5 6 7 8, result_row, prepared_row.
  destruct found as [[b t]|]; cbn [mark_row];
    split_and!; by simplify_map_eq.
Qed.

(** ** What the two passes record *)

Lemma manual_pass_Some items kw brand term :
  manual_pass items kw = Some (brand, term) ->
  (term, brand) ∈ items /\ term <> [] /\ Re.search_word term kw = true.
Proof.
  induction items as [|[k b] items IH]; [done|]. cbn [manual_pass].
  destruct (Py.truthy k && Re.search_word k kw) eqn:E.
  - intros [= <- <-]. apply andb_true_iff in E as [Hk Hs].
    split_and!; [apply list_elem_of_here| |done]. by destruct k.
  - intros H. destruct (IH H) as (? & ? & ?). split_and!; [|done..].
    by apply list_elem_of_further.
Qed.

Lemma manual_pass_None items kw :
  manual_pass items kw = None <->
  forall term brand, (term, brand) ∈ items -> term <> [] -> Re.search_word term kw = false.
Proof.
  induction items as [|[k b] items IH]; cbn [manual_pass].
  - split; [|done]. intros _ t b' H. by apply not_elem_of_nil in H.
  - destruct (Py.truthy k && Re.search_word k kw) eqn:E.
    + split; [done|]. intros H. apply andb_true_iff in E as [Hk Hs].
      rewrite (H k b) in Hs; [done|apply list_elem_of_here|by destruct k].
    + rewrite IH. split.
      * intros H t b' Hin Hne. apply elem_of_cons in Hin as [Heq|Hin]; [|by eapply H].
        injection Heq as -> ->.
        apply andb_false_iff in E as [E|E]; [by destruct k|done].
      * intros H t b' Hin. apply (H t b'). by apply list_elem_of_further.
Qed.

Lemma brand_pass_Some bdf bl kw original term :
  brand_pass bdf bl kw = Return (Some (original, term)) ->
  term ∈ bl /\ term <> [] /\ Re.search_word term kw = true /\
  original_brand bdf term = Return original.
Proof.
  induction bl as [|brand bl IH]; [done|]. cbn [brand_pass].
  destruct (Py.truthy brand && Re.search_word brand kw) eqn:E.
  - destruct (original_brand bdf brand) as [o|e] eqn:Ho; [|done].
    intros [= <- <-]. apply andb_true_iff in E as [Hk Hs].
    split_and!; [apply list_elem_of_here| |done..]. by destruct brand.
  - intros H. destruct (IH H) as (? & ? & ? & ?). split_and!; [|done..].
    by apply list_elem_of_further.
Qed.

(** A recorded term is a term of one pass and is found in the keyword. *)
Lemma match_keyword_Some mm bdf bl kw brand term :
  match_keyword mm bdf bl kw = Return (Some (brand, term)) ->
  term <> [] /\ Re.search_word term kw = true /\
  ((term, brand) ∈ mm \/ term ∈ bl).
Proof.
  unfold match_keyword.
  destruct (manual_pass mm kw) as [[mb mt]|] eqn:Hm.
  - apply manual_pass_Some in Hm as (Hin & Hne & Hs).
    destruct (Py.truthy mb) eqn:Hmb.
    + rewrite Hmb. intros [= <- <-]. auto.
    + destruct (brand_pass bdf bl kw) as [[[ob ot]|]|e] eqn:Hb.
      * destruct (Py.truthy ob); [|done]. intros [= <- <-].
        apply brand_pass_Some in Hb as (? & ? & ? & ?). auto.
      * by rewrite Hmb.
      * done.
  - destruct (brand_pass bdf bl kw) as [[[ob ot]|]|e] eqn:Hb; [|done..].
    destruct (Py.truthy ob); [|done]. intros [= <- <-].
    apply brand_pass_Some in Hb as (? & ? & ? & ?). auto.
Qed.

Section MatchBrandsReturns.

Variable num_repr : Q -> str.

(** When [match_brands] returns a table, it is the table [match_table]
    describes, stored at the returned reference. *)
Lemma match_brands_returns (h h' : heap) (p b r out : loc) (pdf bdf rdf : DataFrame) :
  h !! p = Some pdf -> h !! b = Some bdf -> h !! r = Some rdf ->
  match_brands num_repr (Some p) (Some b) r h = (Return (Some out), h') ->
  exists df, match_table num_repr pdf bdf rdf = Return (Some df) /\ h' !! out = Some df.
Proof.
  intros Hp Hb Hr Hrun.
  pose proof (match_brands_run num_repr h p b r pdf bdf rdf Hp Hb Hr) as H.
  destruct (match_table num_repr pdf bdf rdf) as [[df|]|e].
  - destruct H as (tmp & H). rewrite H in Hrun. injection Hrun as <- <-.
    exists df. split; [done|].
    change (h ++ [tmp; df]) with (h ++ [tmp] ++ [df]). rewrite app_assoc.
    rewrite lookup_app_r; rewrite length_app; cbn; [|lia].
    by replace (S (length h) - (length h + 1))%nat with 0%nat by lia.
  - rewrite H in Hrun. done.
  - destruct H as (news & H). rewrite H in Hrun. done.
Qed.

End MatchBrandsReturns.

Lemma is_word_lower_char (c : ascii) : Re.is_word (Py.lower_char c) = Re.is_word c.
Proof. by_ascii_cases c. Qed.

Lemma is_word_opt_lower (o : option ascii) :
  Re.is_word_opt (Py.lower_char <$> o) = Re.is_word_opt o.
Proof. destruct o; [apply is_word_lower_char|done]. Qed.

Lemma lower_idem (s : str) : Py.lower (Py.lower s) = Py.lower s.
Proof.
  unfold Py.lower. rewrite map_map. apply map_ext. intros c. apply lower_char_idem.
Qed.

Lemma last_map {A B} (f : A -> B) (l : list A) : last (map f l) = f <$> last l.
Proof.
  induction l as [|x l IH]; [done|]. cbn [map]. rewrite !last_cons, IH.
  by destruct (last l).
Qed.

Lemma head_map {A B} (f : A -> B) (l : list A) : head (map f l) = f <$> head l.
Proof. by destruct l. Qed.

(** Lower-casing the text does not change where a term occurs as a
    whole word. *)
Lemma whole_word_at_lower (term text : str) (p : nat) :
  whole_word_at term (Py.lower text) p <-> whole_word_at term text p.
Proof.
  unfold whole_word_at. split.
  - intros (pre & mid & suf & Ht & Hl & Hm & Hp & Hs).
    unfold Py.lower in Ht.
    apply map_eq_app in Ht as (pre' & rest & -> & <- & Ht).
    apply map_eq_app in Ht as (mid' & suf' & -> & <- & <-).
    exists pre', mid', suf'. rewrite length_map in Hl.
    rewrite last_map, is_word_opt_lower in Hp. rewrite head_map, is_word_opt_lower in Hs.
    split_and!; try done. fold (Py.lower mid') in Hm. by rewrite lower_idem in Hm.
  - intros (pre & mid & suf & -> & Hl & Hm & Hp & Hs).
    exists (Py.lower pre), (Py.lower mid), (Py.lower suf). unfold Py.lower at 1.
    rewrite !map_app. split_and!.
    + done.
    + unfold Py.lower. by rewrite length_map.
    + by rewrite lower_idem.
    + unfold Py.lower. by rewrite last_map, is_word_opt_lower.
    + unfold Py.lower. by rewrite head_map, is_word_opt_lower.
Qed.

(** *** The search, in the words of the claim *)

Lemma all_chars_complete (c : ascii) : In c all_chars.
Proof.
  rewrite <- (ascii_nat_embedding c). apply in_map, in_seq.
  pose proof (nat_ascii_bounded c). lia.
Qed.

Lemma is_word_alnum (c : ascii) : Re.is_word c = true <-> alnum_or_underscore c.
Proof.
  assert (H : forallb (fun c => eqb (Re.is_word c) (bool_decide (alnum_or_underscore c)))
                      all_chars = true) by (vm_compute; reflexivity).
  rewrite forallb_forall in H. specialize (H c (all_chars_complete c)).
  apply eqb_prop in H. rewrite H. apply bool_decide_eq_true.
Qed.

Lemma lower_char_same_letter (a b : ascii) :
  Py.lower_char a = Py.lower_char b <-> same_letter a b.
Proof.
  assert (H : forallb (fun a => forallb (fun b =>
                eqb (Ascii.eqb (Py.lower_char a) (Py.lower_char b))
                    (bool_decide (same_letter a b))) all_chars) all_chars = true)
    by (vm_compute; reflexivity).
  rewrite forallb_forall in H. specialize (H a (all_chars_complete a)).
  rewrite forallb_forall in H. specialize (H b (all_chars_complete b)).
  apply eqb_prop in H. rewrite <- Ascii.eqb_eq, H. apply bool_decide_eq_true.
Qed.

Lemma lower_same_up_to_case (s t : str) : Py.lower s = Py.lower t <-> same_up_to_case s t.
Proof.
  unfold same_up_to_case. revert t. induction s as [|a s IH]; intros [|b t]; cbn.
  - split; [constructor|done].
  - split; [done|]. intros H. inversion H.
  - split; [done|]. intros H. inversion H.
  - split.
    + intros [= Hab Hst]. constructor; [by apply lower_char_same_letter|by apply IH].
    + intros H. inversion H as [|? ? ? ? Hab Hst]; subst. f_equal.
      * by apply lower_char_same_letter.
      * by apply IH.
Qed.

Lemma is_word_opt_alnum (o : option ascii) :
  Re.is_word_opt o = false <-> forall c, o = Some c -> ~ alnum_or_underscore c.
Proof.
  destruct o as [c|]; cbn.
  - rewrite <- not_true_iff_false, is_word_alnum. split.
    + by intros H ? [= <-].
    + intros H. by apply H.
  - split; [done|auto].
Qed.

(** The two ways of saying it agree. *)
Lemma whole_word_at_occurs (term text : str) (p : nat) :
  whole_word_at term text p <-> occurs_whole_word_at term text p.
Proof.
  unfold whole_word_at, occurs_whole_word_at.
  split; intros (pre & mid & suf & Ht & Hl & Hm & Hp & Hs); exists pre, mid, suf.
  - split_and!; [done|done|by apply lower_same_up_to_case
                |by apply is_word_opt_alnum|by apply is_word_opt_alnum].
  - split_and!; [done|done|by apply lower_same_up_to_case
                |by apply is_word_opt_alnum|by apply is_word_opt_alnum].
Qed.

Section C1.

Variable num_repr : Q -> str.


End C1.

(** ** The manual mapping *)

Lemma dict_get_set {V} (d : list (str * V)) (k k' : str) (v : V) :
  dict_get (Py.dict_set d k v) k' = if bool_decide (k = k') then Some v else dict_get d k'.
Proof.
  unfold dict_get. induction d as [|[k0 v0] d IH]; cbn [Py.dict_set List.find fst].
  - by case_bool_decide.
  - destruct (decide (k0 = k)) as [->|Hne].
    + rewrite (bool_decide_eq_true_2 (k = k)) by done. cbn [List.find fst].
      by case_bool_decide.
    + rewrite (bool_decide_eq_false_2 (k0 = k)) by done. cbn [List.find fst].
      destruct (decide (k0 = k')) as [->|Hne'].
      * rewrite (bool_decide_eq_true_2 (k' = k')) by done.
        by rewrite (bool_decide_eq_false_2 (k = k')) by done.
      * rewrite (bool_decide_eq_false_2 (k0 = k')) by done. exact IH.
Qed.

Lemma keys_fill (pairs d : list (str * str)) :
  map fst (fill pairs d) = fold_left add_key (map fst pairs) (map fst d).
Proof.
  revert d. induction pairs as [|[k v] pairs IH]; intros d; [done|].
  cbn [fill fold_left map fst snd]. fold (fill pairs (Py.dict_set d k v)).
  by rewrite IH, keys_dict_set.
Qed.

(** The value of a key is the one assigned last. *)
Lemma dict_get_fill (pairs d : list (str * str)) (k : str) :
  dict_get (fill pairs d) k =
  match last_brand_of pairs k with
  | Some v => Some v
  | None => dict_get d k
  end.
Proof.
  revert d. induction pairs as [|[k0 v0] pairs IH]; intros d; [done|].
  cbn [fill fold_left fst snd]. fold (fill pairs (Py.dict_set d k0 v0)).
  rewrite IH, dict_get_set. unfold last_brand_of. cbn [List.filter fst].
  destruct (decide (k0 = k)) as [->|Hne].
  - rewrite !(bool_decide_eq_true_2 (k = k)) by done. rewrite last_cons.
    by destruct (last _).
  - rewrite !(bool_decide_eq_false_2 (k0 = k)) by done. done.
Qed.

Lemma find_app {A} (P : A -> bool) (l1 l2 : list A) :
  List.find P (l1 ++ l2) =
  match List.find P l1 with Some x => Some x | None => List.find P l2 end.
Proof. induction l1 as [|x l1 IH]; [done|]. cbn. by destruct (P x). Qed.

Lemma find_none_elem {A} (P : A -> bool) (l : list A) (x : A) :
  List.find P l = None -> x ∈ l -> P x = false.
Proof.
  intros H Hin. apply list_elem_of_In in Hin. exact (find_none P l H x Hin).
Qed.

(** Scanning the keys in insertion order finds the key a scan of the
    assignments finds first. *)
Lemma find_add_keys (P : str -> bool) (ks acc : list str) :
  List.find P (fold_left add_key ks acc) =
  match List.find P acc with Some k => Some k | None => List.find P ks end.
Proof.
  revert acc. induction ks as [|k ks IH]; intros acc; cbn [fold_left List.find].
  - by destruct (List.find P acc).
  - rewrite IH. unfold add_key. case_bool_decide as Hin.
    + destruct (List.find P acc) eqn:E; [done|].
      by rewrite (find_none_elem P acc k E Hin).
    + rewrite find_app. destruct (List.find P acc); [done|]. cbn.
      destruct (P k); [done|]. done.
Qed.

Lemma find_map {A B} (f : A -> B) (P : B -> bool) (l : list A) :
  List.find P (map f l) = f <$> List.find (fun x => P (f x)) l.
Proof. induction l as [|x l IH]; [done|]. cbn. by destruct (P (f x)). Qed.

Lemma dict_get_elem {V} (d : list (str * V)) (k : str) (v : V) :
  NoDup (map fst d) -> (k, v) ∈ d -> dict_get d k = Some v.
Proof.
  unfold dict_get. induction d as [|[k0 v0] d IH]; intros Hnd Hin.
  - by apply not_elem_of_nil in Hin.
  - cbn [map fst] in Hnd. apply NoDup_cons in Hnd as [Hk0 Hnd].
    cbn [List.find fst]. apply elem_of_cons in Hin as [[= <- <-]|Hin].
    + by rewrite bool_decide_eq_true_2.
    + rewrite bool_decide_eq_false_2; [by apply IH|].
      intros ->. apply Hk0. apply list_elem_of_In, in_map_iff. exists (k, v).
      split; [done|]. by apply list_elem_of_In.
Qed.

Lemma manual_pass_find (d : list (str * str)) (kw : str) :
  manual_pass d kw =
  (fun p => (snd p, fst p)) <$>
  List.find (fun p => Py.truthy (fst p) && Re.search_word (fst p) kw) d.
Proof.
  induction d as [|[k v] d IH]; [done|]. cbn [manual_pass List.find fst snd].
  by destruct (Py.truthy k && Re.search_word k kw).
Qed.

Lemma find_ext_Forall {A} (P Q : A -> bool) (l : list A) :
  Forall (fun x => P x = Q x) l -> List.find P l = List.find Q l.
Proof.
  induction 1 as [|x l Hx _ IH]; [done|]. cbn. rewrite Hx, IH. done.
Qed.

(** The manual pass on a filled mapping whose terms are all non-empty:
    the first matching term of the assignments, with the brand assigned
    to it last. *)
Lemma manual_pass_fill (pairs : list (str * str)) (kw : str) :
  Forall (fun p => fst p <> []) pairs ->
  manual_pass (fill pairs []) kw =
  match first_matching_term pairs kw with
  | Some term => (fun brand => (brand, term)) <$> last_brand_of pairs term
  | None => None
  end.
Proof.
  intros Hne.
  assert (Hkeys : map fst (fill pairs []) = fold_left add_key (map fst pairs) [])
    by apply keys_fill.
  assert (Hnd : NoDup (map fst (fill pairs []))).
  { rewrite Hkeys. apply add_keys_NoDup, NoDup_nil_2. }
  assert (Hget : forall k, dict_get (fill pairs []) k = last_brand_of pairs k).
  { intros k. rewrite dict_get_fill. by destruct (last_brand_of pairs k). }
  assert (Htruthy : Forall (fun p => Py.truthy (fst p) && Re.search_word (fst p) kw
                                     = Re.search_word (fst p) kw) (fill pairs [])).
  { apply Forall_forall. intros [k v] Hin.
    assert (Hk : k ∈ map fst (fill pairs [])).
    { apply list_elem_of_In, in_map_iff. exists (k, v). split; [done|].
      by apply list_elem_of_In. }
    rewrite Hkeys in Hk. apply add_keys_elem in Hk as [Hk|Hk];
      [by apply not_elem_of_nil in Hk|].
    apply list_elem_of_In, in_map_iff in Hk as ([k' v'] & <- & Hin').
    rewrite Forall_forall in Hne. specialize (Hne (k', v') (proj2 (list_elem_of_In _ _) Hin')).
    cbn [fst] in *. by destruct k'. }
  assert (Hfind : fst <$> List.find (fun p => Re.search_word (fst p) kw) (fill pairs [])
                  = first_matching_term pairs kw).
  { unfold first_matching_term.
    rewrite <- !(find_map fst (fun k => Re.search_word k kw)).
    rewrite Hkeys, find_add_keys. done. }
  rewrite manual_pass_find, (find_ext_Forall _ _ _ Htruthy).
  destruct (List.find _ (fill pairs [])) as [[k v]|] eqn:E.
  - cbn in Hfind. rewrite <- Hfind. cbn.
    apply find_some in E as [Hin _].
    rewrite <- Hget, (dict_get_elem _ k v Hnd); [done|]. by apply list_elem_of_In.
  - cbn in Hfind. by rewrite <- Hfind.
Qed.

Lemma fill_app (l1 l2 d : list (str * str)) : fill (l1 ++ l2) d = fill l2 (fill l1 d).
Proof. unfold fill. apply fold_left_app. Qed.

Lemma rule_keywords_nonempty (s t : str) : t ∈ rule_keywords s -> t <> [].
Proof.
  unfold rule_keywords. intros Hin.
  apply list_elem_of_In, in_map_iff in Hin as (kw & <- & Hkw).
  apply filter_In in Hkw as [_ Htr]. unfold Py.lower.
  destruct (Py.strip kw); [done|]. done.
Qed.

Lemma first_matching_term_Some (pairs : list (str * str)) (kw term : str) :
  first_matching_term pairs kw = Some term ->
  Re.search_word term kw = true /\
  exists brand, last_brand_of pairs term = Some brand /\ (term, brand) ∈ pairs.
Proof.
  unfold first_matching_term, last_brand_of.
  destruct (List.find _ pairs) as [[t b0]|] eqn:E; [|done]. intros [= <-].
  apply find_some in E as [Hin Hs]. split; [done|].
  assert (Hf : In (t, b0) (List.filter (fun p => bool_decide (fst p = t)) pairs)).
  { apply filter_In. split; [done|]. by apply bool_decide_eq_true_2. }
  destruct (last (List.filter (fun p => bool_decide (fst p = t)) pairs)) as [[t' b]|] eqn:El.
  - exists b. split; [done|].
    apply last_Some in El as (l' & El).
    assert (Hin' : In (t', b) (List.filter (fun p => bool_decide (fst p = t)) pairs)).
    { rewrite El. apply in_app_iff. right. by left. }
    apply filter_In in Hin' as [Hin' Heq]. apply bool_decide_eq_true_1 in Heq.
    cbn in Heq. subst t'. by apply list_elem_of_In.
  - apply last_None in El. rewrite El in Hf. done.
Qed.

Lemma first_matching_term_None (pairs : list (str * str)) (kw : str) :
  first_matching_term pairs kw = None <->
  forall term brand, (term, brand) ∈ pairs -> Re.search_word term kw = false.
Proof.
  unfold first_matching_term. split.
  - destruct (List.find _ pairs) eqn:E; [done|]. intros _ t b Hin.
    exact (find_none_elem _ _ (t, b) E Hin).
  - intros H. destruct (List.find _ pairs) as [[t b]|] eqn:E; [|done].
    apply find_some in E as [Hin Hs]. cbn in Hs.
    rewrite (H t b) in Hs; [done|]. by apply list_elem_of_In.
Qed.

Lemma find_name_Some (brand s : str) (names : list cell) :
  find_name brand names = Some s -> Py.lower s = brand /\ Str s ∈ names.
Proof.
  induction names as [|c names IH]; [done|]. cbn [find_name].
  destruct c as [|q|s0].
  - intros H. destruct (IH H). split; [done|]. by apply list_elem_of_further.
  - intros H. destruct (IH H). split; [done|]. by apply list_elem_of_further.
  - case_bool_decide as Heq.
    + intros [= <-]. split; [done|]. apply list_elem_of_here.
    + intros H. destruct (IH H). split; [done|]. by apply list_elem_of_further.
Qed.

(** The brand list records a name as it is stored, never an empty one. *)
Lemma brand_pass_truthy bdf bl kw original term :
  brand_pass bdf bl kw = Return (Some (original, term)) -> Py.truthy original = true.
Proof.
  intros H. apply brand_pass_Some in H as (_ & Hne & _ & Ho).
  unfold original_brand in Ho. destruct (existsb _ _); [|done].
  destruct (find_name term _) as [s|] eqn:E; [|done]. injection Ho as <-.
  apply find_name_Some in E as [<- _]. unfold Py.lower in Hne. by destruct s.
Qed.

(** With no manual match the result is that of the brand list. *)
Lemma match_keyword_brand_list mm bdf bl kw :
  manual_pass mm kw = None -> match_keyword mm bdf bl kw = brand_pass bdf bl kw.
Proof.
  intros Hm. unfold match_keyword. rewrite Hm.
  destruct (brand_pass bdf bl kw) as [[[ob ot]|]|e] eqn:Hb; [|done..].
  by rewrite (brand_pass_truthy _ _ _ _ _ Hb).
Qed.

(** A manual match with a brand that is not empty is the result,
    whatever the brand table holds. *)
Lemma match_keyword_manual mm bdf bl kw brand term :
  manual_pass mm kw = Some (brand, term) -> brand <> [] ->
  match_keyword mm bdf bl kw = Return (Some (brand, term)).
Proof.
  intros Hm Hne. unfold match_keyword. rewrite Hm.
  destruct brand; [done|]. done.
Qed.

Section ManualMap.

Variable num_repr : Q -> str.

Lemma add_rule_row_fill (d : list (str * str)) (row : gmap string cell) :
  add_rule_row num_repr d row =
  fill (map (fun kw => (kw, astype_str num_repr (Pd.get row col_brand_name)))
            (rule_keywords (astype_str num_repr (Pd.get row col_rule_keywords)))) d.
Proof.
  unfold add_rule_row, fill.
  generalize (rule_keywords (astype_str num_repr (Pd.get row col_rule_keywords))).
  intros l. revert d. induction l as [|kw l IH]; intros d; [done|]. cbn. apply IH.
Qed.

Lemma fold_add_rule_rows (rs : list (gmap string cell)) (d : list (str * str)) :
  fold_left (add_rule_row num_repr) rs d =
  fill (flat_map (fun row =>
                    map (fun kw => (kw, astype_str num_repr (Pd.get row col_brand_name)))
                        (rule_keywords (astype_str num_repr (Pd.get row col_rule_keywords))))
                 rs) d.
Proof.
  revert d. induction rs as [|row rs IH]; intros d; [done|].
  cbn [fold_left flat_map]. rewrite IH, add_rule_row_fill, fill_app. done.
Qed.

Lemma rule_pairs_terms_nonempty (rdf : DataFrame) :
  Forall (fun p => fst p <> []) (rule_pairs num_repr rdf).
Proof.
  apply Forall_forall. intros [t b] Hin.
  apply list_elem_of_In, in_flat_map in Hin as (row & _ & Hin).
  apply in_map_iff in Hin as (kw & [= <- <-] & Hkw).
  cbn. eapply rule_keywords_nonempty. by apply list_elem_of_In.
Qed.

Lemma session_rules_shape (events : list rule_event) :
  columns (session_rules events) = [col_brand_name; col_rule_keywords] /\
  Forall form_row (rows (session_rules events)).
Proof.
  unfold session_rules.
  assert (Hinit : columns initial_rules = [col_brand_name; col_rule_keywords] /\
                  Forall form_row (rows initial_rules)) by (split; [done|constructor]).
  revert Hinit. generalize initial_rules.
  induction events as [|ev events IH]; intros d Hd; [exact Hd|].
  cbn [fold_left]. apply IH. destruct Hd as [Hc Hr].
  destruct ev as [b k|]; cbn [rule_step]; [|split; [done|constructor]].
  unfold add_rule_form. cbn [andb].
  destruct (Py.truthy b) eqn:Hb; [|done]. destruct (Py.truthy k) eqn:Hk; [|done].
  cbn [andb]. split.
  - unfold Pd.concat. cbn [columns fold_left]. rewrite Hc. vm_compute. reflexivity.
  - unfold Pd.concat. cbn [rows map List.concat]. rewrite app_nil_r.
    apply Forall_app. split; [done|]. constructor; [|constructor].
    exists b, k. split_and!.
    + unfold Pd.get. by simplify_map_eq.
    + by destruct b.
    + unfold Pd.get. by simplify_map_eq.
Qed.

Lemma build_manual_map_session (events : list rule_event) :
  build_manual_map num_repr (session_rules events) =
  Return (fill (rule_pairs num_repr (session_rules events)) []).
Proof.
  destruct (session_rules_shape events) as [Hc _].
  unfold build_manual_map, Pd.empty, Pd.has_column. rewrite Hc.
  destruct (rows (session_rules events)) as [|r rs] eqn:Hr.
  - unfold rule_pairs. by rewrite Hr.
  - rewrite !bool_decide_eq_true_2.
    + cbn [andb]. rewrite fold_add_rule_rows. unfold rule_pairs. by rewrite Hr.
    + apply list_elem_of_further, list_elem_of_here.
    + apply list_elem_of_here.
Qed.

Lemma session_brands_nonempty (events : list rule_event) (term brand : str) :
  (term, brand) ∈ rule_pairs num_repr (session_rules events) -> brand <> [].
Proof.
  destruct (session_rules_shape events) as [_ Hrows]. intros Hin.
  apply list_elem_of_In, in_flat_map in Hin as (row & Hrow & Hin).
  apply in_map_iff in Hin as (kw & [= <- <-] & _).
  rewrite Forall_forall in Hrows.
  destruct (Hrows row (proj2 (list_elem_of_In _ _) Hrow)) as (b & k & Hb & Hne & _).
  by rewrite Hb.
Qed.

(** The result for one keyword under the rules of a session. *)
Lemma match_keyword_session (events : list rule_event) (bdf : DataFrame)
    (bl : list str) (kw : str) :
  let pairs := rule_pairs num_repr (session_rules events) in
  match_keyword (fill pairs []) bdf bl kw =
  match first_matching_term pairs kw with
  | Some term =>
      match last_brand_of pairs term with
      | Some brand => Return (Some (brand, term))
      | None => Return None
      end
  | None => brand_pass bdf bl kw
  end.
Proof.
  intros pairs.
  pose proof (manual_pass_fill pairs kw (rule_pairs_terms_nonempty _)) as Hm.
  destruct (first_matching_term pairs kw) as [term|] eqn:Hf.
  - apply first_matching_term_Some in Hf as (_ & brand & Hl & Hin).
    rewrite Hl in *. cbn in Hm.
    apply match_keyword_manual; [done|]. by eapply session_brands_nonempty.
  - by apply match_keyword_brand_list.
Qed.

End ManualMap.

Section C2.

Variable num_repr : Q -> str.

(** C2: under the rules a session can hold, [match_brands] gives each
    keyword the first term, in the order the rule terms were entered, that
    occurs in it as a whole word, together with the brand of the last rule
    that lists this term, and marks the row Branded; the brand list decides
    only when no rule term occurs.  Nothing prefers a longer term.  A rule
    mapping "x" to "A" wins over the brand-list entry "x". *)
Theorem C2_manual_rules_first :
  (forall (events : list rule_event) (h h' : heap) (p b r out : loc)
          (pdf bdf : DataFrame),
     h !! p = Some pdf -> h !! b = Some bdf -> h !! r = Some (session_rules events) ->
     match_brands num_repr (Some p) (Some b) r h = (Return (Some out), h') ->
     exists df,
       h' !! out = Some df /\
       Forall2 (fun row row' =>
                  let kw := Py.lower (astype_str num_repr (Pd.get row col_keyword)) in
                  let pairs := rule_pairs num_repr (session_rules events) in
                  match first_matching_term pairs kw with
                  | Some term =>
                      exists brand,
                        last_brand_of pairs term = Some brand /\
                        Pd.get row' col_brand_name = Str brand /\
                        Pd.get row' col_brand = Str term /\
                        Pd.get row' col_kind = branded
                  | None =>
                      exists found,
                        brand_pass bdf (brand_list num_repr bdf) kw = Return found /\
                        row' = result_row kw found row
                  end)
               (rows pdf) (rows df)) /\
  verdicts (match_brands num_repr (Some 0%nat) (Some 1%nat) 2%nat
              [keyword_table [keyword_row "buy x now" 10];
               brand_table [brand_row "x"];
               session_rules [SubmitRule (Py.lit "A") (Py.lit "x")]])
  = Some [(Str (Py.lit "A"), Str (Py.lit "x"), branded)] /\
  verdicts (match_brands num_repr (Some 0%nat) (Some 1%nat) 2%nat
              [keyword_table [keyword_row "buy x now" 10];
               brand_table [brand_row "x"];
               session_rules []])
  = Some [(Str (Py.lit "x"), Str (Py.lit "x"), branded)] /\
  verdicts (match_brands num_repr (Some 0%nat) (Some 1%nat) 2%nat
              [keyword_table [keyword_row "ace pro max" 10];
               brand_table [brand_row "other"];
               session_rules [SubmitRule (Py.lit "Short") (Py.lit "ace");
                              SubmitRule (Py.lit "Long") (Py.lit "ace pro");
                              SubmitRule (Py.lit "Late") (Py.lit "max, ACE")]])
  = Some [(Str (Py.lit "Late"), Str (Py.lit "ace"), branded)].
Proof.
  split_and!.
  - intros events h h' p b r out pdf bdf Hp Hb Hr Hrun.
    destruct (match_brands_returns num_repr h h' p b r out pdf bdf _ Hp Hb Hr Hrun)
      as (df & Htable & Hout).
    exists df. split; [done|].
    destruct (match_table_rows num_repr pdf bdf _ df Htable) as (mm & Hmm & _ & Hall).
    rewrite build_manual_map_session in Hmm. injection Hmm as <-.
    eapply Forall2_impl; [exact Hall|]. cbn beta zeta.
    intros row row' (found & Hfound & ->).
    fold (brand_list num_repr bdf) in Hfound.
    rewrite match_keyword_session in Hfound. cbn zeta in Hfound.
    destruct (first_matching_term _ _) as [term|] eqn:Hf.
    + apply first_matching_term_Some in Hf as (_ & brand & Hl & _).
      rewrite Hl in Hfound. injection Hfound as <-. exists brand.
      destruct (result_row_cells
                  (Py.lower (astype_str num_repr (Pd.get row col_keyword)))
                  (Some (brand, term)) row) as (_ & _ & Hbn & Hbt & Hk & _).
      done.
    + by exists found.
  - vm_compute. reflexivity.
  - vm_compute. reflexivity.
  - vm_compute. reflexivity.
Qed.

End C2.

(** C2, witness: the session with the single rule "A" for "x". *)
Lemma C2_manual_rules_first_witness :
  let h := [keyword_table [keyword_row "buy x now" 10];
            brand_table [brand_row "x"];
            session_rules [SubmitRule (Py.lit "A") (Py.lit "x")]] in
  let num_repr := fun _ : Q => Py.lit "" in
  let run := match_brands num_repr (Some 0%nat) (Some 1%nat) 2%nat h in
  exists df,
    snd run !! 4%nat = Some df /\
    Forall2 (fun row row' =>
               let kw := Py.lower (astype_str num_repr (Pd.get row col_keyword)) in
               let pairs :=
                 rule_pairs num_repr (session_rules [SubmitRule (Py.lit "A") (Py.lit "x")]) in
               match first_matching_term pairs kw with
               | Some term =>
                   exists brand,
                     last_brand_of pairs term = Some brand /\
                     Pd.get row' col_brand_name = Str brand /\
                     Pd.get row' col_brand = Str term /\
                     Pd.get row' col_kind = branded
               | None =>
                   exists found,
                     brand_pass (brand_table [brand_row "x"])
                       (brand_list num_repr (brand_table [brand_row "x"])) kw = Return found /\
                     row' = result_row kw found row
               end)
            [keyword_row "buy x now" 10] (rows df).
Proof.
  intros h num_repr run.
  apply (proj1 (C2_manual_rules_first num_repr)
           [SubmitRule (Py.lit "A") (Py.lit "x")] h (snd run) 0%nat 1%nat 2%nat 4%nat
           (keyword_table [keyword_row "buy x now" 10]) (brand_table [brand_row "x"])).
  - reflexivity.
  - reflexivity.
  - reflexivity.
  - vm_compute. reflexivity.
Defined.


(** ** [match_brands] and the store *)

Section C9.

Variable num_repr : Q -> str.

(** Every object of the store is as it was after a call, whatever the
    arguments and however the call ends. *)
Lemma match_brands_preserves (product_df brand_df : option loc) (custom_rules_df : loc)
    (h h' : heap) (o : outcome (option loc)) :
  match_brands num_repr product_df brand_df custom_rules_df h = (o, h') ->
  (forall l df, h !! l = Some df -> h' !! l = Some df) /\
  (forall out, o = Return (Some out) -> h !! out = None).
Proof.
  intros Hrun.
  destruct (frames_match_brands num_repr (length h) product_df brand_df custom_rules_df
              h o h' (le_n _) Hrun) as (Htake & Hlen & Ho).
  rewrite firstn_all in Htake. split.
  - intros l df Hl. pose proof (lookup_lt_Some _ _ _ Hl) as Hlt.
    rewrite <- Htake in Hl. rewrite lookup_take_lt in Hl; done.
  - intros out ->. apply lookup_ge_None_2. by apply Ho.
Qed.

(** C9: a call of [match_brands] on three tables of the store leaves
    every table of the store as it was, the three arguments among them;
    the table it returns is a new object; and a second call on the same
    arguments ends the same way with an equal table, the first result
    being untouched. *)
Theorem C9_match_brands_frame (h : heap) (p b r : loc) (pdf bdf rdf : DataFrame) :
  h !! p = Some pdf -> h !! b = Some bdf -> h !! r = Some rdf ->
  let run1 := match_brands num_repr (Some p) (Some b) r h in
  let run2 := match_brands num_repr (Some p) (Some b) r (snd run1) in
  snd run1 !! p = Some pdf /\ snd run1 !! b = Some bdf /\ snd run1 !! r = Some rdf /\
  (forall l df, h !! l = Some df -> snd run1 !! l = Some df) /\
  (forall out, fst run1 = Return (Some out) ->
               h !! out = None /\ out <> p /\ out <> b /\ out <> r /\
               is_Some (snd run1 !! out)) /\
  same_result run1 run2 /\
  (forall l df, snd run1 !! l = Some df -> snd run2 !! l = Some df).
Proof.
  intros Hp Hb Hr run1 run2.
  destruct run1 as [o1 h1] eqn:E1. destruct run2 as [o2 h2] eqn:E2. cbn [fst snd] in *.
  destruct (match_brands_preserves _ _ _ _ _ _ E1) as [Hkeep1 Hfresh1].
  destruct (match_brands_preserves _ _ _ _ _ _ E2) as [Hkeep2 _].
  pose proof (Hkeep1 _ _ Hp) as Hp1. pose proof (Hkeep1 _ _ Hb) as Hb1.
  pose proof (Hkeep1 _ _ Hr) as Hr1.
  pose proof (match_brands_run num_repr h p b r pdf bdf rdf Hp Hb Hr) as R1.
  pose proof (match_brands_run num_repr h1 p b r pdf bdf rdf Hp1 Hb1 Hr1) as R2.
  unfold run1 in E1. unfold run2 in E2. cbn [snd] in E2.
  split_and!; try done.
  - intros out ->. pose proof (Hfresh1 out eq_refl) as Hnone.
    split_and!; try congruence.
    destruct (match_table num_repr pdf bdf rdf) as [[df|]|e].
    + destruct R1 as (tmp & R1). rewrite R1 in E1. injection E1 as <- <-.
      apply lookup_lt_is_Some. rewrite length_app. cbn. lia.
    + rewrite R1 in E1. done.
    + destruct R1 as (news & R1). rewrite R1 in E1. done.
  - unfold same_result. destruct (match_table num_repr pdf bdf rdf) as [[df|]|e].
    + destruct R1 as (tmp1 & R1). destruct R2 as (tmp2 & R2).
      rewrite R1 in E1. rewrite R2 in E2.
      injection E1 as <- <-. injection E2 as <- <-. exists df. split.
      * change (h ++ [tmp1; df]) with (h ++ [tmp1] ++ [df]). rewrite app_assoc.
        rewrite lookup_app_r; rewrite length_app; cbn; [|lia].
        by replace (S (length h) - (length h + 1))%nat with 0%nat by lia.
      * set (h1 := h ++ [tmp1; df]).
        change (h1 ++ [tmp2; df]) with (h1 ++ [tmp2] ++ [df]). rewrite app_assoc.
        rewrite lookup_app_r; rewrite length_app; cbn; [|lia].
        by replace (S (length h1) - (length h1 + 1))%nat with 0%nat by lia.
    + rewrite R1 in E1. rewrite R2 in E2. by injection E1 as <- <-; injection E2 as <- <-.
    + destruct R1 as (n1 & R1). destruct R2 as (n2 & R2).
      rewrite R1 in E1. rewrite R2 in E2.
      by injection E1 as <- <-; injection E2 as <- <-.
Qed.

End C9.

(** C9, witness: the store of the two sample keywords. *)
Lemma C9_match_brands_frame_witness :
  let pdf := keyword_table [keyword_row "space" 100; keyword_row "ace pro" 50] in
  let bdf := brand_table [brand_row "ace"] in
  let h := [pdf; bdf; initial_rules] in
  let num_repr := fun _ : Q => Py.lit "" in
  let run1 := match_brands num_repr (Some 0%nat) (Some 1%nat) 2%nat h in
  let run2 := match_brands num_repr (Some 0%nat) (Some 1%nat) 2%nat (snd run1) in
  snd run1 !! 0%nat = Some pdf /\ snd run1 !! 1%nat = Some bdf /\
  snd run1 !! 2%nat = Some initial_rules /\
  (forall l df, h !! l = Some df -> snd run1 !! l = Some df) /\
  (forall out, fst run1 = Return (Some out) ->
               h !! out = None /\ out <> 0%nat /\ out <> 1%nat /\ out <> 2%nat /\
               is_Some (snd run1 !! out)) /\
  same_result run1 run2 /\
  (forall l df, snd run1 !! l = Some df -> snd run2 !! l = Some df).
Proof.
  intros pdf bdf h num_repr run1 run2.
  apply (C9_match_brands_frame num_repr h 0%nat 1%nat 2%nat pdf bdf initial_rules);
    reflexivity.
Defined.

(** ** Brand-list ingestion *)

Lemma cell_eqb_sym (a b : cell) : Pd.cell_eqb a b = Pd.cell_eqb b a.
Proof.
  destruct a as [|p|s], b as [|q|t]; cbn; try done.
  - destruct (Qeq_bool p q) eqn:E1, (Qeq_bool q p) eqn:E2; try done.
    + apply Qeq_bool_iff in E1. symmetry in E1. apply Qeq_bool_iff in E1. congruence.
    + apply Qeq_bool_iff in E2. symmetry in E2. apply Qeq_bool_iff in E2. congruence.
  - apply bool_decide_ext. split; congruence.
Qed.

Lemma cell_eqb_refl (a : cell) : Pd.cell_eqb a a = true.
Proof.
  destruct a as [|p|s]; cbn; [done| |by apply bool_decide_eq_true_2].
  by apply Qeq_bool_iff.
Qed.

Lemma dedup_rows_spec (c : string) (rs : list (gmap string cell)) (seen : list cell) :
  sublist (Pd.dedup_rows c seen rs) rs /\
  Forall (fun r => existsb (Pd.cell_eqb (Pd.get r c)) seen = false)
         (Pd.dedup_rows c seen rs) /\
  ForallOrdPairs (fun r1 r2 => Pd.cell_eqb (Pd.get r1 c) (Pd.get r2 c) = false)
                 (Pd.dedup_rows c seen rs) /\
  Forall (fun r => existsb (Pd.cell_eqb (Pd.get r c))
                     (seen ++ map (fun r' => Pd.get r' c) (Pd.dedup_rows c seen rs)) = true)
         rs.
Proof.
  revert seen. induction rs as [|r rs IH]; intros seen; cbn [Pd.dedup_rows].
  - split_and!; constructor.
  - destruct (existsb (Pd.cell_eqb (Pd.get r c)) seen) eqn:E.
    + destruct (IH seen) as (Hsub & Hseen & Hpairs & Hall). split_and!; try done.
      * by apply sublist_cons.
      * constructor; [|done]. rewrite existsb_app, E. done.
    + destruct (IH (Pd.get r c :: seen)) as (Hsub & Hseen & Hpairs & Hall). split_and!.
      * by apply sublist_skip.
      * constructor; [done|]. eapply Forall_impl; [exact Hseen|].
        intros r' Hr'. cbn in Hr'. by apply orb_false_iff in Hr' as [_ ?].
      * constructor; [|done]. eapply Forall_impl; [exact Hseen|].
        intros r' Hr'. cbn in Hr'. apply orb_false_iff in Hr' as [Hr' _].
        by rewrite cell_eqb_sym.
      * constructor.
        -- rewrite existsb_app. cbn. rewrite cell_eqb_refl. cbn. by rewrite orb_true_r.
        -- eapply Forall_impl; [exact Hall|]. intros r' Hr'. cbn in Hr'.
           rewrite existsb_app in *. cbn.
           destruct (Pd.cell_eqb (Pd.get r' c) (Pd.get r c)); cbn in *;
             [by rewrite orb_true_r|done].
Qed.

(** C5 (as the code behaves): a brand table that has the name column is
    stored with every null-named row dropped and with names compared as
    they are: no two stored rows have the same name; besides, every stored
    row is a row of the upload, in the upload's order, and every name of
    the upload that is not null is the name of a stored row. *)
Theorem C5_brand_list_ingestion (brand_df : DataFrame) (brand_data : option DataFrame) :
  Pd.has_column brand_df col_brand_name = true ->
  exists stored,
    brand_upload (Some brand_df) brand_data = Some stored /\
    columns stored = columns brand_df /\
    sublist (rows stored) (rows brand_df) /\
    Forall (fun r => Pd.isnull (Pd.get r col_brand_name) = false) (rows stored) /\
    names_distinct Pd.cell_eqb stored /\
    Forall (fun r => Pd.isnull (Pd.get r col_brand_name) = false ->
                     exists r', r' ∈ rows stored /\
                       Pd.cell_eqb (Pd.get r col_brand_name) (Pd.get r' col_brand_name) = true)
           (rows brand_df).
Proof.
  intros Hcol. unfold brand_upload. rewrite Hcol. eexists. split; [reflexivity|].
  cbn [Pd.drop_duplicates Pd.dropna Pd.filter_rows columns rows].
  set (kept := List.filter (fun r => negb (Pd.isnull (Pd.get r col_brand_name)))
                           (rows brand_df)).
  destruct (dedup_rows_spec col_brand_name kept []) as (Hsub & _ & Hpairs & Hall).
  assert (Hkept : sublist kept (rows brand_df)).
  { unfold kept. clear. induction (rows brand_df) as [|r rs IH]; [constructor|].
    cbn. destruct (negb _); [by apply sublist_skip|by apply sublist_cons]. }
  split_and!.
  - done.
  - by etrans.
  - apply Forall_forall. intros r Hr.
    assert (Hin : r ∈ kept) by (eapply elem_of_sublist; eauto).
    apply list_elem_of_In, filter_In in Hin as [_ Hn]. by apply negb_true_iff in Hn.
  - exact Hpairs.
  - apply Forall_forall. intros r Hr Hnull.
    assert (Hin : r ∈ kept).
    { apply list_elem_of_In, filter_In. split; [by apply list_elem_of_In|].
      by rewrite Hnull. }
    rewrite Forall_forall in Hall. specialize (Hall r Hin). cbn [app] in Hall.
    apply existsb_exists in Hall as (c & Hc & Heq).
    apply in_map_iff in Hc as (r' & <- & Hr').
    exists r'. split; [by apply list_elem_of_In|done].
Qed.

(** C5, witness: an upload with a repeated name and a null name. *)
Lemma C5_brand_list_ingestion_witness :
  let brand_df :=
    brand_table [brand_row "Anker"; {[ col_brand_name := Null ]};
                 brand_row "Anker"; brand_row "Belkin"] in
  exists stored,
    brand_upload (Some brand_df) None = Some stored /\
    columns stored = columns brand_df /\
    sublist (rows stored) (rows brand_df) /\
    Forall (fun r => Pd.isnull (Pd.get r col_brand_name) = false) (rows stored) /\
    names_distinct Pd.cell_eqb stored /\
    Forall (fun r => Pd.isnull (Pd.get r col_brand_name) = false ->
                     exists r', r' ∈ rows stored /\
                       Pd.cell_eqb (Pd.get r col_brand_name) (Pd.get r' col_brand_name) = true)
           (rows brand_df).
Proof.
  intros brand_df. apply (C5_brand_list_ingestion brand_df None). reflexivity.
Defined.

(** C5, counterexample to the claim as stated: the names "Anker" and
    "anker" are equal after case folding, and both rows are stored. *)
Lemma C5_case_variants_both_stored :
  exists stored,
    brand_upload (Some (brand_table [brand_row "Anker"; brand_row "anker"])) None
      = Some stored /\
    rows stored = [brand_row "Anker"; brand_row "anker"] /\
    ~ names_distinct cell_eqb_nocase stored.
Proof.
  eexists. split; [reflexivity|]. split; [vm_compute; reflexivity|].
  unfold names_distinct. intros H.
  assert (Hrows : rows (Pd.drop_duplicates
                          (Pd.dropna (brand_table [brand_row "Anker"; brand_row "anker"])
                                     col_brand_name) col_brand_name)
                  = [brand_row "Anker"; brand_row "anker"]) by (vm_compute; reflexivity).
  rewrite Hrows in H. inversion H as [|r l Hfirst _]; subst.
  apply Forall_cons in Hfirst as [Hfirst _]. vm_compute in Hfirst. discriminate Hfirst.
Qed.

(** ** The merge tabs *)

Section Merge.

Variable Blob : Type.
Variable zip_open : Blob -> option (list (str * Blob)).
Variable read_csv : Blob -> option DataFrame.
Variable read_excel : Blob -> option DataFrame.

Abbreviation read_tbl := (read_table Blob read_csv read_excel).
Abbreviation zstep := (zip_step Blob zip_open read_csv read_excel).
Abbreviation fstep := (file_step Blob read_csv read_excel).
Abbreviation zip_tab := (zip_merge_tab Blob zip_open read_csv read_excel).
Abbreviation file_tab := (file_merge_tab Blob read_csv read_excel).
Abbreviation ztable := (zip_table Blob zip_open read_csv read_excel).
Abbreviation ftable := (file_table Blob read_csv read_excel).
Abbreviation unparsable := (zip_unparsable Blob zip_open read_csv read_excel).

Lemma zip_step_table (all_data : list DataFrame) (error_files : list str)
    (zip_file : upload Blob) :
  zstep (all_data, error_files) zip_file =
  match ztable zip_file with
  | Some df => (all_data ++ [df], error_files)
  | None => (all_data, error_files ++ [name zip_file])
  end.
Proof.
  unfold zip_step, zip_table.
  destruct (zip_open (content zip_file)) as [z|]; [|done]. cbn.
  destruct (List.filter _ z) as [|[file_name f] rest]; [done|]. cbn.
  by destruct (read_tbl file_name f).
Qed.

Lemma file_step_table (all_data : list DataFrame) (error_files : list str)
    (file : upload Blob) :
  fstep (all_data, error_files) file =
  match ftable file with
  | Some df => (all_data ++ [df], error_files)
  | None => (all_data, error_files ++ [name file])
  end.
Proof.
  unfold file_step, file_table.
  destruct (read_tbl (name file) (content file)) as [df|]; [|done]. cbn.
  by destruct (Pd.insert_first df col_time _).
Qed.

Lemma zip_table_None (zip_file : upload Blob) :
  ztable zip_file = None <-> unparsable zip_file.
Proof.
  unfold zip_table, zip_unparsable.
  destruct (zip_open (content zip_file)) as [z|]; cbn; [|by split; [left|]].
  destruct (List.filter (fun f => is_tabular (fst f)) z) as [|[file_name f] rest] eqn:E; cbn.
  - split; [|done]. intros _. right. left. exists z. split; [done|].
    apply Forall_forall. intros e He.
    destruct (is_tabular (fst e)) eqn:Ht; [|done].
    assert (Hin : In e (List.filter (fun f => is_tabular (fst f)) z))
      by (apply filter_In; split; [by apply list_elem_of_In|done]).
    rewrite E in Hin. done.
  - destruct (read_tbl file_name f) as [df|] eqn:Hr; cbn.
    + split; [done|]. intros [H|[(z' & [= <-] & Hall)|(z' & fn & f' & rest' & [= <-] & Hf & Hn)]].
      * done.
      * assert (Hin : In (file_name, f) (List.filter (fun f => is_tabular (fst f)) z))
          by (rewrite E; by left).
        apply filter_In in Hin as [Hin Ht]. rewrite Forall_forall in Hall.
        rewrite (Hall _ (proj2 (list_elem_of_In _ _) Hin)) in Ht. done.
      * rewrite E in Hf. injection Hf as <- <- <-. congruence.
    + split; [|done]. intros _. right. right. by exists z, file_name, f, rest.
Qed.

(** The loop of either tab, for a step that adds the table of a file or
    records its name. *)
Lemma merge_loop (table : upload Blob -> option DataFrame)
    (step : list DataFrame * list str -> upload Blob -> list DataFrame * list str) :
  (forall all_data error_files f,
     step (all_data, error_files) f =
     match table f with
     | Some df => (all_data ++ [df], error_files)
     | None => (all_data, error_files ++ [name f])
     end) ->
  forall uploaded all_data error_files,
    fold_left step uploaded (all_data, error_files) =
    (all_data ++ omap table uploaded,
     error_files ++ map name (List.filter (fun f => is_none (table f)) uploaded)).
Proof.
  intros Hstep uploaded. induction uploaded as [|f uploaded IH]; intros all_data error_files.
  - cbn. by rewrite !app_nil_r.
  - cbn [fold_left]. rewrite Hstep. cbn [omap list_omap List.filter].
    destruct (table f) as [df|]; cbn [is_none]; rewrite IH.
    + by rewrite <- app_assoc.
    + cbn [map]. by rewrite <- app_assoc.
Qed.

(** What a tab shows for a non-empty upload, from the tables of the files. *)
Lemma merge_tab_view (table : upload Blob -> option DataFrame)
    (step : list DataFrame * list str -> upload Blob -> list DataFrame * list str)
    (f : upload Blob) (uploaded : list (upload Blob)) :
  (forall all_data error_files f,
     step (all_data, error_files) f =
     match table f with
     | Some df => (all_data ++ [df], error_files)
     | None => (all_data, error_files ++ [name f])
     end) ->
  merge_tab Blob step (f :: uploaded) =
  {| result := match omap table (f :: uploaded) with
               | [] => EmptyWarning
               | tables => Merged (Pd.concat tables) (length tables)
               end;
     failed := map name (List.filter (fun f => is_none (table f)) (f :: uploaded));
     failure_shown :=
       match List.filter (fun f => is_none (table f)) (f :: uploaded) with
       | [] => false | _ => true
       end |}.
Proof.
  intros Hstep. unfold merge_tab. rewrite (merge_loop table step Hstep). cbn [app].
  f_equal.
  - by destruct (omap table (f :: uploaded)).
  - by destruct (List.filter _ (f :: uploaded)).
Qed.


(** C10: for a table that already has a column named "时间", the ZIP
    tab keeps the archive: its table is merged with that column holding
    the archive's base name in every row, the other cells and the column
    list unchanged; the file tab rejects the file: its name goes to the
    failed list and no row of it reaches the merge. *)
Theorem C10_provenance_column_clash
    (zf pf : upload Blob) (z : list (str * Blob)) (file_name : str) (entry : Blob)
    (rest : list (str * Blob)) (df : DataFrame) :
  zip_open (content zf) = Some z ->
  List.filter (fun f => is_tabular (fst f)) z = (file_name, entry) :: rest ->
  read_tbl file_name entry = Some df ->
  read_tbl (name pf) (content pf) = Some df ->
  Pd.has_column df col_time = true ->
  let labelled :=
    {| columns := columns df;
       rows := map (fun r => <[col_time := Str (base_name (name zf))]> r) (rows df) |} in
  ztable zf = Some labelled /\
  zip_tab [zf] =
    {| result := Merged (Pd.concat [labelled]) 1; failed := []; failure_shown := false |} /\
  (forall files : list (upload Blob), zf ∈ files -> labelled ∈ omap ztable files) /\
  ftable pf = None /\
  file_tab [pf] =
    {| result := EmptyWarning; failed := [name pf]; failure_shown := true |} /\
  (forall files : list (upload Blob), pf ∈ files ->
     name pf ∈ map name (List.filter (fun f => is_none (ftable f)) files)).
Proof.
  intros Hopen Hfilter Hzip Hfile Hcol labelled.
  assert (Hzt : ztable zf = Some labelled).
  { unfold zip_table. rewrite Hopen. cbn. rewrite Hfilter. cbn. rewrite Hzip. cbn.
    unfold Pd.setitem_scalar. by rewrite Hcol. }
  assert (Hft : ftable pf = None).
  { unfold file_table. rewrite Hfile. cbn. unfold Pd.insert_first. by rewrite Hcol. }
  split_and!.
  - exact Hzt.
  - unfold zip_merge_tab.
    rewrite (merge_tab_view ztable zstep zf [] zip_step_table).
    cbn [omap list_omap List.filter]. rewrite Hzt. done.
  - intros files Hin. apply list_elem_of_omap. by exists zf.
  - exact Hft.
  - unfold file_merge_tab.
    rewrite (merge_tab_view ftable fstep pf [] file_step_table).
    cbn [omap list_omap List.filter]. rewrite Hft. done.
  - intros files Hin. apply list_elem_of_In, in_map, filter_In.
    split; [by apply list_elem_of_In|]. by rewrite Hft.
Qed.

End Merge.

(** C10, witness: the table [dated_table] inside "2024-01.zip" and as
    "2024-01.csv". *)
Lemma C10_provenance_column_clash_witness :
  let zf := mkUpload (Py.lit "2024-01.zip")
                     (Archive [(Py.lit "readme.txt", Corrupt);
                               (Py.lit "Data.CSV", Sheet dated_table)]) in
  let pf := mkUpload (Py.lit "2024-01.csv") (Sheet dated_table) in
  let labelled :=
    {| columns := columns dated_table;
       rows := map (fun r => <[col_time := Str (base_name (name zf))]> r)
                   (rows dated_table) |} in
  zip_table sample_blob sample_zip_open sample_read sample_read zf = Some labelled /\
  zip_merge_tab sample_blob sample_zip_open sample_read sample_read [zf] =
    {| result := Merged (Pd.concat [labelled]) 1; failed := []; failure_shown := false |} /\
  (forall files : list (upload sample_blob), zf ∈ files ->
     labelled ∈ omap (zip_table sample_blob sample_zip_open sample_read sample_read) files) /\
  file_table sample_blob sample_read sample_read pf = None /\
  file_merge_tab sample_blob sample_read sample_read [pf] =
    {| result := EmptyWarning; failed := [name pf]; failure_shown := true |} /\
  (forall files : list (upload sample_blob), pf ∈ files ->
     name pf ∈ map name
       (List.filter (fun f => is_none (file_table sample_blob sample_read sample_read f))
                    files)).
Proof.
  intros zf pf labelled.
  apply (C10_provenance_column_clash sample_blob sample_zip_open sample_read sample_read
           zf pf
           [(Py.lit "readme.txt", Corrupt); (Py.lit "Data.CSV", Sheet dated_table)]
           (Py.lit "Data.CSV") (Sheet dated_table) [] dated_table);
    reflexivity.
Defined.


(** ** Rounding to float64 *)

Section Float64Facts.

Local Open Scope Q_scope.

Lemma rne_bounds (q : Q) :
  inject_Z (Float64.rne q) - (1 # 2) <= q /\ q <= inject_Z (Float64.rne q) + (1 # 2).
Proof.
  unfold Float64.rne.
  pose proof (Qfloor_le q) as Hlo. pose proof (Qlt_floor q) as Hhi.
  rewrite inject_Z_plus in Hhi. change (inject_Z 1) with 1 in Hhi.
  destruct (q - inject_Z (Qfloor q) ?= 1 # 2)%Q eqn:E.
  - apply Qeq_alt in E. destruct (Z.even (Qfloor q)).
    + split; lra.
    + rewrite inject_Z_plus. change (inject_Z 1) with 1. split; lra.
  - apply Qlt_alt in E. split; lra.
  - apply Qgt_alt in E. rewrite inject_Z_plus. change (inject_Z 1) with 1. split; lra.
Qed.

#[global] Instance rne_comp : Proper (Qeq ==> eq) Float64.rne.
Proof.
  intros p q Hpq. unfold Float64.rne. rewrite (Qfloor_comp p q Hpq).
  assert (H : p - inject_Z (Qfloor q) == q - inject_Z (Qfloor q)) by (rewrite Hpq; reflexivity).
  rewrite (Qcompare_comp _ _ H (1 # 2) (1 # 2) (Qeq_refl _)). reflexivity.
Qed.

Lemma rne_mono (p q : Q) : p <= q -> (Float64.rne p <= Float64.rne q)%Z.
Proof.
  intros Hpq.
  destruct (Z_le_gt_dec (Float64.rne p) (Float64.rne q)) as [H|H]; [exact H|].
  exfalso.
  destruct (rne_bounds p) as [Hp _]. destruct (rne_bounds q) as [_ Hq].
  assert (H1 : (Float64.rne q + 1 <= Float64.rne p)%Z) by lia.
  rewrite Zle_Qle in H1. rewrite inject_Z_plus in H1. change (inject_Z 1) with 1 in H1.
  assert (Heq : p == q) by (apply Qle_antisym; lra).
  rewrite (rne_comp p q Heq) in H. lia.
Qed.

Lemma rne_inject_Z (z : Z) : Float64.rne (inject_Z z) = z.
Proof.
  unfold Float64.rne. rewrite Qfloor_Z.
  assert (H : (inject_Z z - inject_Z z ?= 1 # 2)%Q = Lt).
  { apply Qlt_alt. setoid_replace (inject_Z z - inject_Z z) with 0 using relation Qeq by ring. reflexivity. }
  rewrite H. reflexivity.
Qed.

Lemma pow2_pos (e : Z) : 0 < 2 ^ e.
Proof. apply Qpower_0_lt. reflexivity. Qed.

Lemma pow2_succ (e : Z) : 2 ^ (e + 1) == 2 * 2 ^ e.
Proof. rewrite Qpower_plus by discriminate. change (2 ^ 1) with 2. ring. Qed.

Lemma pow2_mono (a b : Z) : (a <= b)%Z -> 2 ^ a <= 2 ^ b.
Proof. intros H. apply Qpower_le_compat_l; [exact H|]. discriminate. Qed.

Lemma pow2_lt_inv (a b : Z) : 2 ^ a < 2 ^ b -> (a < b)%Z.
Proof. intros H. apply (Qpower_lt_compat_l_inv 2); [exact H|reflexivity]. Qed.

Lemma pow2_inject (n : Z) : (0 <= n)%Z -> inject_Z (2 ^ n) == 2 ^ n.
Proof. intros H. rewrite Zpower_Qpower by exact H. reflexivity. Qed.

(** The exponent brackets the number. *)
Lemma ilog2_spec (q : Q) :
  0 < q -> 2 ^ Float64.ilog2 q <= q /\ q < 2 ^ (Float64.ilog2 q + 1).
Proof.
  intros Hq. unfold Float64.ilog2.
  set (a := Z.log2 (Qnum q)). set (b := Z.log2 (Zpos (Qden q))).
  assert (Hn : (0 < Qnum q)%Z).
  { unfold Qlt in Hq. cbn in Hq. lia. }
  destruct (Z.log2_spec (Qnum q) Hn) as [Ha1 Ha2]. fold a in Ha1, Ha2.
  destruct (Z.log2_spec (Zpos (Qden q)) (Pos2Z.is_pos _)) as [Hb1 Hb2]. fold b in Hb1, Hb2.
  assert (Ha0 : (0 <= a)%Z) by apply Z.log2_nonneg.
  assert (Hb0 : (0 <= b)%Z) by apply Z.log2_nonneg.
  assert (Hd : 0 < inject_Z (Zpos (Qden q))) by reflexivity.
  assert (Hnum1 : 2 ^ a <= inject_Z (Qnum q)).
  { rewrite <- pow2_inject by exact Ha0. rewrite <- Zle_Qle. exact Ha1. }
  assert (Hnum2 : inject_Z (Qnum q) < 2 ^ (a + 1)).
  { rewrite <- pow2_inject by lia. rewrite <- Zlt_Qlt. replace (a + 1)%Z with (Z.succ a) by lia. exact Ha2. }
  assert (Hden1 : 2 ^ b <= inject_Z (Zpos (Qden q))).
  { rewrite <- pow2_inject by exact Hb0. rewrite <- Zle_Qle. exact Hb1. }
  assert (Hden2 : inject_Z (Zpos (Qden q)) < 2 ^ (b + 1)).
  { rewrite <- pow2_inject by lia. rewrite <- Zlt_Qlt. replace (b + 1)%Z with (Z.succ b) by lia. exact Hb2. }
  (* q * d = n *)
  assert (Hqd : q * inject_Z (Zpos (Qden q)) == inject_Z (Qnum q)).
  { unfold Qeq. cbn. rewrite Pos.mul_1_r. ring. }
  assert (Hlow : 2 ^ (a - b - 1) < q).
  { apply Qmult_lt_r with (z := inject_Z (Zpos (Qden q))); [exact Hd|]. rewrite Hqd.
    apply Qlt_le_trans with (2 ^ (a - b - 1) * 2 ^ (b + 1)).
    - apply Qmult_lt_l; [apply pow2_pos|exact Hden2].
    - rewrite <- Qpower_plus by discriminate. replace (a - b - 1 + (b + 1))%Z with a by lia.
      exact Hnum1. }
  assert (Hhigh : q < 2 ^ (a - b + 1)).
  { apply Qmult_lt_r with (z := inject_Z (Zpos (Qden q))); [exact Hd|]. rewrite Hqd.
    apply Qlt_le_trans with (2 ^ (a + 1)); [exact Hnum2|].
    replace (a + 1)%Z with (a - b + 1 + b)%Z by lia. rewrite Qpower_plus by discriminate.
    apply Qmult_le_l; [apply pow2_pos|exact Hden1]. }
  destruct (Qle_bool (2 ^ (a - b)) q) eqn:E.
  - apply Qle_bool_iff in E. split; [exact E|exact Hhigh].
  - assert (Hlt : q < 2 ^ (a - b)).
    { apply Qnot_le_lt. intros H. apply Qle_bool_iff in H. congruence. }
    replace (a - b - 1 + 1)%Z with (a - b)%Z by lia. split; [apply Qlt_le_weak; exact Hlow|exact Hlt].
Qed.

Lemma ilog2_unique (q : Q) (e : Z) :
  2 ^ e <= q -> q < 2 ^ (e + 1) -> Float64.ilog2 q = e.
Proof.
  intros H1 H2.
  assert (Hq : 0 < q) by (eapply Qlt_le_trans; [apply (pow2_pos e)|exact H1]).
  destruct (ilog2_spec q Hq) as [H3 H4].
  assert (Ha : (e < Float64.ilog2 q + 1)%Z).
  { apply pow2_lt_inv. eapply Qle_lt_trans; [exact H1|exact H4]. }
  assert (Hb : (Float64.ilog2 q < e + 1)%Z).
  { apply pow2_lt_inv. eapply Qle_lt_trans; [exact H3|exact H2]. }
  lia.
Qed.

Lemma ilog2_comp (p q : Q) : 0 < p -> p == q -> Float64.ilog2 p = Float64.ilog2 q.
Proof.
  intros Hp Hpq. symmetry. destruct (ilog2_spec p Hp) as [H1 H2].
  apply ilog2_unique; rewrite <- Hpq; assumption.
Qed.

Lemma ilog2_mono (p q : Q) : 0 < p -> p <= q -> (Float64.ilog2 p <= Float64.ilog2 q)%Z.
Proof.
  intros Hp Hpq. assert (Hq : 0 < q) by (eapply Qlt_le_trans; eassumption).
  destruct (ilog2_spec p Hp) as [H1 _]. destruct (ilog2_spec q Hq) as [_ H2].
  assert (H : (Float64.ilog2 p < Float64.ilog2 q + 1)%Z).
  { apply pow2_lt_inv. eapply Qle_lt_trans; [exact H1|].
    eapply Qle_lt_trans; [exact Hpq|exact H2]. }
  lia.
Qed.

Lemma pow2_split (a b : Z) : 2 ^ a == 2 ^ (a - b) * 2 ^ b.
Proof. rewrite <- Qpower_plus by discriminate. replace (a - b + b)%Z with a by lia. reflexivity. Qed.

Lemma div_pow2 (q : Q) (e : Z) : q / 2 ^ e * 2 ^ e == q.
Proof. field. intros H. pose proof (pow2_pos e) as Hp. rewrite H in Hp. discriminate. Qed.

Lemma div_pow2_le (p q : Q) (e : Z) : p <= q -> p / 2 ^ e <= q / 2 ^ e.
Proof.
  intros H. unfold Qdiv. apply Qmult_le_compat_r; [exact H|].
  apply Qinv_le_0_compat, Qlt_le_weak, pow2_pos.
Qed.

Lemma div_pow2_lt (p q : Q) (e : Z) : p < q -> p / 2 ^ e < q / 2 ^ e.
Proof.
  intros H. unfold Qdiv. apply Qmult_lt_compat_r; [|exact H].
  apply Qinv_lt_0_compat, pow2_pos.
Qed.

Lemma pow2_div (a b c : Z) : (a - b = c)%Z -> 2 ^ a / 2 ^ b == 2 ^ c.
Proof.
  intros <-. rewrite (pow2_split a b). field.
  intros H. pose proof (pow2_pos b) as Hp. rewrite H in Hp. discriminate.
Qed.

Lemma pow2_mul (a b c : Z) : (a + b = c)%Z -> 2 ^ a * 2 ^ b == 2 ^ c.
Proof. intros <-. rewrite Qpower_plus by discriminate. reflexivity. Qed.

Lemma round_pos_comp (p q : Q) : 0 < p -> p == q -> Float64.round_pos p == Float64.round_pos q.
Proof.
  intros Hp Hpq. unfold Float64.round_pos. rewrite (ilog2_comp p q Hp Hpq).
  set (e := Z.max (Float64.ilog2 q) (-1022)).
  assert (H : p / 2 ^ (e - 52) == q / 2 ^ (e - 52)) by (rewrite Hpq; reflexivity).
  rewrite (rne_comp _ _ H). reflexivity.
Qed.

(** A rounded number stays in the binade of the number. *)
Lemma round_pos_bounds (q : Q) :
  0 < q ->
  let e := Z.max (Float64.ilog2 q) (-1022) in
  Float64.round_pos q <= 2 ^ (e + 1) /\
  (Float64.ilog2 q = e -> 2 ^ e <= Float64.round_pos q).
Proof.
  intros Hq e. destruct (ilog2_spec q Hq) as [H1 H2]. unfold Float64.round_pos. fold e.
  assert (Hu : 0 < 2 ^ (e - 52)) by apply pow2_pos.
  split.
  - assert (Hle : q / 2 ^ (e - 52) <= inject_Z (2 ^ 53)).
    { rewrite pow2_inject by lia. rewrite <- (pow2_div (e + 1) (e - 52) 53) by lia.
      apply div_pow2_le. apply Qlt_le_weak. eapply Qlt_le_trans; [exact H2|].
      apply pow2_mono. lia. }
    apply rne_mono in Hle. rewrite rne_inject_Z in Hle.
    rewrite Zle_Qle in Hle. rewrite pow2_inject in Hle by lia.
    rewrite <- (pow2_mul 53 (e - 52) (e + 1)) by lia.
    apply Qmult_le_compat_r; [exact Hle|apply Qlt_le_weak, Hu].
  - intros He.
    assert (Hle : inject_Z (2 ^ 52) <= q / 2 ^ (e - 52)).
    { rewrite pow2_inject by lia. rewrite <- (pow2_div e (e - 52) 52) by lia.
      apply div_pow2_le. rewrite <- He. exact H1. }
    apply rne_mono in Hle. rewrite rne_inject_Z in Hle.
    rewrite Zle_Qle in Hle. rewrite pow2_inject in Hle by lia.
    rewrite <- (pow2_mul 52 (e - 52) e) at 1 by lia.
    apply Qmult_le_compat_r; [exact Hle|apply Qlt_le_weak, Hu].
Qed.

(** Rounding never reverses the order of two numbers. *)
Lemma round_pos_mono (p q : Q) :
  0 < p -> p <= q -> Float64.round_pos p <= Float64.round_pos q.
Proof.
  intros Hp Hpq. assert (Hq : 0 < q) by (eapply Qlt_le_trans; eassumption).
  pose proof (ilog2_mono p q Hp Hpq) as Hlog.
  destruct (Z.eq_dec (Z.max (Float64.ilog2 p) (-1022)) (Z.max (Float64.ilog2 q) (-1022)))
    as [Heq|Hne].
  - unfold Float64.round_pos. rewrite Heq.
    set (e := Z.max (Float64.ilog2 q) (-1022)).
    apply Qmult_le_compat_r; [|apply Qlt_le_weak, pow2_pos].
    rewrite <- Zle_Qle. apply rne_mono. apply div_pow2_le. exact Hpq.
  - destruct (round_pos_bounds p Hp) as [Hup _].
    destruct (round_pos_bounds q Hq) as [_ Hlow].
    cbv zeta in Hup, Hlow.
    assert (Heq : Float64.ilog2 q = Z.max (Float64.ilog2 q) (-1022)) by lia.
    specialize (Hlow Heq).
    eapply Qle_trans; [exact Hup|]. eapply Qle_trans; [|exact Hlow].
    apply pow2_mono. lia.
Qed.

Lemma pow2_neq_0 (e : Z) : ~ 2 ^ e == 0.
Proof. intros H. pose proof (pow2_pos e) as Hp. rewrite H in Hp. discriminate. Qed.

(** A whole number below 2^53 is a float64. *)
Lemma round_pos_whole (z : Z) :
  (0 < z < 2 ^ 53)%Z -> Float64.round_pos (inject_Z z) == inject_Z z.
Proof.
  intros [Hz1 Hz2].
  assert (He : Float64.ilog2 (inject_Z z) = Z.log2 z).
  { destruct (Z.log2_spec z Hz1) as [Ha Hb]. apply ilog2_unique.
    - rewrite <- pow2_inject by apply Z.log2_nonneg. rewrite <- Zle_Qle. exact Ha.
    - rewrite <- pow2_inject by (pose proof (Z.log2_nonneg z); lia).
      rewrite <- Zlt_Qlt. replace (Z.log2 z + 1)%Z with (Z.succ (Z.log2 z)) by lia. exact Hb. }
  assert (Hlog : (0 <= Z.log2 z < 53)%Z).
  { split; [apply Z.log2_nonneg|]. apply Z.log2_lt_pow2; lia. }
  unfold Float64.round_pos. rewrite He.
  replace (Z.max (Z.log2 z) (-1022)) with (Z.log2 z) by lia.
  set (e := Z.log2 z) in *.
  assert (Hs : inject_Z z / 2 ^ (e - 52) == inject_Z (z * 2 ^ (52 - e))).
  { apply (Qmult_inj_r _ _ (2 ^ (e - 52))); [apply pow2_neq_0|].
    rewrite div_pow2, inject_Z_mult, pow2_inject by lia.
    rewrite <- Qmult_assoc, (pow2_mul (52 - e) (e - 52) 0) by lia.
    change (2 ^ 0) with 1. ring. }
  rewrite (rne_comp _ _ Hs), rne_inject_Z, <- Hs. apply div_pow2.
Qed.

Lemma round_pos_eq (q : Q) : 0 < q -> Float64.round q = Float64.round_pos q.
Proof.
  intros Hq. unfold Float64.round. destruct q as [[|n|n] d]; [discriminate Hq|reflexivity|discriminate Hq].
Qed.

(** What the program's quotients need: on positive numbers rounding keeps
    the order, keeps whole numbers below 2^53, and depends on the value
    only. *)
Lemma round_mono (p q : Q) : 0 < p -> p <= q -> Float64.round p <= Float64.round q.
Proof.
  intros Hp Hpq. assert (Hq : 0 < q) by (eapply Qlt_le_trans; eassumption).
  rewrite !round_pos_eq by assumption. by apply round_pos_mono.
Qed.

Lemma round_comp (p q : Q) : 0 < p -> p == q -> Float64.round p == Float64.round q.
Proof.
  intros Hp Hpq. assert (Hq : 0 < q) by (rewrite <- Hpq; exact Hp).
  rewrite !round_pos_eq by assumption. by apply round_pos_comp.
Qed.

Lemma round_whole (z : Z) : (0 < z < 2 ^ 53)%Z -> Float64.round (inject_Z z) == inject_Z z.
Proof.
  intros Hz. rewrite round_pos_eq; [by apply round_pos_whole|].
  change 0 with (inject_Z 0). rewrite <- Zlt_Qlt. lia.
Qed.

Lemma round_1 : Float64.round 1 == 1.
Proof. vm_compute. reflexivity. Qed.

(** The quotient of two whole numbers below 2^53 is the rounded exact
    quotient. *)
Lemma div_whole (a b : Z) :
  (0 < a < 2 ^ 53)%Z -> (0 < b < 2 ^ 53)%Z ->
  Float64.div (inject_Z a) (inject_Z b) == Float64.round (inject_Z a / inject_Z b).
Proof.
  intros Ha Hb. unfold Float64.div. apply round_comp.
  - rewrite (round_whole a Ha), (round_whole b Hb).
    apply Qlt_shift_div_l; change 0 with (inject_Z 0); [rewrite <- Zlt_Qlt; lia|].
    rewrite Qmult_0_l. change 0 with (inject_Z 0). rewrite <- Zlt_Qlt. lia.
  - rewrite (round_whole a Ha), (round_whole b Hb). reflexivity.
Qed.

Lemma round_le_1 (q : Q) : 0 < q -> q <= 1 -> Float64.round q <= 1.
Proof. intros Hq Hle. rewrite <- round_1. by apply round_mono. Qed.

(** A positive number that is not tiny rounds to a positive number. *)
Lemma round_pos_positive (q : Q) : 1 # 9007199254740992 <= q -> 0 < Float64.round q.
Proof.
  intros Hq.
  apply Qlt_le_trans with (Float64.round (1 # 9007199254740992)); [by vm_compute|].
  by apply round_mono.
Qed.

End Float64Facts.

(** The definition gives the float64 values Python prints for 0.1, 0.6
    and 1/3, rounds 2^53 + 1 down to the even neighbour and 2^53 + 3 up. *)
Lemma round_samples :
  Qred (Float64.round (1 # 10)) = (3602879701896397 # 36028797018963968)%Q /\
  Qred (Float64.round (6 # 10)) = (5404319552844595 # 9007199254740992)%Q /\
  Qred (Float64.div 1 3) = (6004799503160661 # 18014398509481984)%Q /\
  Qred (Float64.round 9007199254740993) = 9007199254740992%Q /\
  Qred (Float64.round 9007199254740995) = 9007199254740996%Q /\
  Qred (Float64.round (- (1 # 10))) = (-3602879701896397 # 36028797018963968)%Q.
Proof. vm_compute. done. Qed.

(** ** Ranking *)

Lemma zip_with_map_r {A B C} (f : A -> B -> C) (g : A -> B) (l : list A) :
  zip_with f l (map g l) = map (fun x => f x (g x)) l.
Proof. induction l as [|x l IH]; [done|]. cbn. by rewrite IH. Qed.

Lemma omap_map {A B C} (f : B -> option C) (g : A -> B) (l : list A) :
  omap f (map g l) = omap (fun x => f (g x)) l.
Proof. induction l as [|x l IH]; [done|]. cbn. by rewrite IH. Qed.

Lemma omap_lookup_seq {A} (l : list A) : omap (fun i => l !! i) (seq 0 (length l)) = l.
Proof.
  induction l as [|x l IH]; [done|].
  cbn [length seq]. cbn [omap list_omap lookup list_lookup].
  rewrite <- seq_shift, omap_map. f_equal. exact IH.
Qed.

(** Taking the rows at the positions of a permutation permutes the rows. *)
Lemma take_rows_Permutation {A} (l : list A) (idx : list nat) :
  Permutation idx (seq 0 (length l)) -> Permutation (omap (fun i => l !! i) idx) l.
Proof.
  intros H. etrans; [apply (omap_Permutation _ _ _ H)|]. by rewrite omap_lookup_seq.
Qed.

Lemma take_rows_sorted {A} (key : A -> Q) (l : list A) (idx : list nat) :
  Forall (fun i => (i < length l)%nat) idx ->
  StronglySorted (fun i j => (nth j (map key l) 0 <= nth i (map key l) 0)%Q) idx ->
  StronglySorted (fun a b => (key b <= key a)%Q) (omap (fun i => l !! i) idx).
Proof.
  intros Hlt Hs. induction Hs as [|i idx Hs IH Hi]; [constructor|].
  apply Forall_cons in Hlt as [Hil Hlt]. specialize (IH Hlt).
  cbn [omap list_omap]. destruct (l !! i) as [a|] eqn:Ea; [|exact IH].
  constructor; [exact IH|].
  apply Forall_forall. intros b Hb.
  apply list_elem_of_omap in Hb as (j & Hj & Eb).
  rewrite Forall_forall in Hi. specialize (Hi j Hj). cbn beta in Hi.
  assert (Hn : forall k x, l !! k = Some x -> nth k (map key l) 0%Q = key x).
  { intros k x Hk. rewrite (nth_indep _ 0%Q (key x)).
    - rewrite map_nth. f_equal. by apply nth_lookup_Some.
    - rewrite length_map. by eapply lookup_lt_Some. }
  by rewrite (Hn i a Ea), (Hn j b Eb) in Hi.
Qed.

Section Ranking.

Variable parse_number : str -> option Q.
Variable argsort_desc : list Q -> list nat.

Abbreviation to_num := (to_numeric parse_number).

Lemma get_insert_eq (r : gmap string cell) (c : string) (v : cell) :
  Pd.get (<[c := v]> r) c = v.
Proof. unfold Pd.get. by rewrite lookup_insert_eq. Qed.

Lemma get_insert_ne (r : gmap string cell) (c c' : string) (v : cell) :
  c <> c' -> Pd.get (<[c := v]> r) c' = Pd.get r c'.
Proof. intros H. unfold Pd.get. by rewrite lookup_insert_ne. Qed.

Lemma rows_cleaned (df : DataFrame) : rows (cleaned parse_number df) = surviving parse_number df.
Proof.
  unfold cleaned, surviving, Pd.dropna, Pd.filter_rows, Pd.setitem, Pd.col. cbn [rows].
  rewrite map_map, zip_with_map_r.
  induction (rows df) as [|r rs IH]; [done|].
  cbn [map List.filter omap list_omap]. rewrite get_insert_eq.
  destruct (to_num (Pd.get r col_volume)) as [|q|s]; cbn [Pd.isnull negb List.filter];
    [exact IH| |rewrite get_insert_eq; exact IH].
  rewrite get_insert_eq. cbn [is_positive].
  destruct (negb (Qle_bool q 0)); [|exact IH].
  f_equal. exact IH.
Qed.

Lemma columns_cleaned (df : DataFrame) :
  Pd.has_column df col_volume = true -> columns (cleaned parse_number df) = columns df.
Proof. intros H. unfold cleaned. cbn. by rewrite H. Qed.

(** Every surviving row holds a positive number as its volume. *)
Lemma surviving_positive (df : DataFrame) :
  Forall (fun r => Pd.get r col_volume = Num (volume r) /\ (0 < volume r)%Q) (surviving parse_number df).
Proof.
  apply Forall_forall. intros r' Hr'. unfold surviving in Hr'.
  apply list_elem_of_omap in Hr' as (r & _ & Hr).
  destruct (to_num (Pd.get r col_volume)) as [|q|s]; [done| |done].
  destruct (negb (Qle_bool q 0)) eqn:E; [|done]. injection Hr as <-.
  unfold volume. rewrite get_insert_eq. split; [done|]. cbn [num].
  apply negb_true_iff in E. apply Qnot_le_lt. intros Hle.
  apply Qle_bool_iff in Hle. congruence.
Qed.

End Ranking.

(** *** Sums of positive rationals *)

Lemma fold_Qplus_acc (l : list Q) (a : Q) :
  (fold_left Qplus l a == a + fold_left Qplus l 0)%Q.
Proof.
  revert a. induction l as [|x l IH]; intros a; cbn [fold_left].
  - ring.
  - rewrite (IH (a + x)%Q), (IH (0 + x)%Q). ring.
Qed.

Lemma qsum_app (l1 l2 : list Q) : (qsum (l1 ++ l2) == qsum l1 + qsum l2)%Q.
Proof. unfold qsum. rewrite fold_left_app. apply fold_Qplus_acc. Qed.

Lemma qsum_nonneg (l : list Q) : Forall (fun q => (0 < q)%Q) l -> (0 <= qsum l)%Q.
Proof.
  induction 1 as [|x l Hx _ IH]; [apply Qle_refl|].
  change (x :: l) with ([x] ++ l). rewrite qsum_app.
  unfold qsum at 1. cbn [fold_left].
  apply Qle_trans with (0 + 0)%Q; [apply Qle_refl|].
  apply Qplus_le_compat; [|exact IH]. rewrite Qplus_0_l. by apply Qlt_le_weak.
Qed.

Lemma qsum_pos (l : list Q) :
  l <> [] -> Forall (fun q => (0 < q)%Q) l -> (0 < qsum l)%Q.
Proof.
  destruct l as [|x l]; [done|]. intros _ H. apply Forall_cons in H as [Hx Hl].
  change (x :: l) with ([x] ++ l). rewrite qsum_app.
  unfold qsum at 1. cbn [fold_left].
  apply Qlt_le_trans with (x + 0)%Q; [by rewrite Qplus_0_r|].
  rewrite Qplus_0_l. apply Qplus_le_compat; [apply Qle_refl|by apply qsum_nonneg].
Qed.

Lemma running_total_mono (vols : list Q) (i j : nat) :
  Forall (fun q => (0 < q)%Q) vols -> (i <= j)%nat ->
  (running_total vols i <= running_total vols j)%Q.
Proof.
  intros Hpos Hij. unfold running_total. fold (qsum (take (S i) vols)).
  fold (qsum (take (S j) vols)).
  replace (S j) with (S i + (j - i))%nat by lia.
  rewrite <- take_take_drop, qsum_app.
  rewrite <- (Qplus_0_r (qsum (take (S i) vols))) at 1.
  apply Qplus_le_compat; [apply Qle_refl|]. apply qsum_nonneg.
  by apply Forall_take, Forall_drop.
Qed.

Lemma running_total_le_total (vols : list Q) (i : nat) :
  Forall (fun q => (0 < q)%Q) vols -> (running_total vols i <= qsum vols)%Q.
Proof.
  intros Hpos. unfold running_total. fold (qsum (take (S i) vols)).
  rewrite <- (take_drop (S i) vols) at 2. rewrite qsum_app.
  rewrite <- (Qplus_0_r (qsum (take (S i) vols))) at 1.
  apply Qplus_le_compat; [apply Qle_refl|]. apply qsum_nonneg. by apply Forall_drop.
Qed.

Lemma running_total_pos (vols : list Q) (i : nat) :
  vols <> [] -> Forall (fun q => (0 < q)%Q) vols -> (0 < running_total vols i)%Q.
Proof.
  intros Hne Hpos. unfold running_total. apply qsum_pos; [|by apply Forall_take].
  by destruct vols.
Qed.

Lemma running_total_last (vols : list Q) :
  running_total vols (length vols - 1) = qsum vols.
Proof. unfold running_total, qsum. rewrite take_ge; [done|lia]. Qed.

(** The exact shares: between 0 (excluded) and 1, growing, 1 at the end. *)
Lemma share_bounds (vols : list Q) (i : nat) :
  vols <> [] -> Forall (fun q => (0 < q)%Q) vols ->
  (0 < running_total vols i / qsum vols)%Q /\ (running_total vols i / qsum vols <= 1)%Q.
Proof.
  intros Hne Hpos. pose proof (qsum_pos vols Hne Hpos) as Ht. split.
  - apply Qlt_shift_div_l; [done|]. rewrite Qmult_0_l. by apply running_total_pos.
  - apply Qle_shift_div_r; [done|]. rewrite Qmult_1_l. by apply running_total_le_total.
Qed.

Lemma share_mono (vols : list Q) (i j : nat) :
  vols <> [] -> Forall (fun q => (0 < q)%Q) vols -> (i <= j)%nat ->
  (running_total vols i / qsum vols <= running_total vols j / qsum vols)%Q.
Proof.
  intros Hne Hpos Hij. pose proof (qsum_pos vols Hne Hpos) as Ht.
  unfold Qdiv. apply Qmult_le_compat_r; [by apply running_total_mono|].
  apply Qinv_le_0_compat. by apply Qlt_le_weak.
Qed.

Lemma share_last (vols : list Q) :
  vols <> [] -> Forall (fun q => (0 < q)%Q) vols ->
  (running_total vols (length vols - 1) / qsum vols == 1)%Q.
Proof.
  intros Hne Hpos. pose proof (qsum_pos vols Hne Hpos) as Ht.
  rewrite running_total_last. unfold Qdiv. apply Qmult_inv_r.
  intros H0. rewrite H0 in Ht. by apply Qlt_irrefl in Ht.
Qed.

(** *** Sums of whole numbers *)

Lemma Qred_whole (z : Z) : Qred (inject_Z z) = inject_Z z.
Proof.
  unfold Qred, inject_Z.
  pose proof (Z.ggcd_gcd z 1) as Hg. pose proof (Z.ggcd_correct_divisors z 1) as Hd.
  destruct (Z.ggcd z 1) as [g [aa bb]]. cbn [fst snd] in *.
  rewrite Z.gcd_1_r in Hg. subst g. destruct Hd as [Ha Hb].
  rewrite Z.mul_1_l in Ha, Hb. by subst.
Qed.

Lemma Qred_inject_Z (q : Q) (z : Z) : (q == inject_Z z)%Q -> Qred q = inject_Z z.
Proof. intros H. rewrite (Qred_complete _ _ H). apply Qred_whole. Qed.

Lemma whole_spec (q : Q) : whole q = true -> (q == inject_Z (Qfloor q))%Q.
Proof. unfold whole. apply Qeq_bool_iff. Qed.

Lemma fold_Zadd_acc (zs : list Z) (a : Z) :
  fold_left Z.add zs a = (a + fold_left Z.add zs 0)%Z.
Proof.
  revert a. induction zs as [|z zs IH]; intros a; cbn [fold_left]; [lia|].
  rewrite (IH (a + z)%Z), (IH (0 + z)%Z). lia.
Qed.

Lemma ztotal_cons (z : Z) (zs : list Z) : ztotal (z :: zs) = (z + ztotal zs)%Z.
Proof. unfold ztotal. cbn [fold_left]. rewrite fold_Zadd_acc. lia. Qed.

Lemma ztotal_nonneg (zs : list Z) : Forall (fun z => (0 <= z)%Z) zs -> (0 <= ztotal zs)%Z.
Proof.
  induction 1 as [|z zs Hz _ IH]; [done|]. rewrite ztotal_cons. lia.
Qed.

Lemma nth_zrunning (zs : list Z) (acc : Z) (i : nat) :
  (i < length zs)%nat ->
  nth i (zrunning acc zs) 0%Z = fold_left Z.add (take (S i) zs) acc.
Proof.
  revert acc i. induction zs as [|z zs IH]; intros acc i Hi; [cbn in Hi; lia|].
  destruct i as [|i]; cbn [zrunning nth take fold_left]; [done|].
  apply IH. cbn in Hi. lia.
Qed.

Lemma length_zrunning (zs : list Z) (acc : Z) : length (zrunning acc zs) = length zs.
Proof. revert acc. induction zs as [|z zs IH]; intros acc; cbn; [done|]. by rewrite IH. Qed.

(** The exact sum of rationals that are whole numbers. *)
Lemma fold_Qplus_whole (vols : list Q) (zs : list Z) (a : Q) (az : Z) :
  Forall2 (fun v z => (v == inject_Z z)%Q) vols zs -> (a == inject_Z az)%Q ->
  (fold_left Qplus vols a == inject_Z (fold_left Z.add zs az))%Q.
Proof.
  intros H. revert a az. induction H as [|v z vols zs Hv _ IH]; intros a az Ha; [done|].
  cbn [fold_left]. apply IH. rewrite Ha, Hv, inject_Z_plus. reflexivity.
Qed.

Section ExactSums.

Variable np : Np.arith.
Hypothesis np_exact : exact_below_2_53 np.

Lemma np_running_exact (vols : list Q) (zs : list Z) (acc : Z) :
  Forall2 (fun v z => (v == inject_Z z)%Q) vols zs ->
  Forall (fun z => (0 <= z)%Z) zs -> (0 <= acc)%Z -> (acc + ztotal zs < 2 ^ 53)%Z ->
  np_running np (Some (inject_Z acc)) vols = map inject_Z (zrunning acc zs).
Proof.
  intros H. revert acc. induction H as [|v z vols zs Hv _ IH]; intros acc Hpos Hacc Hlt; [done|].
  apply Forall_cons in Hpos as [Hz Hpos]. rewrite ztotal_cons in Hlt.
  pose proof (ztotal_nonneg zs Hpos) as Ht.
  cbn [np_running zrunning map].
  assert (Hstep : Qred (Np.add np (inject_Z acc) (Qred v)) = inject_Z (acc + z)).
  { apply Qred_inject_Z. rewrite (Qred_inject_Z v z Hv).
    apply (proj1 np_exact); lia. }
  rewrite Hstep. f_equal. apply IH; [done|lia|lia].
Qed.

Lemma np_running_exact_0 (vols : list Q) (zs : list Z) :
  Forall2 (fun v z => (v == inject_Z z)%Q) vols zs ->
  Forall (fun z => (0 <= z)%Z) zs -> (ztotal zs < 2 ^ 53)%Z ->
  np_running np None vols = map inject_Z (zrunning 0 zs).
Proof.
  intros H Hpos Hlt. destruct H as [|v z vols zs Hv H]; [done|].
  apply Forall_cons in Hpos as [Hz Hpos]. rewrite ztotal_cons in Hlt.
  cbn [np_running zrunning map]. rewrite (Qred_inject_Z v z Hv). cbn [Z.add]. f_equal.
  apply np_running_exact; [done..|lia].
Qed.

Lemma np_total_exact (vols : list Q) (zs : list Z) :
  Forall2 (fun v z => (v == inject_Z z)%Q) vols zs ->
  Forall (fun z => (0 <= z)%Z) zs -> (ztotal zs < 2 ^ 53)%Z ->
  np_total np vols = inject_Z (ztotal zs).
Proof.
  intros H Hpos Hlt. unfold np_total.
  assert (Hmap : map Qred vols = map inject_Z zs).
  { clear Hpos Hlt. induction H as [|v z vols zs Hv _ IH]; [done|].
    cbn [map]. by rewrite (Qred_inject_Z v z Hv), IH. }
  rewrite Hmap. apply Qred_inject_Z. by apply (proj2 np_exact).
Qed.

End ExactSums.

(** The arithmetic of an int64 column is exact below 2^53. *)
Lemma wrap64_small (z : Z) : (0 <= z < 2 ^ 63)%Z -> Np.wrap64 z = z.
Proof.
  intros Hz. unfold Np.wrap64.
  assert (H63 : (2 ^ 63 = 9223372036854775808)%Z) by reflexivity.
  assert (H64 : (2 ^ 64 = 18446744073709551616)%Z) by reflexivity.
  rewrite H63, H64 in *. rewrite Z.mod_small; lia.
Qed.

Lemma int64_exact : exact_below_2_53 Np.int64.
Proof.
  assert (H53 : (2 ^ 53 = 9007199254740992)%Z) by reflexivity.
  assert (H63 : (2 ^ 63 = 9223372036854775808)%Z) by reflexivity.
  split.
  - intros a b Ha Hb Hlt. cbn [Np.add Np.int64]. rewrite !Qfloor_Z.
    rewrite wrap64_small; [reflexivity|lia].
  - intros zs Hpos Hlt. cbn [Np.sum Np.int64].
    assert (H : forall acc, (0 <= acc)%Z -> (acc + ztotal zs < 2 ^ 53)%Z ->
              fold_left (fun a q => Np.wrap64 (a + Qfloor q)) (map inject_Z zs) acc
              = (acc + ztotal zs)%Z).
    { clear Hlt. induction Hpos as [|z zs Hz Hpos IH]; intros acc Hacc Hlt.
      - unfold ztotal. cbn. lia.
      - rewrite ztotal_cons in Hlt. pose proof (ztotal_nonneg zs Hpos) as Ht.
        cbn [map fold_left]. rewrite Qfloor_Z, wrap64_small by lia.
        rewrite IH by lia. rewrite ztotal_cons. lia. }
    rewrite H by lia. reflexivity.
Qed.

(** *** The columns the program computes *)

Lemma zip_with_imap_imap {A B C D} (f : B -> C -> D) (g1 : nat -> A -> B)
    (g2 : nat -> A -> C) (l : list A) :
  zip_with f (imap g1 l) (imap g2 l) = imap (fun i x => f (g1 i x) (g2 i x)) l.
Proof.
  revert g1 g2. induction l as [|x l IH]; intros g1 g2; [done|].
  rewrite !imap_cons. cbn [zip_with]. by rewrite IH.
Qed.

Lemma map_imap {A B C} (h : B -> C) (g : nat -> A -> B) (l : list A) :
  map h (imap g l) = imap (fun i x => h (g i x)) l.
Proof.
  revert g. induction l as [|x l IH]; intros g; [done|].
  rewrite !imap_cons. cbn [map]. by rewrite IH.
Qed.

Lemma imap_map {A B C} (g : nat -> B -> C) (h : A -> B) (l : list A) :
  imap g (map h l) = imap (fun i x => g i (h x)) l.
Proof.
  revert g. induction l as [|x l IH]; intros g; [done|].
  cbn [map]. rewrite !imap_cons. by rewrite IH.
Qed.

Lemma imap_id {A} (l : list A) : imap (fun _ x => x) l = l.
Proof. induction l as [|x l IH]; [done|]. rewrite imap_cons. by rewrite IH at 1. Qed.

Lemma map_seq_imap {A B} (f : nat -> B) (l : list A) (start : nat) :
  map f (seq start (length l)) = imap (fun i _ => f (start + i)%nat) l.
Proof.
  revert start. induction l as [|x l IH]; intros start; [done|].
  cbn [length seq map]. rewrite imap_cons, Nat.add_0_r. f_equal.
  rewrite IH. apply imap_ext. intros i y _. cbn. f_equal. lia.
Qed.

Lemma imap_const_map {A B} (g : A -> B) (l : list A) : imap (fun _ x => g x) l = map g l.
Proof.
  induction l as [|x l IH]; [done|]. rewrite imap_cons. cbn [map]. f_equal. exact IH.
Qed.

(** A list read position by position along a list of the same length. *)
Lemma imap_nth {A B} (d : B) (k : list B) (l : list A) :
  length k = length l -> imap (fun i _ => nth i k d) l = k.
Proof.
  revert k. induction l as [|x l IH]; intros [|y k] Hlen; try done.
  rewrite imap_cons. cbn [nth]. f_equal. apply IH. by injection Hlen.
Qed.

Lemma length_np_running (np : Np.arith) (acc : option Q) (vols : list Q) :
  length (np_running np acc vols) = length vols.
Proof. revert acc. induction vols as [|v vols IH]; intros acc; cbn; [done|]. by rewrite IH. Qed.

Lemma cumsum_from_running (np : Np.arith) (acc : option Q) (vs : list Q) :
  cumsum_from np acc (map Num vs) = map Num (np_running np acc vs).
Proof.
  revert acc. induction vs as [|v vs IH]; intros acc; [done|].
  cbn [map cumsum_from np_running]. by rewrite IH.
Qed.

Lemma series_sum_total (np : Np.arith) (vs : list Q) :
  series_sum np (map Num vs) = np_total np vs.
Proof.
  unfold series_sum, np_total. do 2 f_equal.
  induction vs as [|v vs IH]; [done|]. cbn. by rewrite IH.
Qed.

Lemma ranked_cells (i : nat) (total cum : Q) (r : gmap string cell) :
  Pd.get (ranked i total cum r) col_rank = Num (inject_Z (Z.of_nat (S i))) /\
  Pd.get (ranked i total cum r) col_cumsum = Num cum /\
  Pd.get (ranked i total cum r) col_share = Num (Float64.div cum total) /\
  forall c, c <> col_rank -> c <> col_cumsum -> c <> col_share ->
            Pd.get (ranked i total cum r) c = Pd.get r c.
Proof.
  unfold Pd.get, ranked. split_and!; try by simplify_map_eq.
  intros c H1 H2 H3. by rewrite !lookup_insert_ne.
Qed.

Lemma rows_with_rank_columns (np : Np.arith) (cols : list string)
    (sorted : list (gmap string cell)) :
  Forall (fun r => Pd.get r col_volume = Num (volume r)) sorted ->
  rows (with_rank_columns np {| columns := cols; rows := sorted |}) =
  imap (fun i r => ranked i (np_total np (map volume sorted))
                          (nth i (np_running np None (map volume sorted)) 0%Q) r) sorted.
Proof.
  intros Hnum. rewrite Forall_lookup in Hnum.
  unfold with_rank_columns, Pd.setitem, Pd.col. cbn [rows].
  set (vols := map volume sorted).
  set (cums := np_running np None vols).
  assert (Hlen : length cums = length sorted).
  { unfold cums, vols. by rewrite length_np_running, length_map. }
  set (rows1 := zip_with (fun r v => <[col_rank := v]> r) sorted
                         (rank_column (length sorted))).
  assert (H1 : rows1 =
               imap (fun i r => <[col_rank := Num (inject_Z (Z.of_nat (S i)))]> r) sorted).
  { unfold rows1, rank_column. rewrite map_seq_imap.
    rewrite <- (imap_id sorted) at 1. by rewrite zip_with_imap_imap. }
  assert (Hvol1 : map (fun r => Pd.get r col_volume) rows1 = map Num vols).
  { rewrite H1, map_imap. unfold vols. rewrite map_map, <- imap_const_map. apply imap_ext.
    intros i r Hr. cbn. rewrite get_insert_ne by done. by apply (Hnum i). }
  rewrite Hvol1. unfold cumsum. rewrite cumsum_from_running. fold cums.
  set (rows2 := zip_with (fun r v => <[col_cumsum := v]> r) rows1 _).
  assert (H2 : rows2 =
               imap (fun i r => <[col_cumsum := Num (nth i cums 0%Q)]>
                                  (<[col_rank := Num (inject_Z (Z.of_nat (S i)))]> r)) sorted).
  { unfold rows2. rewrite H1. rewrite <- (imap_nth 0%Q cums sorted Hlen) at 1.
    rewrite map_imap, zip_with_imap_imap. done. }
  assert (Hvol2 : map (fun r => Pd.get r col_volume) rows2 = map Num vols).
  { rewrite H2, map_imap.
    transitivity (imap (fun (_ : nat) x => Num (volume x)) sorted).
    - apply imap_ext. intros i r Hr. cbn. rewrite !get_insert_ne by done.
      by apply (Hnum i).
    - rewrite imap_const_map. unfold vols. by rewrite map_map. }
  assert (Hcum2 : map (fun r => Pd.get r col_cumsum) rows2 =
                  imap (fun i _ => Num (nth i cums 0%Q)) sorted).
  { rewrite H2, map_imap. apply imap_ext. intros i r Hr. cbn.
    by rewrite get_insert_eq. }
  rewrite Hvol2, Hcum2, series_sum_total.
  unfold div_scalar. rewrite map_imap, H2, zip_with_imap_imap. done.
Qed.

(** *** The figures on whole numbers *)

Lemma qsum_cons (x : Q) (l : list Q) : (qsum (x :: l) == x + qsum l)%Q.
Proof.
  change (x :: l) with ([x] ++ l). rewrite qsum_app. unfold qsum at 1. cbn [fold_left].
  ring.
Qed.

Lemma qsum_Permutation (l1 l2 : list Q) : Permutation l1 l2 -> (qsum l1 == qsum l2)%Q.
Proof.
  induction 1 as [|x l1 l2 _ IH|x y l|l1 l2 l3 _ IH1 _ IH2].
  - reflexivity.
  - rewrite !qsum_cons, IH. reflexivity.
  - rewrite !qsum_cons. ring.
  - by rewrite IH1.
Qed.

Lemma ztotal_app (l1 l2 : list Z) : ztotal (l1 ++ l2) = (ztotal l1 + ztotal l2)%Z.
Proof. unfold ztotal. rewrite fold_left_app. apply fold_Zadd_acc. Qed.

Lemma ztotal_pos (zs : list Z) :
  zs <> [] -> Forall (fun z => (0 < z)%Z) zs -> (0 < ztotal zs)%Z.
Proof.
  destruct zs as [|z zs]; [done|]. intros _ H. apply Forall_cons in H as [Hz Hzs].
  rewrite ztotal_cons.
  assert (0 <= ztotal zs)%Z; [|lia].
  apply ztotal_nonneg. eapply Forall_impl; [exact Hzs|]. intros; cbn in *; lia.
Qed.

Section ExactFigures.

Variable np : Np.arith.
Hypothesis np_exact : exact_below_2_53 np.

(** On positive whole numbers whose total is below 2^53, the sums the
    program computes are the exact sums, and each share is the float64
    nearest to the exact quotient, which is at least 2^-53. *)
Lemma exact_figures (vols : list Q) :
  Forall (fun v => (0 < v)%Q /\ whole v = true) vols ->
  (qsum vols < inject_Z (2 ^ 53))%Q ->
  (np_total np vols == qsum vols)%Q /\
  forall i, (i < length vols)%nat ->
    (nth i (np_running np None vols) 0 == running_total vols i)%Q /\
    (Float64.div (nth i (np_running np None vols) 0) (np_total np vols)
       == Float64.round (running_total vols i / qsum vols))%Q /\
    (1 # 9007199254740992 <= running_total vols i / qsum vols)%Q.
Proof.
  intros Hvols Hlt.
  set (zs := map Qfloor vols).
  assert (Hz : Forall2 (fun v z => (v == inject_Z z)%Q) vols zs).
  { unfold zs. apply Forall2_fmap_r, Forall_Forall2_diag.
    eapply Forall_impl; [exact Hvols|]. intros v [_ Hw]. by apply whole_spec. }
  assert (Hzpos : Forall (fun z => (0 < z)%Z) zs).
  { unfold zs. apply Forall_map. eapply Forall_impl; [exact Hvols|].
    intros v [Hv Hw]. cbn. apply whole_spec in Hw. rewrite Hw in Hv.
    change 0%Q with (inject_Z 0) in Hv. by rewrite <- Zlt_Qlt in Hv. }
  assert (Hznn : Forall (fun z => (0 <= z)%Z) zs).
  { eapply Forall_impl; [exact Hzpos|]. intros; cbn in *; lia. }
  assert (Hlenz : length zs = length vols) by (unfold zs; by rewrite length_map).
  assert (Htot : (qsum vols == inject_Z (ztotal zs))%Q).
  { unfold qsum, ztotal. by apply fold_Qplus_whole. }
  assert (Htlt : (ztotal zs < 2 ^ 53)%Z).
  { rewrite Htot in Hlt. by rewrite <- Zlt_Qlt in Hlt. }
  rewrite (np_total_exact np np_exact vols zs Hz Hznn Htlt).
  rewrite (np_running_exact_0 np np_exact vols zs Hz Hznn Htlt).
  split; [by rewrite Htot|].
  intros i Hi.
  change 0%Q with (inject_Z 0). rewrite map_nth.
  rewrite nth_zrunning by lia.
  set (c := fold_left Z.add (take (S i) zs) 0%Z).
  assert (Hc : (running_total vols i == inject_Z c)%Q).
  { unfold running_total, c. apply fold_Qplus_whole; [|reflexivity]. by apply Forall2_take. }
  assert (Hcpos : (0 < c)%Z).
  { apply (ztotal_pos (take (S i) zs)); [|by apply Forall_take].
    destruct zs; [cbn in Hlenz; lia|done]. }
  assert (Hcle : (c <= ztotal zs)%Z).
  { assert (Hsplit : ztotal zs = (c + ztotal (drop (S i) zs))%Z).
    { rewrite <- (take_drop (S i) zs) at 1. by rewrite ztotal_app. }
    assert (0 <= ztotal (drop (S i) zs))%Z by (by apply ztotal_nonneg, Forall_drop).
    lia. }
  assert (HcQ : (0 < inject_Z c)%Q) by (change 0%Q with (inject_Z 0); by rewrite <- Zlt_Qlt).
  assert (HtQ : (0 < inject_Z (ztotal zs))%Q).
  { change 0%Q with (inject_Z 0). rewrite <- Zlt_Qlt. lia. }
  assert (Hq : (running_total vols i / qsum vols == inject_Z c / inject_Z (ztotal zs))%Q)
    by (by rewrite Hc, Htot).
  split_and!.
  - by rewrite Hc.
  - rewrite div_whole by lia. apply round_comp; [|by symmetry].
    apply Qlt_shift_div_l; [done|]. by rewrite Qmult_0_l.
  - rewrite Hq. apply Qle_shift_div_l; [done|].
    assert (H1 : (inject_Z (ztotal zs) <= inject_Z (2 ^ 53))%Q) by (rewrite <- Zle_Qle; lia).
    assert (H2 : (inject_Z 1 <= inject_Z c)%Q) by (rewrite <- Zle_Qle; lia).
    apply Qle_trans with (inject_Z 1); [|exact H2].
    apply Qle_trans with ((1 # 9007199254740992) * inject_Z (2 ^ 53))%Q; [|by vm_compute].
    apply Qmult_le_l; [done|exact H1].
Qed.

End ExactFigures.

Section RankingClaim.

Variable parse_number : str -> option Q.
Variable argsort_desc : list Q -> list nat.
Variable np : Np.arith.

(** The texts [pd.to_numeric] reads as an infinity (inf, Infinity, 1e999
    and the like).  The reading of such a text is no number cell: the
    statement leaves aside the tables that hold one as a volume. *)
Variable infinite : str -> bool.

(** What the program relies on from [sort_values(..., ascending=False)]:
    the positions it returns are a permutation of all positions, and the
    keys read along them never increase. *)
Hypothesis argsort_perm :
  forall keys, Permutation (argsort_desc keys) (seq 0 (length keys)).
Hypothesis argsort_sorted :
  forall keys,
    StronglySorted (fun i j => (nth j keys 0 <= nth i keys 0)%Q) (argsort_desc keys).

(** What it relies on from the arithmetic of the column. *)
Hypothesis np_exact : exact_below_2_53 np.

Abbreviation survivors := (surviving parse_number).

Lemma process_product_data_unfold (df : DataFrame) :
  Pd.has_column df col_keyword = true -> Pd.has_column df col_volume = true ->
  process_product_data parse_number argsort_desc np df =
  if Pd.empty (cleaned parse_number df) then None
  else Some (with_rank_columns np
               (sort_values_desc argsort_desc (cleaned parse_number df) col_volume)).
Proof. intros Hk Hv. unfold process_product_data. rewrite Hk, Hv. reflexivity. Qed.


End RankingClaim.

(** *** Sorters that meet the two hypotheses *)

Lemma passes_true (ties_first : bool) (keys : list Q) (i j : nat) :
  passes ties_first keys i j = true -> (nth i keys 0 <= nth j keys 0)%Q.
Proof.
  unfold passes. destruct ties_first; intros H.
  - apply Qlt_le_weak, Qnot_le_lt. intros Hle. apply Qle_bool_iff in Hle.
    rewrite Hle in H. done.
  - by apply Qle_bool_iff.
Qed.

Lemma passes_false (ties_first : bool) (keys : list Q) (i j : nat) :
  passes ties_first keys i j = false -> (nth j keys 0 <= nth i keys 0)%Q.
Proof.
  unfold passes. destruct ties_first; intros H.
  - apply negb_false_iff in H. by apply Qle_bool_iff.
  - apply Qlt_le_weak, Qnot_le_lt. intros Hle. apply Qle_bool_iff in Hle. congruence.
Qed.

Lemma insert_desc_Permutation (ties_first : bool) (keys : list Q) (i : nat) (idx : list nat) :
  Permutation (insert_desc ties_first keys i idx) (i :: idx).
Proof.
  induction idx as [|j idx IH]; [done|]. cbn [insert_desc].
  destruct (passes _ _ _ _); [|done]. rewrite IH. apply perm_swap.
Qed.

Lemma insert_desc_sorted (ties_first : bool) (keys : list Q) (i : nat) (idx : list nat) :
  StronglySorted (fun a b => (nth b keys 0 <= nth a keys 0)%Q) idx ->
  StronglySorted (fun a b => (nth b keys 0 <= nth a keys 0)%Q)
                 (insert_desc ties_first keys i idx).
Proof.
  induction 1 as [|j idx Hs IH Hj]; cbn [insert_desc].
  - repeat constructor.
  - destruct (passes ties_first keys i j) eqn:E.
    + constructor; [exact IH|]. rewrite insert_desc_Permutation.
      constructor; [|exact Hj]. by eapply passes_true.
    + pose proof (passes_false _ _ _ _ E) as Hji.
      constructor; [by constructor|]. constructor; [exact Hji|].
      eapply Forall_impl; [exact Hj|]. intros b Hb. cbn in Hb. by eapply Qle_trans.
Qed.

Lemma insertion_argsort_by_perm (ties_first : bool) (keys : list Q) :
  Permutation (insertion_argsort_by ties_first keys) (seq 0 (length keys)).
Proof.
  unfold insertion_argsort_by. rewrite <- (app_nil_r (seq 0 (length keys))) at 2.
  generalize (@nil nat). induction (seq 0 (length keys)) as [|i l IH]; intros acc; [done|].
  cbn [fold_left]. rewrite IH, insert_desc_Permutation. symmetry. apply Permutation_middle.
Qed.

Lemma insertion_argsort_by_sorted (ties_first : bool) (keys : list Q) :
  StronglySorted (fun i j => (nth j keys 0 <= nth i keys 0)%Q)
                 (insertion_argsort_by ties_first keys).
Proof.
  unfold insertion_argsort_by.
  assert (H0 : StronglySorted (fun i j => (nth j keys 0 <= nth i keys 0)%Q) [])
    by constructor.
  revert H0. generalize (@nil nat).
  induction (seq 0 (length keys)) as [|i l IH]; intros acc Hacc; [done|].
  cbn [fold_left]. apply IH. by apply insert_desc_sorted.
Qed.

Lemma insertion_argsort_perm (keys : list Q) :
  Permutation (insertion_argsort keys) (seq 0 (length keys)).
Proof. apply insertion_argsort_by_perm. Qed.

Lemma insertion_argsort_sorted (keys : list Q) :
  StronglySorted (fun i j => (nth j keys 0 <= nth i keys 0)%Q) (insertion_argsort keys).
Proof. apply insertion_argsort_by_sorted. Qed.

(** The order of rows of equal volume is the sorter's choice: both
    sorters above return a permutation with never-increasing keys, and
    on two rows of equal volume one keeps the input order and the other
    reverses it.  What the program passes to [sort_values] asks for
    neither. *)
Lemma tie_order_is_the_sorters_choice :
  let df := keyword_table [keyword_row "first" 5; keyword_row "second" 5] in
  let keywords (o : option DataFrame) :=
    match o with Some out => Pd.col out col_keyword | None => [] end in
  (forall ties_first keys,
     Permutation (insertion_argsort_by ties_first keys) (seq 0 (length keys)) /\
     StronglySorted (fun i j => (nth j keys 0 <= nth i keys 0)%Q)
                    (insertion_argsort_by ties_first keys)) /\
  keywords (process_product_data (fun _ => None) (insertion_argsort_by false) Np.int64 df)
    = [Str (Py.lit "first"); Str (Py.lit "second")] /\
  keywords (process_product_data (fun _ => None) (insertion_argsort_by true) Np.int64 df)
    = [Str (Py.lit "second"); Str (Py.lit "first")].
Proof.
  split_and!.
  - intros ties_first keys. split;
      [apply insertion_argsort_by_perm|apply insertion_argsort_by_sorted].
  - vm_compute. reflexivity.
  - vm_compute. reflexivity.
Qed.

Lemma Forall_forallb_true {A} (f : A -> bool) (l : list A) :
  forallb f l = true -> Forall (fun x => f x = true) l.
Proof.
  induction l as [|x l IH]; cbn; [constructor|].
  intros [Hx Hl]%andb_prop. constructor; auto.
Qed.



(** ** The ASIN tool: which inputs it accepts *)

Lemma isspace_lower_char (c : ascii) : Py.isspace (Py.lower_char c) = Py.isspace c.
Proof. by_ascii_cases c. Qed.

Lemma isspace_upper_char (c : ascii) : Py.isspace (Py.upper_char c) = Py.isspace c.
Proof. by_ascii_cases c. Qed.

Lemma is_sep_lower_char (c : ascii) : Re.is_sep (Py.lower_char c) = Re.is_sep c.
Proof. by_ascii_cases c. Qed.

Lemma upper_lower_char (c : ascii) : Py.upper_char (Py.lower_char c) = Py.upper_char c.
Proof. by_ascii_cases c. Qed.

Lemma lstrip_nil_iff (s : str) :
  Py.lstrip s = [] <-> Forall (fun c => Py.isspace c = true) s.
Proof.
  induction s as [|c s IH]; cbn [Py.lstrip].
  - split; [constructor|done].
  - destruct (Py.isspace c) eqn:E.
    + rewrite IH. split; [by constructor|]. intros H. by apply Forall_cons in H as [_ ?].
    + split; [done|]. intros H. apply Forall_cons in H as [H _]. congruence.
Qed.

Lemma lstrip_suffix (s : str) :
  exists pre, s = pre ++ Py.lstrip s /\ Forall (fun c => Py.isspace c = true) pre.
Proof.
  induction s as [|c s (pre & IH & Hpre)]; cbn [Py.lstrip].
  - by exists [].
  - destruct (Py.isspace c) eqn:E.
    + exists (c :: pre). split; [by rewrite IH at 1|by constructor].
    + by exists [].
Qed.

Lemma strip_nil_iff (s : str) :
  Py.strip s = [] <-> Forall (fun c => Py.isspace c = true) s.
Proof.
  unfold Py.strip, Py.rstrip.
  destruct (lstrip_suffix s) as (pre & Hs & Hpre).
  split.
  - intros H. apply (f_equal (@rev ascii)) in H. rewrite rev_involutive in H. cbn in H.
    apply lstrip_nil_iff in H. rewrite Hs. apply Forall_app. split; [done|].
    apply Forall_forall. intros c Hc. rewrite Forall_forall in H. apply H.
    apply list_elem_of_In, in_rev. rewrite rev_involutive. by apply list_elem_of_In. 
  - intros H. apply lstrip_nil_iff in H. by rewrite H.
Qed.

(** The pieces of [re.split] hold the characters that are no separators,
    in order. *)
Lemma concat_split_seps (t : str) :
  List.concat (Re.split_seps t) = List.filter (fun c => negb (Re.is_sep c)) t.
Proof.
  induction t as [|c t IH]; [done|]. cbn [Re.split_seps List.filter].
  destruct (Re.is_sep c) eqn:E; cbn [negb].
  - destruct t as [|c' t']; [done|]. destruct (Re.is_sep c') eqn:E'; [exact IH|].
    cbn [List.concat app]. exact IH.
  - destruct (Re.split_seps t) as [|p ps]; cbn [List.concat app] in *.
    + by rewrite <- IH.
    + by rewrite <- IH.
Qed.

Lemma filter_truthy_strip_pieces (t : str) :
  List.filter (fun asin => Py.truthy (Py.strip asin)) (Re.split_seps t) =
  List.filter Py.truthy (Re.split_seps t).
Proof.
  pose proof (split_seps_sep_free t) as H.
  induction H as [|p ps Hp _ IH]; [done|]. cbn [List.filter].
  rewrite (strip_sep_free p Hp), IH. done.
Qed.

Lemma filter_truthy_nil (ps : list str) :
  List.filter Py.truthy ps = [] <-> List.concat ps = [].
Proof.
  induction ps as [|p ps IH]; [done|]. cbn [List.filter List.concat].
  destruct p as [|c p]; cbn [Py.truthy app]; [exact IH|]. done.
Qed.

Lemma filter_not_sep_nil (t : str) :
  List.filter (fun c => negb (Re.is_sep c)) t = [] <->
  Forall (fun c => Re.is_sep c = true) t.
Proof.
  induction t as [|c t IH]; cbn [List.filter].
  - split; [constructor|done].
  - destruct (Re.is_sep c) eqn:E; cbn [negb].
    + rewrite IH. split; [by constructor|]. intros H. by apply Forall_cons in H as [_ ?].
    + split; [done|]. intros H. apply Forall_cons in H as [H _]. congruence.
Qed.

Lemma strip_all_sep (s : str) :
  Forall (fun c => Re.is_sep c = true) (Py.strip s) <->
  Forall (fun c => Re.is_sep c = true) s.
Proof.
  unfold Py.strip, Py.rstrip.
  destruct (lstrip_suffix s) as (pre & Hs & Hpre).
  destruct (lstrip_suffix (rev (Py.lstrip s))) as (suf & Hr & Hsuf).
  assert (Hsp : forall l, Forall (fun c => Py.isspace c = true) l ->
                          Forall (fun c => Re.is_sep c = true) l).
  { intros l Hl. eapply Forall_impl; [exact Hl|]. intros c. apply isspace_is_sep. }
  assert (Hmid : Py.lstrip s = rev (Py.lstrip (rev (Py.lstrip s))) ++ rev suf).
  { rewrite <- rev_app_distr, <- Hr. by rewrite rev_involutive. }
  split.
  - intros H. rewrite Hs, Hmid. rewrite !Forall_app. split_and!; [by apply Hsp|done|].
    apply Forall_rev. by apply Hsp.
  - intros H. rewrite Hs, Hmid in H. rewrite !Forall_app in H. by destruct H as (_ & H & _).
Qed.

Lemma asin_tokens_nil_iff (asin_input : str) :
  asin_tokens asin_input = [] <-> Forall (fun c => Re.is_sep c = true) asin_input.
Proof.
  unfold asin_tokens. rewrite <- strip_all_sep, <- filter_not_sep_nil, <- concat_split_seps.
  rewrite <- filter_truthy_nil, <- filter_truthy_strip_pieces.
  split; [|by intros ->]. intros H. by apply map_eq_nil in H.
Qed.

(** X1: on an input of ASCII characters, the ASIN tool rejects the input
    exactly when every character of it is white space.  Any other input is
    accepted, and the count before de-duplication is the number of tokens;
    it is 0 exactly when the input holds nothing but separators (white
    space, commas, semicolons), and then the stored list is empty and the
    count after de-duplication is 0 as well. *)
Theorem asin_dedup_acceptance (asin_input : str) :
  Py.isascii asin_input = true ->
  (asin_dedup asin_input = None <->
   Forall (fun c => Py.isspace c = true) asin_input) /\
  (forall r, asin_dedup asin_input = Some r ->
     original_count r = length (asin_tokens asin_input) /\
     (original_count r = 0%nat <-> Forall (fun c => Re.is_sep c = true) asin_input) /\
     (original_count r = 0%nat -> unique_count r = 0%nat /\ unique_asins r = [])).
Proof.
  intros _. rewrite asin_dedup_unfold. split.
  - rewrite <- strip_nil_iff. destruct (Py.strip asin_input); cbn [Py.truthy]; split; done.
  - intros r. destruct (Py.truthy (Py.strip asin_input)); [|done].
    intros [= <-]. cbn [original_count unique_count unique_asins]. split_and!.
    + done.
    + rewrite <- asin_tokens_nil_iff. split; [apply length_zero_iff_nil|by intros ->].
    + intros H. apply length_zero_iff_nil in H. rewrite H. done.
Qed.

(** X1, witness: an input of separators only is accepted and counts no
    token. *)
Lemma asin_dedup_acceptance_witness :
  let asin_input := Py.lit " ,; " in
  (asin_dedup asin_input = None <->
   Forall (fun c => Py.isspace c = true) asin_input) /\
  (forall r, asin_dedup asin_input = Some r ->
     original_count r = length (asin_tokens asin_input) /\
     (original_count r = 0%nat <-> Forall (fun c => Re.is_sep c = true) asin_input) /\
     (original_count r = 0%nat -> unique_count r = 0%nat /\ unique_asins r = [])).
Proof.
  intros asin_input. apply (asin_dedup_acceptance asin_input). reflexivity.
Defined.

(** ** The ASIN tool: the list it stores *)

Lemma add_keys_order (l ks : list str) :
  exists rest,
    fold_left add_key l ks = ks ++ rest /\
    Forall (fun x => x ∉ ks) rest /\
    StronglySorted lt (map (fun x => first_index x l) rest).
Proof.
  revert ks. induction l as [|y l IH]; intros ks; cbn [fold_left].
  - exists []. rewrite app_nil_r. split_and!; constructor.
  - unfold add_key at 2. case_bool_decide as Hy.
    + destruct (IH ks) as (rest & Hfold & Hfresh & Hsorted).
      exists rest. split_and!; [done..|].
      assert (Hmap : map (fun x => first_index x (y :: l)) rest
                     = map S (map (fun x => first_index x l) rest)).
      { rewrite map_map. apply map_ext_in. intros x Hx. cbn [first_index].
        rewrite Forall_forall in Hfresh.
        rewrite bool_decide_eq_false_2; [done|]. intros ->.
        by apply (Hfresh x); [apply list_elem_of_In|]. }
      rewrite Hmap. clear -Hsorted.
      induction Hsorted as [|a m _ IH Ha]; [constructor|]. cbn [map].
      constructor; [exact IH|]. apply Forall_map. eapply Forall_impl; [exact Ha|].
      intros b Hb. cbn. lia.
    + destruct (IH (ks ++ [y])) as (rest & Hfold & Hfresh & Hsorted).
      exists (y :: rest). split_and!.
      * by rewrite Hfold, <- app_assoc.
      * constructor; [done|]. eapply Forall_impl; [exact Hfresh|].
        intros x Hx Hin. apply Hx. apply elem_of_app. by left.
      * rewrite map_cons. constructor.
        -- assert (Hmap : map (fun x => first_index x (y :: l)) rest
                          = map S (map (fun x => first_index x l) rest)).
           { rewrite map_map. apply map_ext_in. intros x Hx. cbn [first_index].
             rewrite Forall_forall in Hfresh.
             rewrite bool_decide_eq_false_2; [done|]. intros ->.
             apply (Hfresh x); [by apply list_elem_of_In|].
             apply elem_of_app. right. apply list_elem_of_here. }
           rewrite Hmap. clear -Hsorted.
           induction Hsorted as [|a m _ IH Ha]; [constructor|]. cbn [map].
           constructor; [exact IH|]. apply Forall_map. eapply Forall_impl; [exact Ha|].
           intros b Hb. cbn. lia.
        -- cbn [first_index]. rewrite bool_decide_eq_true_2 by done.
           apply Forall_map. apply Forall_forall. intros x Hx. cbn [first_index].
           rewrite Forall_forall in Hfresh.
           rewrite bool_decide_eq_false_2; [lia|]. intros ->.
           apply (Hfresh x Hx). apply elem_of_app. right. apply list_elem_of_here.
Qed.

Lemma fromkeys_order (l : list str) :
  StronglySorted lt (map (fun x => first_index x l) (map fst (Py.dict_fromkeys l))).
Proof.
  rewrite keys_fromkeys. destruct (add_keys_order l []) as (rest & -> & _ & H). exact H.
Qed.

Lemma NoDup_length_le (l k : list str) :
  NoDup l -> (forall x, x ∈ l -> x ∈ k) -> (length l <= length k)%nat.
Proof.
  intros Hnd Hsub. apply submseteq_length, NoDup_submseteq; done.
Qed.

(** X2: on an input of ASCII characters, the list the ASIN tool stores has
    no duplicates, holds exactly the tokens of the input (upper-cased), and
    lists them in the order of their first appearance; each stored token
    is non-empty, free of separators and in upper case; the count before
    de-duplication is the number of tokens, the count after it is the
    length of the stored list, and it never exceeds the count before. *)
Theorem asin_dedup_unique_list (asin_input : str) (r : asin_results) :
  Py.isascii asin_input = true ->
  asin_dedup asin_input = Some r ->
  NoDup (unique_asins r) /\
  (forall x, x ∈ unique_asins r <-> x ∈ asin_tokens asin_input) /\
  StronglySorted lt (map (fun x => first_index x (asin_tokens asin_input)) (unique_asins r)) /\
  Forall stored_token (unique_asins r) /\
  original_count r = length (asin_tokens asin_input) /\
  unique_count r = length (unique_asins r) /\
  (unique_count r <= original_count r)%nat.
Proof.
  intros _. rewrite asin_dedup_unfold.
  destruct (Py.truthy (Py.strip asin_input)); [|done].
  intros [= <-]. cbn [original_count unique_count unique_asins].
  split_and!.
  - apply fromkeys_NoDup.
  - intros x. apply fromkeys_elem.
  - apply fromkeys_order.
  - apply Forall_forall. intros u Hu. apply (proj1 (fromkeys_elem _ _)) in Hu.
    pose proof (asin_tokens_stored asin_input) as H. rewrite Forall_forall in H.
    exact (H u Hu).
  - done.
  - done.
  - apply NoDup_length_le; [apply fromkeys_NoDup|]. intros x. apply fromkeys_elem.
Qed.

(** X2, witness: the run on "B08 b08 B08,X1; X1". *)
Lemma asin_dedup_unique_list_witness :
  let r := {| original_count := 5; unique_count := 2;
              unique_asins := [Py.lit "B08"; Py.lit "X1"] |} in
  let asin_input := Py.lit "B08 b08 B08,X1; X1" in
  NoDup (unique_asins r) /\
  (forall x, x ∈ unique_asins r <-> x ∈ asin_tokens asin_input) /\
  StronglySorted lt (map (fun x => first_index x (asin_tokens asin_input)) (unique_asins r)) /\
  Forall stored_token (unique_asins r) /\
  original_count r = length (asin_tokens asin_input) /\
  unique_count r = length (unique_asins r) /\
  (unique_count r <= original_count r)%nat.
Proof.
  intros r asin_input. apply (asin_dedup_unique_list asin_input r).
  - reflexivity.
  - vm_compute. reflexivity.
Defined.

(** ** The ASIN tool: letter case *)

Lemma lstrip_map (f : ascii -> ascii) (s : str) :
  (forall c, Py.isspace (f c) = Py.isspace c) ->
  Py.lstrip (map f s) = map f (Py.lstrip s).
Proof.
  intros Hf. induction s as [|c s IH]; [done|]. cbn [map Py.lstrip].
  rewrite Hf. by destruct (Py.isspace c).
Qed.

Lemma strip_map (f : ascii -> ascii) (s : str) :
  (forall c, Py.isspace (f c) = Py.isspace c) ->
  Py.strip (map f s) = map f (Py.strip s).
Proof.
  intros Hf. unfold Py.strip, Py.rstrip.
  by rewrite (lstrip_map f s Hf), <- map_rev, (lstrip_map f _ Hf), map_rev.
Qed.

Lemma split_seps_map (f : ascii -> ascii) (t : str) :
  (forall c, Re.is_sep (f c) = Re.is_sep c) ->
  Re.split_seps (map f t) = map (map f) (Re.split_seps t).
Proof.
  intros Hf. induction t as [|c t IH]; [done|]. cbn [map Re.split_seps].
  rewrite Hf. destruct (Re.is_sep c).
  - destruct t as [|c' t']; [done|]. cbn [map] in *. rewrite Hf.
    destruct (Re.is_sep c'); [exact IH|]. cbn [map]. by rewrite IH.
  - rewrite IH. by destruct (Re.split_seps t).
Qed.

Lemma asin_tokens_map (f : ascii -> ascii) (asin_input : str) :
  (forall c, Py.isspace (f c) = Py.isspace c) ->
  (forall c, Re.is_sep (f c) = Re.is_sep c) ->
  (forall c, Py.upper_char (f c) = Py.upper_char c) ->
  asin_tokens (map f asin_input) = asin_tokens asin_input.
Proof.
  intros Hsp Hsep Hup. unfold asin_tokens.
  rewrite (strip_map f _ Hsp), (split_seps_map f _ Hsep).
  induction (Re.split_seps (Py.strip asin_input)) as [|p ps IH]; [done|].
  cbn [map List.filter]. rewrite (strip_map f p Hsp).
  assert (Ht : Py.truthy (map f (Py.strip p)) = Py.truthy (Py.strip p))
    by (by destruct (Py.strip p)).
  rewrite Ht. destruct (Py.truthy (Py.strip p)); [|exact IH].
  cbn [map]. rewrite IH. f_equal.
  rewrite (strip_map f p Hsp). unfold Py.upper. rewrite map_map. apply map_ext. exact Hup.
Qed.

Lemma truthy_strip_map (f : ascii -> ascii) (s : str) :
  (forall c, Py.isspace (f c) = Py.isspace c) ->
  Py.truthy (Py.strip (map f s)) = Py.truthy (Py.strip s).
Proof. intros Hf. rewrite (strip_map f s Hf). by destruct (Py.strip s). Qed.

(** X3: the case of the letters typed makes no difference to the ASIN
    tool: an input, its lower-cased form and its upper-cased form are
    accepted or rejected alike and give the same counts and the same
    stored list. *)
Theorem asin_dedup_ignores_case (asin_input : str) :
  asin_dedup (Py.lower asin_input) = asin_dedup asin_input /\
  asin_dedup (Py.upper asin_input) = asin_dedup asin_input.
Proof.
  rewrite !asin_dedup_unfold. unfold Py.lower, Py.upper. split.
  - rewrite (truthy_strip_map _ _ isspace_lower_char).
    by rewrite (asin_tokens_map _ _ isspace_lower_char is_sep_lower_char upper_lower_char).
  - rewrite (truthy_strip_map _ _ isspace_upper_char).
    by rewrite (asin_tokens_map _ _ isspace_upper_char is_sep_upper_char upper_char_idem).
Qed.
(** ** Rule terms *)

Lemma lower_char_comma (c : ascii) : Py.lower_char c = ","%char -> c = ","%char.
Proof. by_ascii_cases c. Qed.

Lemma lstrip_idem (s : str) : Py.lstrip (Py.lstrip s) = Py.lstrip s.
Proof.
  induction s as [|c s IH]; [done|]. cbn [Py.lstrip].
  destruct (Py.isspace c) eqn:E; [exact IH|]. cbn [Py.lstrip]. by rewrite E.
Qed.

Lemma lstrip_snoc (l : str) (c : ascii) :
  Py.isspace c = false -> Py.lstrip (l ++ [c]) = Py.lstrip l ++ [c].
Proof.
  intros Hc. induction l as [|x l IH]; cbn [app Py.lstrip]; [by rewrite Hc|].
  by destruct (Py.isspace x).
Qed.

Lemma rstrip_cons (c : ascii) (s : str) :
  Py.isspace c = false -> Py.rstrip (c :: s) = c :: Py.rstrip s.
Proof.
  intros Hc. unfold Py.rstrip. cbn [rev]. rewrite (lstrip_snoc _ _ Hc), rev_app_distr. done.
Qed.

Lemma rstrip_idem (s : str) : Py.rstrip (Py.rstrip s) = Py.rstrip s.
Proof. unfold Py.rstrip. by rewrite rev_involutive, lstrip_idem. Qed.

Lemma strip_idem (s : str) : Py.strip (Py.strip s) = Py.strip s.
Proof.
  unfold Py.strip. set (u := Py.lstrip s).
  assert (Hu : Py.lstrip (Py.rstrip u) = Py.rstrip u).
  { unfold u. destruct (Py.lstrip s) as [|c t] eqn:E; [done|].
    assert (Hc : Py.isspace c = false).
    { destruct (Py.isspace c) eqn:Hc; [|done].
      pose proof (lstrip_idem s) as H. rewrite E in H. cbn [Py.lstrip] in H.
      rewrite Hc in H. apply (f_equal (@length ascii)) in H.
      destruct (lstrip_suffix t) as (pre & Ht & _).
      apply (f_equal (@length ascii)) in Ht. rewrite length_app in Ht. cbn in H. lia. }
    rewrite (rstrip_cons c t Hc). cbn [Py.lstrip]. by rewrite Hc. }
  by rewrite Hu, rstrip_idem.
Qed.

Lemma lstrip_subseteq (s : str) (c : ascii) : c ∈ Py.lstrip s -> c ∈ s.
Proof.
  destruct (lstrip_suffix s) as (pre & Hs & _). intros H. rewrite Hs.
  apply elem_of_app. by right.
Qed.

Lemma strip_subseteq (s : str) (c : ascii) : c ∈ Py.strip s -> c ∈ s.
Proof.
  unfold Py.strip, Py.rstrip. intros H.
  apply list_elem_of_In, in_rev, list_elem_of_In, lstrip_subseteq in H.
  apply list_elem_of_In, in_rev, list_elem_of_In in H. by apply lstrip_subseteq.
Qed.

Lemma split_no_sep (sep : ascii) (s : str) : Forall (fun p => sep ∉ p) (Py.split sep s).
Proof.
  induction s as [|c s IH]; cbn [Py.split].
  - constructor; [apply not_elem_of_nil|constructor].
  - destruct (Ascii.eqb c sep) eqn:E.
    + constructor; [apply not_elem_of_nil|exact IH].
    + destruct (Py.split sep s) as [|t ts].
      * constructor; [|constructor]. intros H. apply list_elem_of_singleton in H.
        subst. by rewrite Ascii.eqb_refl in E.
      * apply Forall_cons in IH as [Ht Hts]. constructor; [|exact Hts].
        intros H. apply elem_of_cons in H as [->|H]; [|done].
        by rewrite Ascii.eqb_refl in E.
Qed.

(** The terms of a rule are never empty, are trimmed and lower-cased, and
    hold no comma. *)
Lemma rule_keywords_normal (s t : str) :
  t ∈ rule_keywords s ->
  t <> [] /\ Py.lower t = t /\ Py.strip t = t /\ ","%char ∉ t.
Proof.
  intros Hin. split; [by eapply rule_keywords_nonempty|].
  unfold rule_keywords in Hin.
  apply list_elem_of_In, in_map_iff in Hin as (kw & <- & Hkw).
  apply filter_In in Hkw as [Hkw _]. split_and!.
  - apply lower_idem.
  - unfold Py.lower. by rewrite (strip_map _ _ isspace_lower_char), strip_idem.
  - intros Hc. unfold Py.lower in Hc.
    apply list_elem_of_In, in_map_iff in Hc as (c & Hc & Hin).
    apply lower_char_comma in Hc. subst c.
    pose proof (split_no_sep ","%char s) as H. rewrite Forall_forall in H.
    apply (H kw); [by apply list_elem_of_In|].
    apply strip_subseteq. by apply list_elem_of_In.
Qed.

Section ManualMapTerms.

Variable num_repr : Q -> str.

Lemma build_manual_map_fill (rdf : DataFrame) (mm : list (str * str)) :
  build_manual_map num_repr rdf = Return mm ->
  mm = [] \/ mm = fill (rule_pairs num_repr rdf) [].
Proof.
  unfold build_manual_map. destruct (Pd.empty rdf); [intros [= <-]; by left|].
  destruct (_ && _); [|done]. intros [= <-]. right.
  by rewrite fold_add_rule_rows.
Qed.

(** Every key of the mapping is a term of some rule. *)
Lemma manual_map_key_source (rdf : DataFrame) (mm : list (str * str)) (term : str) :
  build_manual_map num_repr rdf = Return mm ->
  term ∈ map fst mm ->
  exists row,
    row ∈ rows rdf /\
    term ∈ rule_keywords (astype_str num_repr (Pd.get row col_rule_keywords)).
Proof.
  intros H Hin. apply build_manual_map_fill in H as [->| ->].
  { by apply not_elem_of_nil in Hin. }
  rewrite keys_fill in Hin. apply add_keys_elem in Hin as [Hin|Hin];
    [by apply not_elem_of_nil in Hin|].
  apply list_elem_of_In, in_map_iff in Hin as ([t b] & <- & Hin).
  apply in_flat_map in Hin as (row & Hrow & Hpair).
  apply in_map_iff in Hpair as (kw & [= -> _] & Hkw).
  exists row. split; by apply list_elem_of_In.
Qed.

(** X4: in the mapping [match_brands] builds from any rule table, every
    term appears once, is non-empty, lower-cased and trimmed, and holds no
    comma; it is a term of some rule of the table, and the brand it maps to
    is the brand of a rule that lists it. *)
Theorem manual_map_terms (rdf : DataFrame) (mm : list (str * str)) :
  build_manual_map num_repr rdf = Return mm ->
  NoDup (map fst mm) /\
  Forall (fun item =>
            let term := fst item in
            term <> [] /\ Py.lower term = term /\ Py.strip term = term /\
            (","%char ∉ term) /\
            exists row,
              row ∈ rows rdf /\
              term ∈ rule_keywords (astype_str num_repr (Pd.get row col_rule_keywords)) /\
              snd item = astype_str num_repr (Pd.get row col_brand_name))
         mm.
Proof.
  intros H. apply build_manual_map_fill in H as [->| ->].
  { split; constructor. }
  assert (Hkeys : map fst (fill (rule_pairs num_repr rdf) [])
                  = fold_left add_key (map fst (rule_pairs num_repr rdf)) [])
    by apply keys_fill.
  assert (Hnd : NoDup (map fst (fill (rule_pairs num_repr rdf) []))).
  { rewrite Hkeys. apply add_keys_NoDup, NoDup_nil_2. }
  split; [exact Hnd|].
  apply Forall_forall. intros [term brand] Hin. cbn [fst snd].
  pose proof (dict_get_elem _ term brand Hnd Hin) as Hget.
  rewrite dict_get_fill in Hget. cbn [dict_get List.find] in Hget.
  destruct (last_brand_of (rule_pairs num_repr rdf) term) as [b|] eqn:Hl; [|done].
  injection Hget as ->. unfold last_brand_of in Hl.
  destruct (last _) as [[t' b']|] eqn:El; [|done]. injection Hl as ->.
  apply last_Some in El as (l' & El).
  assert (Hin' : In (t', brand)
                    (List.filter (fun p => bool_decide (fst p = term))
                                 (rule_pairs num_repr rdf))).
  { rewrite El. apply in_app_iff. right. by left. }
  apply filter_In in Hin' as [Hin' Heq]. apply bool_decide_eq_true_1 in Heq.
  cbn in Heq. subst t'.
  apply in_flat_map in Hin' as (row & Hrow & Hpair).
  apply in_map_iff in Hpair as (kw & [= -> Hb] & Hkw).
  apply list_elem_of_In in Hkw.
  destruct (rule_keywords_normal _ _ Hkw) as (H1 & H2 & H3 & H4).
  split_and!; try done.
  exists row. split_and!; [by apply list_elem_of_In|done|done].
Qed.

End ManualMapTerms.

(** X4, witness: two rules that share the term "anker". *)
Lemma manual_map_terms_witness :
  let num_repr := fun _ : Q => Py.lit "0" in
  let rdf := session_rules [SubmitRule (Py.lit "Anker") (Py.lit " Soundcore , ,ANKER");
                            SubmitRule (Py.lit "Belkin") (Py.lit "anker")] in
  let mm := [(Py.lit "soundcore", Py.lit "Anker"); (Py.lit "anker", Py.lit "Belkin")] in
  NoDup (map fst mm) /\
  Forall (fun item =>
            let term := fst item in
            term <> [] /\ Py.lower term = term /\ Py.strip term = term /\
            (","%char ∉ term) /\
            exists row,
              row ∈ rows rdf /\
              term ∈ rule_keywords (astype_str num_repr (Pd.get row col_rule_keywords)) /\
              snd item = astype_str num_repr (Pd.get row col_brand_name))
         mm.
Proof.
  intros num_repr rdf mm. apply (manual_map_terms num_repr rdf mm). vm_compute. reflexivity.
Defined.

(** ** The rule form *)

(** X5: the rule table of a session always has the two columns of the
    form; clearing forgets every rule entered before; a submission with an
    empty brand or an empty keyword field changes nothing, and neither
    does a form that was not submitted; a submission with both fields
    filled adds one row, after the rows already there. *)
Theorem rule_form_laws :
  (forall evs, columns (session_rules evs) = [col_brand_name; col_rule_keywords]) /\
  (forall evs1 evs2, session_rules (evs1 ++ ClearRules :: evs2) = session_rules evs2) /\
  (forall evs, rows (session_rules (evs ++ [ClearRules])) = []) /\
  (forall evs1 evs2 b k, b = [] \/ k = [] ->
     session_rules (evs1 ++ SubmitRule b k :: evs2) = session_rules (evs1 ++ evs2)) /\
  (forall b k custom_rules, add_rule_form false b k custom_rules = custom_rules) /\
  (forall evs b k, b <> [] -> k <> [] ->
     rows (session_rules (evs ++ [SubmitRule b k])) =
     rows (session_rules evs) ++
       [ {[ col_brand_name := Str b; col_rule_keywords := Str k ]} ]).
Proof.
  split_and!.
  - intros evs. apply session_rules_shape.
  - intros evs1 evs2. unfold session_rules. by rewrite fold_left_app.
  - intros evs. unfold session_rules. by rewrite fold_left_app.
  - intros evs1 evs2 b k Hbk. unfold session_rules. rewrite !fold_left_app.
    cbn [fold_left rule_step]. unfold add_rule_form.
    destruct Hbk as [-> | ->]; cbn [Py.truthy andb]; [done|].
    by rewrite andb_false_r.
  - done.
  - intros evs b k Hb Hk. unfold session_rules. rewrite fold_left_app.
    cbn [fold_left rule_step]. unfold add_rule_form.
    destruct b; [done|]. destruct k; [done|]. cbn [Py.truthy andb].
    unfold Pd.concat. cbn [rows map List.concat]. by rewrite app_nil_r.
Qed.
(** ** The outcomes of [match_brands] *)

Lemma original_brand_raise (bdf : DataFrame) (brand : str) (e : exn) :
  original_brand bdf brand = Raise e ->
  e = if existsb Pd.is_str (Pd.col bdf col_brand_name) then IndexError else AttributeError.
Proof.
  unfold original_brand. destruct (existsb _ _); [|by intros [= <-]].
  destruct (find_name _ _); [done|]. by intros [= <-].
Qed.

Lemma brand_pass_find (bdf : DataFrame) (bl : list str) (kw : str) :
  brand_pass bdf bl kw =
  match List.find (fun brand => Py.truthy brand && Re.search_word brand kw) bl with
  | None => Return None
  | Some brand =>
      match original_brand bdf brand with
      | Return original => Return (Some (original, brand))
      | Raise e => Raise e
      end
  end.
Proof.
  induction bl as [|brand bl IH]; [done|]. cbn [brand_pass List.find].
  by destruct (Py.truthy brand && Re.search_word brand kw).
Qed.

Lemma brand_pass_raise (bdf : DataFrame) (bl : list str) (kw : str) (e : exn) :
  brand_pass bdf bl kw = Raise e ->
  e = if existsb Pd.is_str (Pd.col bdf col_brand_name) then IndexError else AttributeError.
Proof.
  rewrite brand_pass_find. destruct (List.find _ bl) as [brand|]; [|done].
  destruct (original_brand bdf brand) as [o|e'] eqn:E; [done|].
  intros [= <-]. by eapply original_brand_raise.
Qed.

Lemma match_keyword_raise mm (bdf : DataFrame) (bl : list str) (kw : str) (e : exn) :
  match_keyword mm bdf bl kw = Raise e ->
  e = if existsb Pd.is_str (Pd.col bdf col_brand_name) then IndexError else AttributeError.
Proof.
  unfold match_keyword.
  destruct (manual_pass mm kw) as [[mb mt]|].
  - destruct (Py.truthy mb) eqn:Hmb; [by rewrite Hmb|].
    destruct (brand_pass bdf bl kw) as [[[ob ot]|]|e'] eqn:Hb.
    + by destruct (Py.truthy ob).
    + by rewrite Hmb.
    + intros [= <-]. by eapply brand_pass_raise.
  - destruct (brand_pass bdf bl kw) as [[[ob ot]|]|e'] eqn:Hb.
    + by destruct (Py.truthy ob).
    + done.
    + intros [= <-]. by eapply brand_pass_raise.
Qed.

Lemma build_manual_map_raise (num_repr : Q -> str) (rdf : DataFrame) (e : exn) :
  build_manual_map num_repr rdf = Raise e <->
  e = KeyError /\ Pd.empty rdf = false /\
  (Pd.has_column rdf col_brand_name = false \/ Pd.has_column rdf col_rule_keywords = false).
Proof.
  unfold build_manual_map. destruct (Pd.empty rdf).
  - split; [done|]. by intros (_ & ? & _).
  - destruct (Pd.has_column rdf col_brand_name), (Pd.has_column rdf col_rule_keywords);
      cbn [andb]; split; try done.
    + by intros (_ & _ & [?|?]).
    + intros [= <-]. auto.
    + intros [-> _]. done.
    + intros [= <-]. auto.
    + intros [-> _]. done.
    + intros [= <-]. auto.
    + intros [-> _]. done.
Qed.

Section MatchTableLoop.

Variable num_repr : Q -> str.

Lemma match_table_loop (pdf bdf rdf : DataFrame) (mm : list (str * str)) :
  Pd.empty pdf = false -> Pd.empty bdf = false ->
  Pd.has_column pdf col_keyword = true -> Pd.has_column pdf col_volume = true ->
  Pd.has_column bdf col_brand_name = true ->
  build_manual_map num_repr rdf = Return mm ->
  match_table num_repr pdf bdf rdf =
  match loop_rows num_repr mm bdf (brand_list num_repr bdf)
          (imap (fun idx row => (idx, row)) (map (start_row num_repr) (rows pdf)))
          {| columns := [col_keyword; col_volume; col_keyword_lower;
                         col_brand_name; col_brand; col_kind];
             rows := map (start_row num_repr) (rows pdf) |} with
  | Raise e => Raise e
  | Return df =>
      Return (Some (Pd.drop_column (Pd.setitem_scalar df col_feature Null) col_keyword_lower))
  end.
Proof.
  intros Hpe Hbe Hk Hv Hbn Hmm. unfold match_table.
  rewrite Hpe, Hbe. unfold Pd.select. cbn [forallb]. rewrite Hk, Hv. cbn [andb].
  rewrite Hbn, Hmm.
  match goal with
  | |- context [loop_rows _ _ _ _ (imap _ (rows ?d)) ?d] => set (df0 := d)
  end.
  assert (Hdf0 : df0 = {| columns := [col_keyword; col_volume; col_keyword_lower;
                                      col_brand_name; col_brand; col_kind];
                          rows := map (start_row num_repr) (rows pdf) |}).
  { unfold df0, Pd.setitem_scalar, Pd.setitem. cbn [columns rows].
    rewrite (prepared_rows num_repr).
    change (map (fun r => prepared_row _ r) (rows pdf))
      with (map (start_row num_repr) (rows pdf)).
    apply (f_equal (fun cs => {| columns := cs; rows := map (start_row num_repr) (rows pdf) |})).
    vm_compute. reflexivity. }
  rewrite Hdf0. reflexivity.
Qed.

End MatchTableLoop.

Lemma find_name_complete (s : str) (names : list cell) :
  Str s ∈ names -> exists s', find_name (Py.lower s) names = Some s'.
Proof.
  induction names as [|c names IH]; intros Hin.
  - by apply not_elem_of_nil in Hin.
  - cbn [find_name]. destruct c as [|q|s0].
    + apply elem_of_cons in Hin as [?|Hin]; [done|]. by apply IH.
    + apply elem_of_cons in Hin as [?|Hin]; [done|]. by apply IH.
    + case_bool_decide as Heq; [by eexists|].
      apply elem_of_cons in Hin as [[= ->]|Hin]; [done|]. by apply IH.
Qed.

Section MatchOutcomes.

Variable num_repr : Q -> str.

Lemma get_keyword_lower_start (r : gmap string cell) :
  astype_str num_repr (Pd.get (start_row num_repr r) col_keyword_lower)
  = Py.lower (astype_str num_repr (Pd.get r col_keyword)).
Proof. unfold start_row. by rewrite get_keyword_lower_prepared. Qed.

(** The loop returns when the matching of every keyword does. *)
Lemma loop_rows_returns mm (bdf : DataFrame) (bl : list str)
    (items : list (nat * gmap string cell)) (df : DataFrame) :
  Forall (fun item =>
            exists found,
              match_keyword mm bdf bl (astype_str num_repr (Pd.get (snd item) col_keyword_lower))
              = Return found) items ->
  exists df', loop_rows num_repr mm bdf bl items df = Return df'.
Proof.
  intros H. revert df. induction H as [|[idx row] items (found & Hf) _ IH]; intros df.
  - by exists df.
  - cbn [loop_rows]. cbn [snd] in Hf. rewrite Hf. apply IH.
Qed.

(** The loop raises when the matching of some keyword does; every
    exception of the loop is the one the brand table decides. *)
Lemma loop_rows_raises mm (bdf : DataFrame) (bl : list str)
    (items : list (nat * gmap string cell)) (df : DataFrame) :
  Exists (fun item =>
            exists e,
              match_keyword mm bdf bl (astype_str num_repr (Pd.get (snd item) col_keyword_lower))
              = Raise e) items ->
  loop_rows num_repr mm bdf bl items df =
  Raise (if existsb Pd.is_str (Pd.col bdf col_brand_name) then IndexError else AttributeError).
Proof.
  intros H. revert df. induction items as [|[idx row] items IH]; intros df.
  - by apply Exists_nil in H.
  - cbn [loop_rows].
    destruct (match_keyword mm bdf bl _) as [found|e] eqn:Hf.
    + apply IH. apply Exists_cons in H as [(e & He)|H]; [|done].
      cbn [snd] in He. congruence.
    + by rewrite (match_keyword_raise _ _ _ _ _ Hf).
Qed.

Lemma loop_rows_raise_inv mm (bdf : DataFrame) (bl : list str)
    (items : list (nat * gmap string cell)) (df : DataFrame) (e : exn) :
  loop_rows num_repr mm bdf bl items df = Raise e ->
  e = if existsb Pd.is_str (Pd.col bdf col_brand_name) then IndexError else AttributeError.
Proof.
  revert df. induction items as [|[idx row] items IH]; intros df; [done|].
  cbn [loop_rows]. destruct (match_keyword mm bdf bl _) as [found|e'] eqn:Hf.
  - apply IH.
  - intros [= <-]. by eapply match_keyword_raise.
Qed.

Lemma match_table_None (pdf bdf rdf : DataFrame) :
  match_table num_repr pdf bdf rdf = Return None <->
  Pd.empty pdf = true \/ Pd.empty bdf = true.
Proof.
  unfold match_table. destruct (Pd.empty pdf); [by split; [left|]|].
  destruct (Pd.empty bdf); [by split; [right|]|].
  split; [|by intros [?|?]].
  destruct (Pd.select pdf _); [|done].
  destruct (Pd.has_column bdf col_brand_name); [|done].
  destruct (build_manual_map num_repr rdf); [|done].
  by destruct (loop_rows _ _ _ _ _ _).
Qed.

Lemma select_two (pdf : DataFrame) :
  Pd.select pdf [col_keyword; col_volume] = None <->
  Pd.has_column pdf col_keyword = false \/ Pd.has_column pdf col_volume = false.
Proof.
  unfold Pd.select. cbn [forallb].
  destruct (Pd.has_column pdf col_keyword), (Pd.has_column pdf col_volume); cbn [andb];
    split; try done; try (by intros [?|?]); auto.
Qed.

Lemma match_table_KeyError (pdf bdf rdf : DataFrame) :
  match_table num_repr pdf bdf rdf = Raise KeyError <->
  Pd.empty pdf = false /\ Pd.empty bdf = false /\
  (Pd.has_column pdf col_keyword = false \/ Pd.has_column pdf col_volume = false \/
   Pd.has_column bdf col_brand_name = false \/
   (Pd.empty rdf = false /\
    (Pd.has_column rdf col_brand_name = false \/
     Pd.has_column rdf col_rule_keywords = false))).
Proof.
  unfold match_table. destruct (Pd.empty pdf); [by split; [|intros (? & _)]|].
  destruct (Pd.empty bdf); [by split; [|intros (_ & ? & _)]|].
  pose proof (select_two pdf) as Hsel.
  destruct (Pd.select pdf _) as [sel|].
  - assert (Hk : Pd.has_column pdf col_keyword = true).
    { destruct (Pd.has_column pdf col_keyword) eqn:E; [done|].
      by pose proof (proj2 Hsel (or_introl eq_refl)). }
    assert (Hv : Pd.has_column pdf col_volume = true).
    { destruct (Pd.has_column pdf col_volume) eqn:E; [done|].
      by pose proof (proj2 Hsel (or_intror eq_refl)). }
    rewrite Hk, Hv.
    destruct (Pd.has_column bdf col_brand_name).
    + pose proof (build_manual_map_raise num_repr rdf KeyError) as Hmm.
      destruct (build_manual_map num_repr rdf) as [mm|e] eqn:Em.
      * destruct (loop_rows _ _ _ _ _ _) as [df'|e] eqn:El.
        -- split; [done|]. intros (_ & _ & [?|[?|[?|H]]]); try done.
           by pose proof (proj2 Hmm (conj eq_refl H)).
        -- split.
           ++ intros [= ->]. apply loop_rows_raise_inv in El.
              by destruct (existsb _ _).
           ++ intros (_ & _ & [?|[?|[?|H]]]); try done.
              by pose proof (proj2 Hmm (conj eq_refl H)).
      * pose proof (proj1 (build_manual_map_raise num_repr rdf e) Em) as (-> & He & Hc).
        split; [|done]. intros _. split_and!; try done. right. right. right. done.
    + split; [|done]. intros _. split_and!; try done. right. right. left. done.
  - split; [|done]. intros _. split_and!; try done.
    destruct (proj1 Hsel eq_refl); [by left|by right; left].
Qed.

Lemma match_brands_fst (h : heap) (p b r : loc) (pdf bdf rdf : DataFrame) :
  h !! p = Some pdf -> h !! b = Some bdf -> h !! r = Some rdf ->
  fst (match_brands num_repr (Some p) (Some b) r h) =
  match match_table num_repr pdf bdf rdf with
  | Return (Some _) => Return (Some (S (length h)))
  | Return None => Return None
  | Raise e => Raise e
  end.
Proof.
  intros Hp Hb Hr.
  pose proof (match_brands_run num_repr h p b r pdf bdf rdf Hp Hb Hr) as Hrun.
  destruct (match_table num_repr pdf bdf rdf) as [[df|]|e].
  - by destruct Hrun as (tmp & ->).
  - by rewrite Hrun.
  - by destruct Hrun as (news & ->).
Qed.

Lemma match_table_exceptions (pdf bdf rdf : DataFrame) (e : exn) :
  match_table num_repr pdf bdf rdf = Raise e ->
  e = KeyError \/ e = IndexError \/ e = AttributeError.
Proof.
  unfold match_table.
  destruct (Pd.empty pdf); [done|]. destruct (Pd.empty bdf); [done|].
  destruct (Pd.select pdf _); [|intros [= <-]; by left].
  destruct (Pd.has_column bdf col_brand_name); [|intros [= <-]; by left].
  destruct (build_manual_map num_repr rdf) as [mm|e'] eqn:Em.
  - destruct (loop_rows _ _ _ _ _ _) as [df'|e'] eqn:El; [done|].
    intros [= <-]. apply loop_rows_raise_inv in El. rewrite El.
    destruct (existsb _ _); auto.
  - intros [= <-]. apply build_manual_map_raise in Em as [-> _]. by left.
Qed.

Lemma item_of_row (rs : list (gmap string cell)) (row : gmap string cell) :
  row ∈ rs ->
  exists i, (i, start_row num_repr row) ∈ imap (fun idx row => (idx, row)) (map (start_row num_repr) rs).
Proof.
  intros Hin. apply list_elem_of_lookup in Hin as (i & Hi). exists i.
  apply list_elem_of_lookup. exists i.
  by rewrite list_lookup_imap, list_lookup_fmap, Hi.
Qed.

Lemma row_of_item (rs : list (gmap string cell)) (item : nat * gmap string cell) :
  item ∈ imap (fun idx row => (idx, row)) (map (start_row num_repr) rs) ->
  exists row, row ∈ rs /\ snd item = start_row num_repr row.
Proof.
  intros Hin. apply list_elem_of_lookup in Hin as (i & Hi).
  rewrite list_lookup_imap, list_lookup_fmap in Hi.
  destruct (rs !! i) as [row|] eqn:Er; [|done]. injection Hi as <-.
  exists row. split; [|done]. apply list_elem_of_lookup. by exists i.
Qed.

(** With names that are all strings, the search of the brand table for
    the name behind a brand of the list always finds one. *)
Lemma brand_pass_returns (bdf : DataFrame) (kw : str) :
  Forall (fun c => Pd.is_str c = true) (Pd.col bdf col_brand_name) ->
  exists found, brand_pass bdf (brand_list num_repr bdf) kw = Return found.
Proof.
  intros Hstr. rewrite brand_pass_find.
  destruct (List.find _ (brand_list num_repr bdf)) as [brand|] eqn:E; [|by eexists].
  apply find_some in E as [Hin _]. unfold brand_list in Hin.
  apply in_map_iff in Hin as (c & <- & Hc).
  rewrite Forall_forall in Hstr.
  pose proof (Hstr c (proj2 (list_elem_of_In _ _) Hc)) as Hs.
  destruct c as [| |s]; [done..|]. cbn [astype_str].
  unfold original_brand.
  assert (Hex : existsb Pd.is_str (Pd.col bdf col_brand_name) = true).
  { apply existsb_exists. by exists (Str s). }
  rewrite Hex.
  destruct (find_name_complete s _ (proj2 (list_elem_of_In _ _) Hc)) as (s' & ->).
  by eexists.
Qed.

Lemma match_keyword_returns mm (bdf : DataFrame) (kw : str) :
  Forall (fun c => Pd.is_str c = true) (Pd.col bdf col_brand_name) ->
  exists found, match_keyword mm bdf (brand_list num_repr bdf) kw = Return found.
Proof.
  intros Hstr. destruct (brand_pass_returns bdf kw Hstr) as (found & Hb).
  unfold match_keyword. rewrite Hb.
  destruct (manual_pass mm kw) as [[mb mt]|].
  - destruct (Py.truthy mb) eqn:Hmb; [rewrite Hmb; by eexists|].
    destruct found as [[ob ot]|]; [destruct (Py.truthy ob); by eexists|].
    rewrite Hmb. by eexists.
  - destruct found as [[ob ot]|]; [destruct (Py.truthy ob); by eexists|]. by eexists.
Qed.

Lemma match_table_succeeds (pdf bdf rdf : DataFrame) :
  Pd.empty pdf = false ->
  Pd.has_column pdf col_keyword = true -> Pd.has_column pdf col_volume = true ->
  Pd.empty bdf = false ->
  Pd.has_column bdf col_brand_name = true ->
  Forall (fun c => Pd.is_str c = true) (Pd.col bdf col_brand_name) ->
  Pd.empty rdf = true \/
    (Pd.has_column rdf col_brand_name = true /\ Pd.has_column rdf col_rule_keywords = true) ->
  exists df, match_table num_repr pdf bdf rdf = Return (Some df).
Proof.
  intros Hpe Hk Hv Hbe Hbn Hstr Hrules.
  assert (Hmm : exists mm, build_manual_map num_repr rdf = Return mm).
  { unfold build_manual_map. destruct Hrules as [-> | [-> ->]]; [by eexists|].
    destruct (Pd.empty rdf); by eexists. }
  destruct Hmm as (mm & Hmm).
  pose proof (match_table_loop num_repr pdf bdf rdf mm Hpe Hbe Hk Hv Hbn Hmm) as Ht.
  match type of Ht with
  | _ = match loop_rows _ _ _ _ ?items ?d with _ => _ end =>
      destruct (loop_rows_returns mm bdf (brand_list num_repr bdf) items d)
        as (df' & Hloop)
  end.
  { apply Forall_forall. intros item _. by apply match_keyword_returns. }
  rewrite Hloop in Ht. by eexists.
Qed.

(** X6: on a keyword table and a brand table, [match_brands] returns no
    table (Python's None) exactly when one of the two is empty, and it then
    leaves the store as it was; it does the same when either argument is
    None. *)
Theorem match_brands_no_result (h : heap) (p b r : loc) (pdf bdf rdf : DataFrame) :
  h !! p = Some pdf -> h !! b = Some bdf -> h !! r = Some rdf ->
  (fst (match_brands num_repr (Some p) (Some b) r h) = Return None <->
   Pd.empty pdf = true \/ Pd.empty bdf = true) /\
  (Pd.empty pdf = true \/ Pd.empty bdf = true ->
   match_brands num_repr (Some p) (Some b) r h = (Return None, h)) /\
  match_brands num_repr None (Some b) r h = (Return None, h) /\
  match_brands num_repr (Some p) None r h = (Return None, h) /\
  match_brands num_repr None None r h = (Return None, h).
Proof.
  intros Hp Hb Hr.
  pose proof (match_brands_run num_repr h p b r pdf bdf rdf Hp Hb Hr) as Hrun.
  pose proof (match_table_None pdf bdf rdf) as Hnone.
  split_and!.
  - destruct (match_table num_repr pdf bdf rdf) as [[df|]|e].
    + destruct Hrun as (tmp & ->). cbn [fst]. split; [done|]. intros H.
      by apply Hnone in H.
    + rewrite Hrun. cbn [fst]. split; [|done]. intros _. by apply Hnone.
    + destruct Hrun as (news & ->). cbn [fst]. split; [done|]. intros H.
      by apply Hnone in H.
  - intros H. apply Hnone in H. by rewrite H in Hrun.
  - reflexivity.
  - unfold match_brands. rewrite run_bind, (load_here _ _ _ Hp).
    by destruct (Pd.empty pdf).
  - reflexivity.
Qed.

(** X7: on two tables that are not empty, [match_brands] raises KeyError
    exactly when the keyword table lacks the keyword or the volume column,
    the brand table lacks the name column, or the rule table has rows and
    lacks one of its two columns. *)
Theorem match_brands_missing_column (h : heap) (p b r : loc) (pdf bdf rdf : DataFrame) :
  h !! p = Some pdf -> h !! b = Some bdf -> h !! r = Some rdf ->
  (fst (match_brands num_repr (Some p) (Some b) r h) = Raise KeyError <->
   Pd.empty pdf = false /\ Pd.empty bdf = false /\
   (Pd.has_column pdf col_keyword = false \/ Pd.has_column pdf col_volume = false \/
    Pd.has_column bdf col_brand_name = false \/
    (Pd.empty rdf = false /\
     (Pd.has_column rdf col_brand_name = false \/
      Pd.has_column rdf col_rule_keywords = false)))).
Proof.
  intros Hp Hb Hr. rewrite (match_brands_fst h p b r pdf bdf rdf Hp Hb Hr).
  rewrite <- (match_table_KeyError pdf bdf rdf).
  destruct (match_table num_repr pdf bdf rdf) as [[df|]|e];
    split; try done; by intros [= ->].
Qed.

(** X8: [match_brands] returns a table, with one row for each row of the
    keyword table, whenever the keyword table is not empty, has the
    keyword and volume columns and no blank keyword, the brand table is
    not empty, has the name column and holds only strings in it, and the
    rule table is empty or has its two columns.  The table is a new object
    of the store. *)
Theorem match_brands_succeeds (h : heap) (p b r : loc) (pdf bdf rdf : DataFrame) :
  h !! p = Some pdf -> h !! b = Some bdf -> h !! r = Some rdf ->
  Pd.empty pdf = false ->
  Pd.has_column pdf col_keyword = true -> Pd.has_column pdf col_volume = true ->
  Forall (fun c => Pd.isnull c = false) (Pd.col pdf col_keyword) ->
  Pd.empty bdf = false ->
  Pd.has_column bdf col_brand_name = true ->
  Forall (fun c => Pd.is_str c = true) (Pd.col bdf col_brand_name) ->
  Pd.empty rdf = true \/
    (Pd.has_column rdf col_brand_name = true /\ Pd.has_column rdf col_rule_keywords = true) ->
  exists tmp df,
    match_brands num_repr (Some p) (Some b) r h
      = (Return (Some (S (length h))), h ++ [tmp; df]) /\
    length (rows df) = length (rows pdf).
Proof.
  intros Hp Hb Hr Hpe Hk Hv _ Hbe Hbn Hstr Hrules.
  destruct (match_table_succeeds pdf bdf rdf Hpe Hk Hv Hbe Hbn Hstr Hrules) as (df & Ht).
  pose proof (match_brands_run num_repr h p b r pdf bdf rdf Hp Hb Hr) as Hrun.
  rewrite Ht in Hrun. destruct Hrun as (tmp & Hrun).
  exists tmp, df. split; [exact Hrun|].
  destruct (match_table_rows num_repr pdf bdf rdf _ Ht) as (mm & _ & _ & Hall).
  symmetry. by eapply Forall2_length.
Qed.

(** X9: a name of the brand table that is not a string makes
    [match_brands] fail.  Under the rules of a session, when for some
    keyword no rule term is found and the first brand of the list found in
    it is the lower-cased text of no string name of the table (it is the
    printed form of a number or of a missing value), the call raises
    IndexError, or AttributeError when the name column holds no string at
    all. *)
Theorem match_brands_name_not_string (events : list rule_event) (h : heap) (p b r : loc)
    (pdf bdf : DataFrame) (row : gmap string cell) (brand : str) :
  h !! p = Some pdf -> h !! b = Some bdf -> h !! r = Some (session_rules events) ->
  Pd.empty pdf = false ->
  Pd.has_column pdf col_keyword = true -> Pd.has_column pdf col_volume = true ->
  Pd.empty bdf = false ->
  Pd.has_column bdf col_brand_name = true ->
  row ∈ rows pdf ->
  let keyword_lower := Py.lower (astype_str num_repr (Pd.get row col_keyword)) in
  first_matching_term (rule_pairs num_repr (session_rules events)) keyword_lower = None ->
  List.find (fun candidate => Py.truthy candidate && Re.search_word candidate keyword_lower)
            (brand_list num_repr bdf) = Some brand ->
  find_name brand (Pd.col bdf col_brand_name) = None ->
  fst (match_brands num_repr (Some p) (Some b) r h) =
  Raise (if existsb Pd.is_str (Pd.col bdf col_brand_name) then IndexError
         else AttributeError).
Proof.
  intros Hp Hb Hr Hpe Hk Hv Hbe Hbn Hrow kl Hmanual Hfind Hname.
  pose proof (build_manual_map_session num_repr events) as Hmm.
  pose proof (match_table_loop num_repr pdf bdf _ _ Hpe Hbe Hk Hv Hbn Hmm) as Ht.
  match type of Ht with
  | _ = match loop_rows _ _ _ _ ?items ?d with _ => _ end =>
      rewrite (loop_rows_raises _ bdf (brand_list num_repr bdf) items d) in Ht
  end.
  - pose proof (match_brands_run num_repr h p b r pdf bdf _ Hp Hb Hr) as Hrun.
    rewrite Ht in Hrun. by destruct Hrun as (news & ->).
  - apply Exists_exists. destruct (item_of_row (rows pdf) row Hrow) as (i & Hi).
    exists (i, start_row num_repr row). split; [exact Hi|].
    cbn [snd]. rewrite get_keyword_lower_start. fold kl.
    rewrite match_keyword_session. cbn zeta. rewrite Hmanual.
    rewrite brand_pass_find, Hfind. unfold original_brand. rewrite Hname.
    destruct (existsb _ _); by eexists.
Qed.

End MatchOutcomes.

(** X6, witness: a keyword table with no rows. *)
Lemma match_brands_no_result_witness :
  let pdf := keyword_table [] in
  let bdf := brand_table [brand_row "ace"] in
  let h := [pdf; bdf; initial_rules] in
  let num_repr := fun _ : Q => Py.lit "0" in
  (fst (match_brands num_repr (Some 0%nat) (Some 1%nat) 2%nat h) = Return None <->
   Pd.empty pdf = true \/ Pd.empty bdf = true) /\
  (Pd.empty pdf = true \/ Pd.empty bdf = true ->
   match_brands num_repr (Some 0%nat) (Some 1%nat) 2%nat h = (Return None, h)) /\
  match_brands num_repr None (Some 1%nat) 2%nat h = (Return None, h) /\
  match_brands num_repr (Some 0%nat) None 2%nat h = (Return None, h) /\
  match_brands num_repr None None 2%nat h = (Return None, h).
Proof.
  intros pdf bdf h num_repr.
  apply (match_brands_no_result num_repr h 0%nat 1%nat 2%nat pdf bdf initial_rules);
    reflexivity.
Defined.

(** X7, witness: a keyword table with no volume column. *)
Lemma match_brands_missing_column_witness :
  let pdf := {| columns := [col_keyword];
                rows := [ {[ col_keyword := Str (Py.lit "ace pro") ]} ] |} in
  let bdf := brand_table [brand_row "ace"] in
  let rdf := initial_rules in
  let h := [pdf; bdf; rdf] in
  let num_repr := fun _ : Q => Py.lit "0" in
  (fst (match_brands num_repr (Some 0%nat) (Some 1%nat) 2%nat h) = Raise KeyError <->
   Pd.empty pdf = false /\ Pd.empty bdf = false /\
   (Pd.has_column pdf col_keyword = false \/ Pd.has_column pdf col_volume = false \/
    Pd.has_column bdf col_brand_name = false \/
    (Pd.empty rdf = false /\
     (Pd.has_column rdf col_brand_name = false \/
      Pd.has_column rdf col_rule_keywords = false)))).
Proof.
  intros pdf bdf rdf h num_repr.
  apply (match_brands_missing_column num_repr h 0%nat 1%nat 2%nat pdf bdf rdf); reflexivity.
Defined.

(** X8, witness: the two sample keywords and the brand "ace". *)
Lemma match_brands_succeeds_witness :
  let pdf := keyword_table [keyword_row "space" 100; keyword_row "ace pro" 50] in
  let bdf := brand_table [brand_row "ace"] in
  let h := [pdf; bdf; initial_rules] in
  let num_repr := fun _ : Q => Py.lit "0" in
  exists tmp df,
    match_brands num_repr (Some 0%nat) (Some 1%nat) 2%nat h
      = (Return (Some (S (length h))), h ++ [tmp; df]) /\
    length (rows df) = length (rows pdf).
Proof.
  intros pdf bdf h num_repr.
  apply (match_brands_succeeds num_repr h 0%nat 1%nat 2%nat pdf bdf initial_rules);
    try reflexivity.
  - repeat constructor.
  - repeat constructor.
  - by left.
Defined.

(** X9, witness: the brand 361 read as a number, and the keyword
    "361 shoes". *)
Lemma match_brands_name_not_string_witness :
  let pdf := keyword_table [keyword_row "usb cable" 100; keyword_row "361 shoes" 50] in
  let bdf := brand_table [brand_row "Anker"; {[ col_brand_name := Num 361 ]}] in
  let h := [pdf; bdf; session_rules []] in
  let num_repr := fun _ : Q => Py.lit "361" in
  fst (match_brands num_repr (Some 0%nat) (Some 1%nat) 2%nat h) = Raise IndexError.
Proof.
  intros pdf bdf h num_repr.
  apply (match_brands_name_not_string num_repr [] h 0%nat 1%nat 2%nat pdf bdf
           (keyword_row "361 shoes" 50) (Py.lit "361")); try reflexivity.
  apply list_elem_of_further, list_elem_of_here.
Defined.
(** ** The table [match_brands] returns *)

Lemma match_keyword_truthy mm (bdf : DataFrame) (bl : list str) (kw brand term : str) :
  match_keyword mm bdf bl kw = Return (Some (brand, term)) -> brand <> [].
Proof.
  unfold match_keyword.
  assert (H : forall o : outcome (option (str * str)),
             match o with
             | Return (Some (matched_brand, matched_term)) =>
                 if Py.truthy matched_brand then Return (Some (matched_brand, matched_term))
                 else Return None
             | other => other
             end = Return (Some (brand, term)) -> brand <> []).
  { intros [[[ob ot]|]|e]; try done. destruct ob; [done|]. by intros [= <- _]. }
  apply H.
Qed.

Section MatchResult.

Variable num_repr : Q -> str.

Lemma match_table_classified (pdf bdf rdf out : DataFrame) :
  match_table num_repr pdf bdf rdf = Return (Some out) ->
  Forall classified (rows out).
Proof.
  intros Ht. destruct (match_table_rows num_repr pdf bdf rdf out Ht) as (mm & Hmm & _ & Hall).
  induction Hall as [|r r' rs rs' (found & Hfound & ->) _ IH]; constructor; [|exact IH].
  destruct (result_row_cells (Py.lower (astype_str num_repr (Pd.get r col_keyword))) found r)
    as (_ & _ & Hbn & Hb & Hk & _).
  destruct found as [[brand term]|]; [left|by right].
  exists brand, term.
  pose proof (match_keyword_truthy _ _ _ _ _ _ Hfound) as Hbrand.
  destruct (match_keyword_Some _ _ _ _ _ _ Hfound) as (Hterm & _ & Hsrc).
  split_and!; try done.
  destruct Hsrc as [Hin|Hin].
  - assert (Hkey : term ∈ map fst mm).
    { apply list_elem_of_In, in_map_iff. exists (term, brand). split; [done|].
      by apply list_elem_of_In. }
    destruct (manual_map_key_source num_repr rdf mm term Hmm Hkey) as (row & _ & Hkw).
    by destruct (rule_keywords_normal _ _ Hkw) as (_ & ? & _).
  - apply list_elem_of_In, in_map_iff in Hin as (c & <- & _). apply lower_idem.
Qed.

(** X10: the table [match_brands] returns has the six columns keyword,
    volume, brand name, matched term, kind and feature, in this order, and
    nothing else (the working column of lower-cased keywords is gone); it
    has one row for each row of the keyword table, in the same order, with
    the keyword and the volume of that row copied and the feature left
    empty. *)
Theorem match_brands_table_shape (h h' : heap) (p b r out : loc) (pdf bdf rdf : DataFrame) :
  h !! p = Some pdf -> h !! b = Some bdf -> h !! r = Some rdf ->
  match_brands num_repr (Some p) (Some b) r h = (Return (Some out), h') ->
  exists df,
    h' !! out = Some df /\
    columns df = [col_keyword; col_volume; col_brand_name; col_brand; col_kind; col_feature] /\
    length (rows df) = length (rows pdf) /\
    Forall2 (fun row row' =>
               Pd.get row' col_keyword = Pd.get row col_keyword /\
               Pd.get row' col_volume = Pd.get row col_volume /\
               Pd.get row' col_feature = Null /\
               forall c, c ∉ columns df -> row' !! c = None)
            (rows pdf) (rows df).
Proof.
  intros Hp Hb Hr Hrun.
  destruct (match_brands_returns num_repr h h' p b r out pdf bdf rdf Hp Hb Hr Hrun)
    as (df & Htable & Hout).
  exists df. split; [done|].
  destruct (match_table_rows num_repr pdf bdf rdf df Htable) as (mm & _ & Hcols & Hall).
  split; [done|]. split; [symmetry; by eapply Forall2_length|].
  eapply Forall2_impl; [exact Hall|]. cbn beta zeta.
  intros row row' (found & _ & ->).
  destruct (result_row_cells (Py.lower (astype_str num_repr (Pd.get row col_keyword)))
              found row) as (Hk & Hv & _ & _ & _ & Hf).
  split_and!; try done.
  intros c Hc. rewrite Hcols in Hc.
  rewrite !not_elem_of_cons in Hc. destruct Hc as (? & ? & ? & ? & ? & ? & _).
  unfold result_row, prepared_row.
  destruct (decide (c = col_keyword_lower)) as [->|Hkl]; [apply lookup_delete_eq|].
  rewrite lookup_delete_ne, lookup_insert_ne by done.
  destruct found as [[fb ft]|]; cbn [mark_row];
    rewrite ?lookup_insert_ne by done; cbn; by simplify_map_eq.
Qed.

(** X11: in every row of the table [match_brands] returns, either the
    kind is Branded and the row carries a brand name that is not empty and
    a matched term that is not empty and is in lower case, or the kind is
    Non-Branded and both the brand name and the matched term are missing. *)
Theorem match_brands_rows_classified (h h' : heap) (p b r out : loc)
    (pdf bdf rdf : DataFrame) :
  h !! p = Some pdf -> h !! b = Some bdf -> h !! r = Some rdf ->
  match_brands num_repr (Some p) (Some b) r h = (Return (Some out), h') ->
  exists df, h' !! out = Some df /\ Forall classified (rows df).
Proof.
  intros Hp Hb Hr Hrun.
  destruct (match_brands_returns num_repr h h' p b r out pdf bdf rdf Hp Hb Hr Hrun)
    as (df & Htable & Hout).
  exists df. split; [done|]. by eapply match_table_classified.
Qed.

End MatchResult.

(** X10, witness: the two sample keywords and the brand "ace". *)
Lemma match_brands_table_shape_witness :
  let pdf := keyword_table [keyword_row "space" 100; keyword_row "ace pro" 50] in
  let bdf := brand_table [brand_row "ace"] in
  let h := [pdf; bdf; initial_rules] in
  let num_repr := fun _ : Q => Py.lit "0" in
  let run := match_brands num_repr (Some 0%nat) (Some 1%nat) 2%nat h in
  exists df,
    snd run !! 4%nat = Some df /\
    columns df = [col_keyword; col_volume; col_brand_name; col_brand; col_kind; col_feature] /\
    length (rows df) = length (rows pdf) /\
    Forall2 (fun row row' =>
               Pd.get row' col_keyword = Pd.get row col_keyword /\
               Pd.get row' col_volume = Pd.get row col_volume /\
               Pd.get row' col_feature = Null /\
               forall c, c ∉ columns df -> row' !! c = None)
            (rows pdf) (rows df).
Proof.
  intros pdf bdf h num_repr run.
  apply (match_brands_table_shape num_repr h (snd run) 0%nat 1%nat 2%nat 4%nat
           pdf bdf initial_rules);
    [reflexivity..|vm_compute; reflexivity].
Defined.

(** X11, witness: the same run. *)
Lemma match_brands_rows_classified_witness :
  let pdf := keyword_table [keyword_row "space" 100; keyword_row "ace pro" 50] in
  let bdf := brand_table [brand_row "ace"] in
  let h := [pdf; bdf; initial_rules] in
  let num_repr := fun _ : Q => Py.lit "0" in
  let run := match_brands num_repr (Some 0%nat) (Some 1%nat) 2%nat h in
  exists df, snd run !! 4%nat = Some df /\ Forall classified (rows df).
Proof.
  intros pdf bdf h num_repr run.
  apply (match_brands_rows_classified num_repr h (snd run) 0%nat 1%nat 2%nat 4%nat
           pdf bdf initial_rules);
    [reflexivity..|vm_compute; reflexivity].
Defined.

Section BrandList.

Variable num_repr : Q -> str.

(** X12: what the brand list records, under the rules of a session, for
    a keyword in which no rule term is found: the first brand of the list,
    in the order of the brand table, that is not empty and occurs in the
    keyword as a whole word, whatever its length; the matched term is that
    brand, in lower case, and the brand name is the name as it is spelled
    in the first row of the brand table whose lower-cased name equals the
    term.  When no brand of the list occurs, the row is left Non-Branded. *)
Theorem match_brands_brand_list (events : list rule_event) (h h' : heap) (p b r out : loc)
    (pdf bdf : DataFrame) :
  h !! p = Some pdf -> h !! b = Some bdf -> h !! r = Some (session_rules events) ->
  match_brands num_repr (Some p) (Some b) r h = (Return (Some out), h') ->
  exists df,
    h' !! out = Some df /\
    Forall2 (fun row row' =>
               let keyword_lower := Py.lower (astype_str num_repr (Pd.get row col_keyword)) in
               first_matching_term (rule_pairs num_repr (session_rules events)) keyword_lower
                 = None ->
               match List.find (fun candidate =>
                                  Py.truthy candidate && Re.search_word candidate keyword_lower)
                               (brand_list num_repr bdf) with
               | Some term =>
                   exists name,
                     find_name term (Pd.col bdf col_brand_name) = Some name /\
                     Str name ∈ Pd.col bdf col_brand_name /\
                     Py.lower name = term /\
                     Pd.get row' col_brand_name = Str name /\
                     Pd.get row' col_brand = Str term /\
                     Pd.get row' col_kind = branded
               | None =>
                   Pd.get row' col_brand_name = Null /\
                   Pd.get row' col_brand = Null /\
                   Pd.get row' col_kind = non_branded
               end)
            (rows pdf) (rows df).
Proof.
  intros Hp Hb Hr Hrun.
  destruct (match_brands_returns num_repr h h' p b r out pdf bdf _ Hp Hb Hr Hrun)
    as (df & Htable & Hout).
  exists df. split; [done|].
  destruct (match_table_rows num_repr pdf bdf _ df Htable) as (mm & Hmm & _ & Hall).
  rewrite build_manual_map_session in Hmm. injection Hmm as <-.
  eapply Forall2_impl; [exact Hall|]. cbn beta zeta.
  intros row row' (found & Hfound & ->) Hmanual.
  fold (brand_list num_repr bdf) in Hfound.
  rewrite match_keyword_session in Hfound. cbn zeta in Hfound.
  rewrite Hmanual, brand_pass_find in Hfound.
  destruct (result_row_cells (Py.lower (astype_str num_repr (Pd.get row col_keyword)))
              found row) as (_ & _ & Hbn & Hbt & Hk & _).
  destruct (List.find _ (brand_list num_repr bdf)) as [term|].
  - destruct (original_brand bdf term) as [name|e] eqn:Ho; [|done].
    injection Hfound as <-. unfold original_brand in Ho.
    destruct (existsb _ _); [|done].
    destruct (find_name term _) as [s|] eqn:En; [|done]. injection Ho as ->.
    destruct (find_name_Some _ _ _ En) as [Hl Hin].
    exists name. split_and!; done.
  - injection Hfound as <-. done.
Qed.

End BrandList.

(** X12, witness: the brand table holds "Anker" and "anker"; the
    keyword "Anker Charger" is recorded under the first spelling. *)
Lemma match_brands_brand_list_witness :
  let pdf := keyword_table [keyword_row "Anker Charger" 100; keyword_row "usb cable" 50] in
  let bdf := brand_table [brand_row "Anker"; brand_row "anker"] in
  let h := [pdf; bdf; session_rules []] in
  let num_repr := fun _ : Q => Py.lit "0" in
  let run := match_brands num_repr (Some 0%nat) (Some 1%nat) 2%nat h in
  exists df,
    snd run !! 4%nat = Some df /\
    Forall2 (fun row row' =>
               let keyword_lower := Py.lower (astype_str num_repr (Pd.get row col_keyword)) in
               first_matching_term (rule_pairs num_repr (session_rules [])) keyword_lower
                 = None ->
               match List.find (fun candidate =>
                                  Py.truthy candidate && Re.search_word candidate keyword_lower)
                               (brand_list num_repr bdf) with
               | Some term =>
                   exists name,
                     find_name term (Pd.col bdf col_brand_name) = Some name /\
                     Str name ∈ Pd.col bdf col_brand_name /\
                     Py.lower name = term /\
                     Pd.get row' col_brand_name = Str name /\
                     Pd.get row' col_brand = Str term /\
                     Pd.get row' col_kind = branded
               | None =>
                   Pd.get row' col_brand_name = Null /\
                   Pd.get row' col_brand = Null /\
                   Pd.get row' col_kind = non_branded
               end)
            (rows pdf) (rows df).
Proof.
  intros pdf bdf h num_repr run.
  apply (match_brands_brand_list num_repr [] h (snd run) 0%nat 1%nat 2%nat 4%nat pdf bdf);
    [reflexivity..|vm_compute; reflexivity].
Defined.

(** ** The results tab *)

Lemma filter_length_split {A} (P : A -> bool) (l : list A) :
  (length (List.filter P l) + length (List.filter (fun x => negb (P x)) l))%nat = length l.
Proof.
  induction l as [|x l IH]; [done|]. cbn [List.filter].
  destruct (P x); cbn [negb length]; lia.
Qed.

Lemma filter_ext_Forall {A} (P Q : A -> bool) (l : list A) :
  Forall (fun x => P x = Q x) l -> List.filter P l = List.filter Q l.
Proof.
  induction 1 as [|x l Hx _ IH]; [done|]. cbn [List.filter]. by rewrite Hx, IH.
Qed.

Lemma filter_Permutation_split {A} (P : A -> bool) (l : list A) :
  Permutation (List.filter P l ++ List.filter (fun x => negb (P x)) l) l.
Proof.
  induction l as [|x l IH]; [done|]. cbn [List.filter].
  destruct (P x); cbn [negb app].
  - by constructor.
  - rewrite <- Permutation_middle. by constructor.
Qed.

Lemma classified_kind (r : gmap string cell) :
  classified r ->
  Pd.eq_value (Pd.get r col_kind) non_branded = negb (Pd.eq_value (Pd.get r col_kind) branded) /\
  Pd.eq_value (Pd.get r col_kind) branded = negb (Pd.isnull (Pd.get r col_brand_name)).
Proof.
  intros [(brand & term & _ & _ & _ & -> & _ & ->)|(-> & _ & ->)]; by vm_compute.
Qed.

Lemma percent_bounds (n m : nat) :
  (0 < m)%nat -> (n <= m)%nat ->
  (0 <= inject_Z (Z.of_nat n) / inject_Z (Z.of_nat m) * 100)%Q /\
  (inject_Z (Z.of_nat n) / inject_Z (Z.of_nat m) * 100 <= 100)%Q.
Proof.
  intros Hm Hnm.
  assert (Hm' : (0 < inject_Z (Z.of_nat m))%Q).
  { change 0%Q with (inject_Z 0). rewrite <- Zlt_Qlt. lia. }
  assert (Hn' : (0 <= inject_Z (Z.of_nat n))%Q).
  { change 0%Q with (inject_Z 0). rewrite <- Zle_Qle. lia. }
  assert (Hnm' : (inject_Z (Z.of_nat n) <= inject_Z (Z.of_nat m))%Q).
  { rewrite <- Zle_Qle. lia. }
  split.
  - apply Qmult_le_0_compat; [|done].
    apply Qle_shift_div_l; [done|]. by rewrite Qmult_0_l.
  - apply Qle_trans with (1 * 100)%Q; [|rewrite Qmult_1_l; apply Qle_refl].
    apply Qmult_le_compat_r; [|done].
    apply Qle_shift_div_r; [done|]. by rewrite Qmult_1_l.
Qed.

Section ResultsTab.

Variable num_repr : Q -> str.

(** X13: for a table [match_brands] returned, the figures of the results
    tab are defined (the percentage is never a division by zero): the
    total is the number of rows of the keyword table and is positive, the
    branded count is the number of rows with a brand name and is at most
    the total, the non-branded figure is the number of rows of kind
    Non-Branded, and the percentage lies between 0 and 100. *)
Theorem match_metrics_defined (h h' : heap) (p b r out : loc) (pdf bdf rdf : DataFrame) :
  h !! p = Some pdf -> h !! b = Some bdf -> h !! r = Some rdf ->
  match_brands num_repr (Some p) (Some b) r h = (Return (Some out), h') ->
  exists df branded_keywords percent,
    h' !! out = Some df /\
    match_metrics df =
      Some (length (rows pdf), branded_keywords,
            Z.of_nat (length (List.filter
                                (fun r => Pd.eq_value (Pd.get r col_kind) non_branded)
                                (rows df))),
            percent) /\
    (0 < length (rows pdf))%nat /\
    (branded_keywords <= length (rows pdf))%nat /\
    branded_keywords =
      length (List.filter (fun r => negb (Pd.isnull (Pd.get r col_brand_name))) (rows df)) /\
    (0 <= percent)%Q /\ (percent <= 100)%Q.
Proof.
  intros Hp Hb Hr Hrun.
  destruct (match_brands_returns num_repr h h' p b r out pdf bdf rdf Hp Hb Hr Hrun)
    as (df & Htable & Hout).
  pose proof (match_table_classified num_repr pdf bdf rdf df Htable) as Hcl.
  destruct (match_table_rows num_repr pdf bdf rdf df Htable) as (mm & _ & _ & Hall).
  pose proof (Forall2_length _ _ _ Hall) as Hlen.
  assert (Hpos : (0 < length (rows pdf))%nat).
  { destruct (rows pdf) eqn:E; [|cbn; lia]. exfalso.
    assert (H : Pd.empty pdf = true)
      by (unfold Pd.empty; rewrite E; by destruct (columns pdf)).
    pose proof (proj2 (match_table_None num_repr pdf bdf rdf) (or_introl H)) as Hn.
    rewrite Hn in Htable. done. }
  set (nb := length (List.filter (fun r => Pd.eq_value (Pd.get r col_kind) branded) (rows df))).
  assert (Hle : (nb <= length (rows df))%nat).
  { pose proof (filter_length_split (fun r => Pd.eq_value (Pd.get r col_kind) branded) (rows df)).
    unfold nb. cbv beta in H. lia. }
  destruct (percent_bounds nb (length (rows df))) as [Hp0 Hp100]; [lia|done|].
  exists df, nb, (inject_Z (Z.of_nat nb) / inject_Z (Z.of_nat (length (rows df))) * 100)%Q.
  split; [done|]. split_and!.
  - unfold match_metrics. cbn [Pd.filter_rows rows]. fold nb.
    destruct (Nat.eqb_spec (length (rows df)) 0) as [E|_]; [lia|].
    rewrite <- Hlen. do 3 f_equal.
    pose proof (filter_length_split (fun r => Pd.eq_value (Pd.get r col_kind) branded) (rows df))
      as Hsplit.
    rewrite (filter_ext_Forall (fun r => Pd.eq_value (Pd.get r col_kind) non_branded)
               (fun r => negb (Pd.eq_value (Pd.get r col_kind) branded))).
    + fold nb in Hsplit. lia.
    + eapply Forall_impl; [exact Hcl|]. intros r0 Hr0. by apply classified_kind.
  - done.
  - lia.
  - unfold nb. f_equal. apply filter_ext_Forall.
    eapply Forall_impl; [exact Hcl|]. intros r0 Hr0. by apply classified_kind.
  - done.
  - done.
Qed.

End ResultsTab.

(** X13, witness: the two sample keywords and the brand "ace". *)
Lemma match_metrics_defined_witness :
  let pdf := keyword_table [keyword_row "space" 100; keyword_row "ace pro" 50] in
  let bdf := brand_table [brand_row "ace"] in
  let h := [pdf; bdf; initial_rules] in
  let num_repr := fun _ : Q => Py.lit "0" in
  let run := match_brands num_repr (Some 0%nat) (Some 1%nat) 2%nat h in
  exists df branded_keywords percent,
    snd run !! 4%nat = Some df /\
    match_metrics df =
      Some (length (rows pdf), branded_keywords,
            Z.of_nat (length (List.filter
                                (fun r => Pd.eq_value (Pd.get r col_kind) non_branded)
                                (rows df))),
            percent) /\
    (0 < length (rows pdf))%nat /\
    (branded_keywords <= length (rows pdf))%nat /\
    branded_keywords =
      length (List.filter (fun r => negb (Pd.isnull (Pd.get r col_brand_name))) (rows df)) /\
    (0 <= percent)%Q /\ (percent <= 100)%Q.
Proof.
  intros pdf bdf h num_repr run.
  apply (match_metrics_defined num_repr h (snd run) 0%nat 1%nat 2%nat 4%nat
           pdf bdf initial_rules);
    [reflexivity..|vm_compute; reflexivity].
Defined.

Lemma unique_from_elem (seen cs : list cell) (c : cell) :
  c ∈ Pd.unique_from seen cs -> c ∈ cs.
Proof.
  revert seen. induction cs as [|c0 cs IH]; intros seen; cbn [Pd.unique_from]; [done|].
  destruct (existsb _ seen).
  - intros H. apply list_elem_of_further. by eapply IH.
  - intros H. apply elem_of_cons in H as [->|H]; [apply list_elem_of_here|].
    apply list_elem_of_further. by eapply IH.
Qed.

Lemma eq_value_refl_str (s : str) : Pd.eq_value (Str s) (Str s) = true.
Proof. cbn. by apply bool_decide_eq_true_2. Qed.

Lemma filter_brand_of_branded (l : list (gmap string cell)) (v : cell)
    (kind_ok : gmap string cell -> bool) :
  Forall classified l ->
  (forall row, Pd.get row col_kind = branded -> kind_ok row = true) ->
  List.filter (fun row => Pd.eq_value (Pd.get row col_brand_name) v) (List.filter kind_ok l)
  = List.filter (fun row => Pd.eq_value (Pd.get row col_brand_name) v) l.
Proof.
  intros Hcl Hok. induction Hcl as [|row rs Hrow _ IH]; [done|]. cbn [List.filter].
  destruct (Pd.eq_value (Pd.get row col_brand_name) v) eqn:Eb.
  - assert (Hkr : Pd.get row col_kind = branded).
    { destruct Hrow as [(? & ? & _ & _ & _ & _ & _ & ?)|(Hn & _ & _)]; [done|].
      by rewrite Hn in Eb. }
    rewrite (Hok row Hkr). cbn [List.filter]. by rewrite Eb, IH.
  - destruct (kind_ok row); cbn [List.filter]; [by rewrite Eb|done].
Qed.

Lemma filter_brand_of_non_branded (l : list (gmap string cell)) (v : cell) :
  Forall classified l ->
  List.filter (fun row => Pd.eq_value (Pd.get row col_brand_name) v)
              (List.filter (fun row => Pd.eq_value (Pd.get row col_kind) non_branded) l)
  = [].
Proof.
  intros Hcl. induction Hcl as [|row rs Hrow _ IH]; [done|]. cbn [List.filter].
  destruct (Pd.eq_value (Pd.get row col_kind) non_branded) eqn:Ek; [|exact IH].
  cbn [List.filter].
  destruct Hrow as [(? & ? & _ & _ & _ & _ & _ & Hk0)|(Hn & _ & _)].
  - by rewrite Hk0 in Ek.
  - rewrite Hn. cbn [Pd.eq_value]. exact IH.
Qed.

Section ResultFilters.

Variable num_repr : Q -> str.

(** X14: the filters of the results tab on a table [match_brands]
    returned.  With both filters on the choice that filters nothing the
    whole table is shown; the rows shown for Branded and those shown for
    Non-Branded together are the rows of the table, each once; every
    choice offered by the brand filter that differs from the choice that
    filters nothing (so: every brand of the table, but a brand whose name
    is the very text of that choice) selects at least one row, all rows
    it selects carry this brand and are Branded, so adding the Branded
    filter changes nothing and adding the Non-Branded filter leaves no
    row. *)
Theorem match_filters (h h' : heap) (p b r out : loc) (pdf bdf rdf : DataFrame) :
  h !! p = Some pdf -> h !! b = Some bdf -> h !! r = Some rdf ->
  match_brands num_repr (Some p) (Some b) r h = (Return (Some out), h') ->
  exists df,
    h' !! out = Some df /\
    apply_filters all_choice all_choice df = df /\
    Permutation (rows (apply_filters branded all_choice df) ++
                 rows (apply_filters non_branded all_choice df))
                (rows df) /\
    (forall choice, choice ∈ brand_options df -> choice <> all_choice ->
       rows (apply_filters all_choice choice df) <> [] /\
       Forall (fun row => Pd.get row col_brand_name = choice /\
                          Pd.get row col_kind = branded)
              (rows (apply_filters all_choice choice df)) /\
       apply_filters branded choice df = apply_filters all_choice choice df /\
       rows (apply_filters non_branded choice df) = []).
Proof.
  intros Hp Hb Hr Hrun.
  destruct (match_brands_returns num_repr h h' p b r out pdf bdf rdf Hp Hb Hr Hrun)
    as (df & Htable & Hout).
  pose proof (match_table_classified num_repr pdf bdf rdf df Htable) as Hcl.
  exists df. split; [done|]. split_and!.
  - unfold apply_filters. by destruct df.
  - unfold apply_filters.
    change (Pd.eq_value branded all_choice) with false.
    change (Pd.eq_value non_branded all_choice) with false.
    change (Pd.eq_value all_choice all_choice) with true.
    cbn [negb Pd.filter_rows rows].
    rewrite (filter_ext_Forall (fun r0 => Pd.eq_value (Pd.get r0 col_kind) non_branded)
               (fun r0 => negb (Pd.eq_value (Pd.get r0 col_kind) branded))).
    + apply (filter_Permutation_split (fun r0 => Pd.eq_value (Pd.get r0 col_kind) branded)).
    + eapply Forall_impl; [exact Hcl|]. intros r0 Hr0. by apply classified_kind.
  - intros choice Hin Hne. unfold brand_options in Hin.
    apply elem_of_cons in Hin as [?|Hin]; [done|].
    apply unique_from_elem, list_elem_of_In, filter_In in Hin as [Hin Hnn].
    apply in_map_iff in Hin as (r0 & Hget & Hr0).
    rewrite Forall_forall in Hcl.
    pose proof (Hcl r0 (proj2 (list_elem_of_In _ _) Hr0)) as Hclr.
    destruct Hclr as [(brand & term & _ & _ & _ & Hbn & _ & Hk)|(Hbn & _ & _)];
      [|rewrite Hbn in Hget; by subst choice].
    rewrite Hbn in Hget. subst choice.
    assert (Hnall : Pd.eq_value (Str brand) all_choice = false).
    { cbn. apply bool_decide_eq_false_2. intros ->. by apply Hne. }
    unfold apply_filters.
    change (Pd.eq_value branded all_choice) with false.
    change (Pd.eq_value non_branded all_choice) with false.
    change (Pd.eq_value all_choice all_choice) with true.
    rewrite Hnall. cbn [negb]. unfold Pd.filter_rows. cbn [rows columns].
    split_and!.
    + intros Hnil.
      assert (Hmem : In r0 (List.filter
                              (fun row => Pd.eq_value (Pd.get row col_brand_name) (Str brand))
                              (rows df))).
      { apply filter_In. split; [done|]. rewrite Hbn. apply eq_value_refl_str. }
      by rewrite Hnil in Hmem.
    + apply Forall_forall. intros row Hrow.
      apply list_elem_of_In, filter_In in Hrow as [Hrow Heq].
      destruct (Hcl row (proj2 (list_elem_of_In _ _) Hrow))
        as [(b0 & t0 & _ & _ & _ & Hb0 & _ & Hk0)|(Hn & _ & _)];
        [|by rewrite Hn in Heq].
      split; [|done]. rewrite Hb0 in *. cbn in Heq.
      apply bool_decide_eq_true_1 in Heq. by subst.
    + f_equal. apply filter_brand_of_branded; [by apply Forall_forall|].
      intros row ->. reflexivity.
    + apply filter_brand_of_non_branded. by apply Forall_forall.
Qed.

End ResultFilters.

(** X14, witness: the same run. *)
Lemma match_filters_witness :
  let pdf := keyword_table [keyword_row "space" 100; keyword_row "ace pro" 50] in
  let bdf := brand_table [brand_row "ace"] in
  let h := [pdf; bdf; initial_rules] in
  let num_repr := fun _ : Q => Py.lit "0" in
  let run := match_brands num_repr (Some 0%nat) (Some 1%nat) 2%nat h in
  exists df,
    snd run !! 4%nat = Some df /\
    apply_filters all_choice all_choice df = df /\
    Permutation (rows (apply_filters branded all_choice df) ++
                 rows (apply_filters non_branded all_choice df))
                (rows df) /\
    (forall choice, choice ∈ brand_options df -> choice <> all_choice ->
       rows (apply_filters all_choice choice df) <> [] /\
       Forall (fun row => Pd.get row col_brand_name = choice /\
                          Pd.get row col_kind = branded)
              (rows (apply_filters all_choice choice df)) /\
       apply_filters branded choice df = apply_filters all_choice choice df /\
       rows (apply_filters non_branded choice df) = []).
Proof.
  intros pdf bdf h num_repr run.
  apply (match_filters num_repr h (snd run) 0%nat 1%nat 2%nat 4%nat pdf bdf initial_rules);
    [reflexivity..|vm_compute; reflexivity].
Defined.

(** ** What [process_product_data] returns *)

Lemma omap_lookup_Forall {A} (P : A -> Prop) (l : list A) (idx : list nat) :
  Forall P l -> Forall P (omap (fun i => l !! i) idx).
Proof.
  intros H. apply Forall_forall. intros x Hx.
  apply list_elem_of_omap in Hx as (i & _ & Hi).
  rewrite Forall_forall in H. apply H. apply list_elem_of_lookup. by exists i.
Qed.

Lemma columns_with_rank_columns (np : Np.arith) (d : DataFrame) :
  columns (with_rank_columns np d) =
  Pd.union_columns (columns d) [col_rank; col_cumsum; col_share].
Proof. reflexivity. Qed.

Section ProcessResult.

Variable parse_number : str -> option Q.
Variable argsort_desc : list Q -> list nat.
Variable np : Np.arith.

Lemma empty_cleaned (df : DataFrame) :
  Pd.has_column df col_volume = true ->
  Pd.empty (cleaned parse_number df) = true <-> surviving parse_number df = [].
Proof.
  intros Hv. unfold Pd.empty. rewrite (columns_cleaned parse_number df Hv), rows_cleaned.
  unfold Pd.has_column in Hv. apply bool_decide_eq_true_1 in Hv.
  destruct (columns df); [by apply not_elem_of_nil in Hv|].
  by destruct (surviving parse_number df).
Qed.

Lemma process_product_data_Some (df out : DataFrame) :
  Pd.has_column df col_keyword = true -> Pd.has_column df col_volume = true ->
  process_product_data parse_number argsort_desc np df = Some out ->
  let sorted := rows (sort_values_desc argsort_desc (cleaned parse_number df) col_volume) in
  Forall (fun r => Pd.get r col_volume = Num (volume r) /\ (0 < volume r)%Q) sorted /\
  rows out = imap (fun i r => ranked i (np_total np (map volume sorted))
                                (nth i (np_running np None (map volume sorted)) 0%Q) r)
                  sorted /\
  columns out = Pd.union_columns (columns df) [col_rank; col_cumsum; col_share].
Proof.
  intros Hk Hv. rewrite (process_product_data_unfold parse_number argsort_desc np df Hk Hv).
  destruct (Pd.empty (cleaned parse_number df)); [done|]. intros [= <-]. intros sorted.
  assert (Hpos : Forall (fun r => Pd.get r col_volume = Num (volume r) /\ (0 < volume r)%Q)
                        sorted).
  { unfold sorted, sort_values_desc. cbn [rows]. apply omap_lookup_Forall.
    rewrite rows_cleaned. apply surviving_positive. }
  split; [done|]. split.
  - apply (rows_with_rank_columns np
             (columns (sort_values_desc argsort_desc (cleaned parse_number df) col_volume))
             sorted).
    eapply Forall_impl; [exact Hpos|]. by intros ? [? _].
  - rewrite columns_with_rank_columns. cbn [sort_values_desc columns].
    by rewrite (columns_cleaned parse_number df Hv).
Qed.

(** X15: [process_product_data] gives no table (Python's None) exactly
    when the table lacks the keyword column or the volume column, or no row
    has a volume that reads as a positive number. *)
Theorem process_product_data_None (df : DataFrame) :
  process_product_data parse_number argsort_desc np df = None <->
  Pd.has_column df col_keyword = false \/ Pd.has_column df col_volume = false \/
  surviving parse_number df = [].
Proof.
  destruct (Pd.has_column df col_keyword) eqn:Hk.
  - destruct (Pd.has_column df col_volume) eqn:Hv.
    + rewrite (process_product_data_unfold parse_number argsort_desc np df Hk Hv).
      pose proof (empty_cleaned df Hv) as He.
      destruct (Pd.empty (cleaned parse_number df)).
      * split; [intros _|done]. right. right. by apply He.
      * split; [done|]. intros [?|[?|Hs]]; [done..|]. by apply He in Hs.
    + unfold process_product_data. rewrite Hk, Hv. cbn. split; [auto|done].
  - unfold process_product_data. rewrite Hk. cbn. split; [auto|done].
Qed.

End ProcessResult.

Lemma union_columns_prefix (acc cs : list string) :
  exists new, Pd.union_columns acc cs = acc ++ new.
Proof.
  unfold Pd.union_columns. revert acc. induction cs as [|c cs IH]; intros acc; cbn [fold_left].
  - exists []. by rewrite app_nil_r.
  - case_bool_decide.
    + apply IH.
    + destruct (IH (acc ++ [c])) as (new & ->). exists (c :: new). by rewrite <- app_assoc.
Qed.

Lemma filter_head_spec {A} (P : A -> bool) (l : list A) (x : A) (rest : list A) :
  List.filter P l = x :: rest ->
  exists k, l !! k = Some x /\ P x = true /\
            forall j y, (j < k)%nat -> l !! j = Some y -> P y = false.
Proof.
  induction l as [|a l IH]; [done|]. cbn [List.filter].
  destruct (P a) eqn:Ea.
  - intros [= -> _]. exists 0%nat. split_and!; [done..|]. intros j y Hj. lia.
  - intros H. destruct (IH H) as (k & Hk & HP & Hbefore).
    exists (S k). split_and!; [done..|].
    intros [|j] y Hj Hy; [by injection Hy as <-|].
    apply (Hbefore j y); [lia|done].
Qed.

Lemma get_list_to_map (f : string -> cell) (cs : list string) (c : string) :
  c ∈ cs -> Pd.get (list_to_map (map (fun c => (c, f c)) cs)) c = f c.
Proof.
  unfold Pd.get. induction cs as [|c0 cs IH]; intros Hin.
  - by apply not_elem_of_nil in Hin.
  - cbn [map list_to_map foldr]. destruct (decide (c0 = c)) as [->|Hne].
    + by rewrite lookup_insert_eq.
    + rewrite lookup_insert_ne by done. apply IH.
      apply elem_of_cons in Hin as [?|?]; congruence.
Qed.

Section RankingTab.

Variable parse_number : str -> option Q.
Variable argsort_desc : list Q -> list nat.
Variable np : Np.arith.

(** X16: the table [process_product_data] returns keeps the columns of
    its input in their order and adds the rank, the cumulative sum and the
    cumulative share at the end, each only when the input has no column of
    that name (a column of that name is overwritten where it stands).  The
    ranking tab displays all columns but the two cumulative ones, so, of
    the three, the rank only; the selection of these columns succeeds and
    shows the cells of the result unchanged. *)
Theorem ranking_display (df out : DataFrame) :
  Pd.has_column df col_keyword = true -> Pd.has_column df col_volume = true ->
  process_product_data parse_number argsort_desc np df = Some out ->
  columns out = Pd.union_columns (columns df) [col_rank; col_cumsum; col_share] /\
  display_columns out =
    List.filter (fun c => negb (bool_decide (c ∈ [col_share; col_cumsum]))) (columns df) ++
    (if Pd.has_column df col_rank then [] else [col_rank]) /\
  exists shown,
    Pd.select out (display_columns out) = Some shown /\
    columns shown = display_columns out /\
    Forall2 (fun r r' => forall c, c ∈ display_columns out -> Pd.get r' c = Pd.get r c)
            (rows out) (rows shown).
Proof.
  intros Hk Hv Hout.
  destruct (process_product_data_Some parse_number argsort_desc np df out Hk Hv Hout)
    as (_ & _ & Hcols).
  split; [done|].
  assert (Hr1 : col_rank <> col_cumsum) by (intros H; vm_compute in H; discriminate).
  assert (Hr2 : col_rank <> col_share) by (intros H; vm_compute in H; discriminate).
  assert (Hr3 : col_cumsum <> col_share) by (intros H; vm_compute in H; discriminate).
  split.
  - unfold display_columns. rewrite Hcols. unfold Pd.union_columns, Pd.has_column.
    cbn [fold_left].
    set (P := fun c => negb (bool_decide (c ∈ [col_share; col_cumsum]))).
    assert (HPr : List.filter P [col_rank] = [col_rank]) by (vm_compute; reflexivity).
    assert (HPc : List.filter P [col_cumsum] = []) by (vm_compute; reflexivity).
    assert (HPs : List.filter P [col_share] = []) by (vm_compute; reflexivity).
    destruct (decide (col_rank ∈ columns df)) as [H1|H1];
      [rewrite !(bool_decide_eq_true_2 (col_rank ∈ columns df)) by done
      |rewrite !(bool_decide_eq_false_2 (col_rank ∈ columns df)) by done];
      (destruct (decide (col_cumsum ∈ columns df)) as [H2|H2];
       [rewrite !(bool_decide_eq_true_2 (col_cumsum ∈ _)) by (rewrite ?elem_of_app, ?list_elem_of_singleton; intuition congruence)
       |rewrite !(bool_decide_eq_false_2 (col_cumsum ∈ _)) by (rewrite ?elem_of_app, ?list_elem_of_singleton; intuition congruence)]);
      (destruct (decide (col_share ∈ columns df)) as [H3|H3];
       [rewrite !(bool_decide_eq_true_2 (col_share ∈ _)) by (rewrite ?elem_of_app, ?list_elem_of_singleton; intuition congruence)
       |rewrite !(bool_decide_eq_false_2 (col_share ∈ _)) by (rewrite ?elem_of_app, ?list_elem_of_singleton; intuition congruence)]);
      rewrite ?List.filter_app, ?HPr, ?HPc, ?HPs, ?app_nil_r; reflexivity.
  - unfold Pd.select.
    assert (Hall : forallb (Pd.has_column out) (display_columns out) = true).
    { apply forallb_forall. intros c Hc. unfold display_columns in Hc.
      apply filter_In in Hc as [Hc _]. unfold Pd.has_column.
      apply bool_decide_eq_true_2. by apply list_elem_of_In. }
    rewrite Hall. eexists. split; [reflexivity|]. split; [reflexivity|].
    cbn [rows]. apply Forall2_fmap_r, Forall_Forall2_diag, Forall_forall.
    intros r _ c Hc. by apply get_list_to_map.
Qed.

End RankingTab.

(** X16, witness: the sample of five keywords. *)
Lemma ranking_display_witness :
  let parse_number := fun _ : str => @None Q in
  let df := sample_keywords in
  exists out,
    process_product_data parse_number insertion_argsort Np.int64 df = Some out /\
    columns out = Pd.union_columns (columns df) [col_rank; col_cumsum; col_share] /\
    display_columns out =
      List.filter (fun c => negb (bool_decide (c ∈ [col_share; col_cumsum]))) (columns df) ++
      (if Pd.has_column df col_rank then [] else [col_rank]) /\
    exists shown,
      Pd.select out (display_columns out) = Some shown /\
      columns shown = display_columns out /\
      Forall2 (fun r r' => forall c, c ∈ display_columns out -> Pd.get r' c = Pd.get r c)
              (rows out) (rows shown).
Proof.
  intros parse_number df. eexists. split; [vm_compute; reflexivity|].
  apply (ranking_display parse_number insertion_argsort Np.int64 df); reflexivity.
Defined.

Section SixtyPercent.

Variable parse_number : str -> option Q.
Variable argsort_desc : list Q -> list nat.
Variable np : Np.arith.

(** The texts [pd.to_numeric] reads as an infinity (inf, Infinity, 1e999
    and the like).  The reading of such a text is no number cell: the
    statement leaves aside the tables that hold one as a volume. *)
Variable infinite : str -> bool.

Hypothesis argsort_perm :
  forall keys, Permutation (argsort_desc keys) (seq 0 (length keys)).
Hypothesis np_exact : exact_below_2_53 np.

(** X17: on a table whose volumes that read as positive numbers are whole
    numbers with a total below 2^53 (and none of whose volumes reads as an
    infinity), whenever [process_product_data] returns a table, the ranking
    tab names a rank in its 60% notice (the notice that no keyword reaches
    60% is not shown): it is the rank of the first row whose cumulative
    share is at least the float64 0.6, and every row before it has a share
    below it.  The sort is taken to return a permutation of the positions,
    and sums below 2^53 to be exact. *)
Theorem rank_60_percent_first (df out : DataFrame) :
  Pd.has_column df col_keyword = true -> Pd.has_column df col_volume = true ->
  finite_volumes infinite df = true ->
  Forall (fun r => whole (volume r) = true) (surviving parse_number df) ->
  (qsum (map volume (surviving parse_number df)) < inject_Z (2 ^ 53))%Q ->
  process_product_data parse_number argsort_desc np df = Some out ->
  exists (k : nat) (row : gmap string cell) (share : Q),
    rank_60_percent out = Some (Num (inject_Z (Z.of_nat (S k)))) /\
    rows out !! k = Some row /\
    Pd.get row col_rank = Num (inject_Z (Z.of_nat (S k))) /\
    Pd.get row col_share = Num share /\ (point_six <= share)%Q /\
    forall j row', (j < k)%nat -> rows out !! j = Some row' ->
      exists share', Pd.get row' col_share = Num share' /\ (share' < point_six)%Q.
Proof.
  intros Hk Hv _ Hwhole Hbound Hout.
  destruct (process_product_data_Some parse_number argsort_desc np df out Hk Hv Hout)
    as (Hpos & Hrows & Hcols).
  set (sorted := rows (sort_values_desc argsort_desc (cleaned parse_number df) col_volume))
    in *.
  set (vols := map volume sorted) in *.
  assert (Hsurv : surviving parse_number df <> []).
  { intros E.
    rewrite (process_product_data_unfold parse_number argsort_desc np df Hk Hv) in Hout.
    by rewrite (proj2 (empty_cleaned parse_number df Hv) E) in Hout. }
  assert (Hperm : Permutation sorted (surviving parse_number df)).
  { unfold sorted, sort_values_desc. cbn [rows]. rewrite <- rows_cleaned.
    apply take_rows_Permutation.
    rewrite <- (length_map (fun r => num (Pd.get r col_volume))). apply argsort_perm. }
  assert (Hsne : sorted <> []).
  { intros E. rewrite E in Hperm. by apply Permutation_nil in Hperm. }
  assert (Hvne : vols <> []) by (unfold vols; by destruct sorted).
  assert (Hvpos : Forall (fun q => (0 < q)%Q) vols).
  { apply Forall_map. eapply Forall_impl; [exact Hpos|]. by intros ? [_ ?]. }
  assert (Hvw : Forall (fun v => (0 < v)%Q /\ whole v = true) vols).
  { apply Forall_map. rewrite <- Hperm in Hwhole.
    apply Forall_forall. intros r Hr. rewrite Forall_forall in Hpos, Hwhole.
    split; [by apply Hpos|by apply Hwhole]. }
  assert (Hvb : (qsum vols < inject_Z (2 ^ 53))%Q).
  { unfold vols. rewrite (qsum_Permutation _ (map volume (surviving parse_number df)));
      [done|]. by apply Permutation_map. }
  destruct (exact_figures np np_exact vols Hvw Hvb) as [_ Hfig].
  assert (Hshare : forall i row, rows out !! i = Some row ->
             Pd.get row col_rank = Num (inject_Z (Z.of_nat (S i))) /\
             Pd.get row col_share =
               Num (Float64.div (nth i (np_running np None vols) 0%Q) (np_total np vols))).
  { intros i row Hi. rewrite Hrows, list_lookup_imap in Hi.
    destruct (sorted !! i) as [r|]; [|done]. injection Hi as <-.
    by destruct (ranked_cells i (np_total np vols) (nth i (np_running np None vols) 0%Q) r)
      as (? & _ & ? & _). }
  set (P := fun r : gmap string cell => reaches point_six (Pd.get r col_share)).
  assert (Hlast : exists row, rows out !! (length vols - 1)%nat = Some row /\ P row = true).
  { assert (Hlt : (length vols - 1 < length (rows out))%nat).
    { rewrite Hrows, length_imap. unfold vols. rewrite length_map.
      destruct sorted; [done|]. cbn. lia. }
    apply lookup_lt_is_Some in Hlt as (row & Hrow). exists row. split; [done|].
    destruct (Hshare _ _ Hrow) as [_ Hs]. unfold P. rewrite Hs. cbn [reaches].
    apply Qle_bool_iff.
    assert (Hi : (length vols - 1 < length vols)%nat) by (destruct vols; [done|cbn; lia]).
    destruct (Hfig _ Hi) as (_ & -> & _).
    rewrite (round_comp _ 1); [rewrite round_1; by vm_compute| |by apply share_last].
    by destruct (share_bounds vols (length vols - 1) Hvne Hvpos). }
  destruct Hlast as (lastrow & Hlastrow & HPlast).
  destruct (List.filter P (rows out)) as [|row rest] eqn:Ef.
  { assert (Hin : In lastrow (List.filter P (rows out))).
    { apply filter_In. split; [|done]. apply list_elem_of_In, list_elem_of_lookup. eauto. }
    by rewrite Ef in Hin. }
  destruct (filter_head_spec P (rows out) row rest Ef) as (k & Hkrow & HPk & Hbefore).
  destruct (Hshare k row Hkrow) as [Hrank Hs].
  eexists k, row, _. split_and!; [|done|done|exact Hs| |].
  - unfold rank_60_percent, Pd.filter_rows, Pd.empty. cbn [columns rows].
    change (List.filter _ (rows out)) with (List.filter P (rows out)).
    rewrite Ef, Hcols.
    destruct (union_columns_prefix (columns df) [col_rank; col_cumsum; col_share])
      as (new & ->).
    unfold Pd.has_column in Hk. apply bool_decide_eq_true_1 in Hk.
    destruct (columns df) as [|c0 cs]; [by apply not_elem_of_nil in Hk|].
    cbn [app]. by rewrite Hrank.
  - unfold P in HPk. rewrite Hs in HPk. cbn [reaches] in HPk. by apply Qle_bool_iff.
  - intros j row' Hj Hrow'. destruct (Hshare j row' Hrow') as [_ Hs'].
    eexists. split; [exact Hs'|].
    pose proof (Hbefore j row' Hj Hrow') as HPj. unfold P in HPj.
    rewrite Hs' in HPj. cbn [reaches] in HPj.
    apply Qnot_le_lt. intros Hle. apply Qle_bool_iff in Hle. congruence.
Qed.

End SixtyPercent.

(** X17, witness: the sample of five keywords, sorted by insertion, in an
    int64 column. *)
Lemma rank_60_percent_first_witness :
  let parse_number := fun _ : str => @None Q in
  let df := sample_keywords in
  exists out (k : nat) (row : gmap string cell) (share : Q),
    process_product_data parse_number insertion_argsort Np.int64 df = Some out /\
    rank_60_percent out = Some (Num (inject_Z (Z.of_nat (S k)))) /\
    rows out !! k = Some row /\
    Pd.get row col_rank = Num (inject_Z (Z.of_nat (S k))) /\
    Pd.get row col_share = Num share /\ (point_six <= share)%Q /\
    forall j row', (j < k)%nat -> rows out !! j = Some row' ->
      exists share', Pd.get row' col_share = Num share' /\ (share' < point_six)%Q.
Proof.
  intros parse_number df.
  destruct (process_product_data parse_number insertion_argsort Np.int64 df)
    as [out|] eqn:E; [|vm_compute in E; discriminate E].
  exists out.
  assert (Hwhole : Forall (fun r => whole (volume r) = true) (surviving parse_number df))
    by (apply Forall_forallb_true; vm_compute; reflexivity).
  assert (Hbound : (qsum (map volume (surviving parse_number df)) < inject_Z (2 ^ 53))%Q)
    by (vm_compute; reflexivity).
  destruct (rank_60_percent_first parse_number insertion_argsort Np.int64 (fun _ => false)
              insertion_argsort_perm int64_exact
              df out eq_refl eq_refl eq_refl Hwhole Hbound E) as (k & row & share & H).
  exists k, row, share. split; [reflexivity|exact H].
Defined.

(** The threshold is the float64 0.6 and a share is a float64.  Of two
    keywords of volumes 3000000000000001 and 2000000000000001 the first
    has, as a fraction, a share below 6/10; the float64 nearest to it is
    the float64 0.6, and the notice names rank 1. *)
Lemma rank_60_percent_rounds :
  let df := keyword_table [keyword_row "a" 3000000000000001;
                           keyword_row "b" 2000000000000001] in
  (3000000000000001 # 5000000000000002 < 6 # 10)%Q /\
  (Float64.div 3000000000000001 5000000000000002 == point_six)%Q /\
  rank_60_percent <$> process_product_data (fun _ => None) insertion_argsort Np.int64 df
    = Some (Some (Num 1)).
Proof. split_and!; vm_compute; reflexivity. Qed.

(** ** Rows of equal volume *)

Lemma Forall2_Qeq_refl (l : list Q) : Forall2 Qeq l l.
Proof. induction l; constructor; [reflexivity|done]. Qed.

Lemma Forall2_Qeq_trans (l1 l2 l3 : list Q) :
  Forall2 Qeq l1 l2 -> Forall2 Qeq l2 l3 -> Forall2 Qeq l1 l3.
Proof.
  intros H. revert l3. induction H as [|x y l1 l2 Hxy _ IH]; intros l3 H'.
  - by inversion H'.
  - inversion H' as [|y' z l2' l3' Hyz Hrest]; subst. constructor; [|by apply IH].
    by rewrite Hxy.
Qed.

Lemma sorted_desc_Qeq (l l' : list Q) :
  Forall2 Qeq l l' ->
  StronglySorted (fun a b => (b <= a)%Q) l -> StronglySorted (fun a b => (b <= a)%Q) l'.
Proof.
  induction 1 as [|x y l l' Hxy Hll IH]; intros Hs; [constructor|].
  apply StronglySorted_inv in Hs as [Hs Hx]. constructor; [by apply IH|].
  clear IH Hs. induction Hll as [|x' y' l l' Hxy' _ IH]; [constructor|].
  apply Forall_cons in Hx as [Hx' Hx]. constructor; [|by apply IH].
  by rewrite <- Hxy, <- Hxy'.
Qed.

(** Two arrangements of the same numbers in never-increasing order hold
    equal numbers at every position. *)
Lemma sorted_desc_unique (l1 l2 : list Q) :
  Permutation l1 l2 ->
  StronglySorted (fun a b => (b <= a)%Q) l1 ->
  StronglySorted (fun a b => (b <= a)%Q) l2 ->
  Forall2 Qeq l1 l2.
Proof.
  revert l2. induction l1 as [|a l1 IH]; intros l2 Hperm Hs1 Hs2.
  - apply Permutation_nil in Hperm. subst. constructor.
  - destruct l2 as [|b l2]; [by apply Permutation_sym, Permutation_nil in Hperm|].
    apply StronglySorted_inv in Hs1 as [Hs1 Ha].
    pose proof Hs2 as Hs2full.
    apply StronglySorted_inv in Hs2 as [Hs2 Hb].
    assert (Hab : (a <= b)%Q).
    { assert (Hin : In a (b :: l2)) by (eapply Permutation_in; [exact Hperm|by left]).
      destruct Hin as [->|Hin]; [apply Qle_refl|].
      rewrite Forall_forall in Hb. apply Hb. by apply list_elem_of_In. }
    assert (Hba : (b <= a)%Q).
    { assert (Hin : In b (a :: l1))
        by (eapply Permutation_in; [symmetry; exact Hperm|by left]).
      destruct Hin as [->|Hin]; [apply Qle_refl|].
      rewrite Forall_forall in Ha. apply Ha. by apply list_elem_of_In. }
    assert (Heq : (a == b)%Q) by (by apply Qle_antisym).
    constructor; [exact Heq|].
    assert (Hin : In a (b :: l2)) by (eapply Permutation_in; [exact Hperm|by left]).
    destruct Hin as [->|Hin].
    + apply IH; [by eapply Permutation_cons_inv|done..].
    + apply in_split in Hin as (u & v & ->).
      assert (Hp' : Permutation l1 (u ++ b :: v)).
      { apply (Permutation_cons_inv (a := a)). rewrite Hperm.
        rewrite <- !Permutation_middle. apply perm_swap. }
      assert (Hq : Forall2 Qeq (u ++ b :: v) (u ++ a :: v)).
      { apply Forall2_app; [apply Forall2_Qeq_refl|].
        constructor; [by symmetry|apply Forall2_Qeq_refl]. }
      apply Forall2_Qeq_trans with (u ++ b :: v); [|exact Hq].
      apply IH; [done..|].
      apply (sorted_desc_Qeq (u ++ a :: v)); [|done].
      apply Forall2_app; [apply Forall2_Qeq_refl|].
      constructor; [done|apply Forall2_Qeq_refl].
Qed.

(** Numbers are handed to the arithmetic in lowest terms, so equal numbers
    give the same sums. *)
Lemma map_Qred_Qeq (l1 l2 : list Q) : Forall2 Qeq l1 l2 -> map Qred l1 = map Qred l2.
Proof.
  induction 1 as [|x y l1 l2 Hxy _ IH]; [done|]. cbn [map].
  by rewrite (Qred_complete x y Hxy), IH.
Qed.

Lemma np_running_Qeq (np : Np.arith) (acc : option Q) (l1 l2 : list Q) :
  Forall2 Qeq l1 l2 -> np_running np acc l1 = np_running np acc l2.
Proof.
  intros H. revert acc. induction H as [|x y l1 l2 Hxy _ IH]; intros acc; [done|].
  cbn [np_running]. rewrite (Qred_complete x y Hxy). by rewrite IH.
Qed.

Lemma np_total_Qeq (np : Np.arith) (l1 l2 : list Q) :
  Forall2 Qeq l1 l2 -> np_total np l1 = np_total np l2.
Proof. intros H. unfold np_total. by rewrite (map_Qred_Qeq l1 l2 H). Qed.

Lemma filter_head_Forall2 {A B} (R : A -> A -> Prop) (P : A -> bool) (f : A -> B)
    (l1 l2 : list A) :
  (forall x y, R x y -> P x = P y /\ f x = f y) ->
  Forall2 R l1 l2 ->
  f <$> head (List.filter P l1) = f <$> head (List.filter P l2).
Proof.
  intros HR. induction 1 as [|x y l1 l2 Hxy _ IH]; [done|]. cbn [List.filter].
  destruct (HR x y Hxy) as [HP Hf]. rewrite <- HP. destruct (P x); [|exact IH].
  cbn. by rewrite Hf.
Qed.

Lemma reaches_cell_eqb (threshold : Q) (a b : cell) :
  Pd.cell_eqb a b = true -> reaches threshold a = reaches threshold b.
Proof.
  destruct a as [|p|s], b as [|q|t]; cbn [Pd.cell_eqb reaches]; try done.
  intros E. apply Qeq_bool_iff in E.
  destruct (Qle_bool threshold p) eqn:Hp, (Qle_bool threshold q) eqn:Hq; try done.
  - apply Qle_bool_iff in Hp. rewrite E in Hp. apply Qle_bool_iff in Hp. congruence.
  - apply Qle_bool_iff in Hq. rewrite <- E in Hq. apply Qle_bool_iff in Hq. congruence.
Qed.

Section TieOrder.

Variable parse_number : str -> option Q.
Variables sorter1 sorter2 : list Q -> list nat.
Variable np : Np.arith.

Hypothesis sorter1_perm :
  forall keys, Permutation (sorter1 keys) (seq 0 (length keys)).
Hypothesis sorter1_sorted :
  forall keys, StronglySorted (fun i j => (nth j keys 0 <= nth i keys 0)%Q) (sorter1 keys).
Hypothesis sorter2_perm :
  forall keys, Permutation (sorter2 keys) (seq 0 (length keys)).
Hypothesis sorter2_sorted :
  forall keys, StronglySorted (fun i j => (nth j keys 0 <= nth i keys 0)%Q) (sorter2 keys).

Lemma sorted_volumes (sorter : list Q -> list nat) (df : DataFrame) :
  (forall keys, Permutation (sorter keys) (seq 0 (length keys))) ->
  (forall keys, StronglySorted (fun i j => (nth j keys 0 <= nth i keys 0)%Q)
                               (sorter keys)) ->
  let sorted := rows (sort_values_desc sorter (cleaned parse_number df) col_volume) in
  Permutation (map volume sorted) (map volume (surviving parse_number df)) /\
  StronglySorted (fun a b => (b <= a)%Q) (map volume sorted).
Proof.
  intros Hperm Hsorted sorted.
  set (clean := cleaned parse_number df).
  set (keys := map (fun r => num (Pd.get r col_volume)) (rows clean)).
  assert (Hdef : sorted = omap (fun i => rows clean !! i) (sorter keys)) by reflexivity.
  split.
  - apply Permutation_map. rewrite Hdef, <- rows_cleaned. apply take_rows_Permutation.
    rewrite <- (length_map (fun r => num (Pd.get r col_volume))). apply Hperm.
  - assert (Hrows : StronglySorted (fun r1 r2 => (volume r2 <= volume r1)%Q) sorted).
    { rewrite Hdef. apply take_rows_sorted; [|apply Hsorted].
      apply Forall_forall. intros i Hi. rewrite (Hperm keys) in Hi.
      apply elem_of_seq in Hi. unfold keys in Hi. rewrite length_map in Hi. lia. }
    clear -Hrows. induction Hrows as [|r l _ IH Hr]; [constructor|]. cbn [map].
    constructor; [exact IH|]. by apply Forall_map.
Qed.

(** X18: the figures of the ranking do not depend on how the sort orders
    rows of equal volume.  For two sorts that both return the rows in an
    order of never-increasing volume, the two results have the same
    columns and, position by position, equal volumes, the same rank, equal
    cumulative sums and equal cumulative shares, and the 60% notice names
    the same rank.  (Equal means equal as numbers; the arithmetic of the
    column is any.) *)
Theorem ranking_figures_whatever_the_tie_order (df out1 out2 : DataFrame) :
  Pd.has_column df col_keyword = true -> Pd.has_column df col_volume = true ->
  process_product_data parse_number sorter1 np df = Some out1 ->
  process_product_data parse_number sorter2 np df = Some out2 ->
  columns out1 = columns out2 /\
  Forall2 (fun row1 row2 =>
             Pd.cell_eqb (Pd.get row1 col_volume) (Pd.get row2 col_volume) = true /\
             Pd.get row1 col_rank = Pd.get row2 col_rank /\
             Pd.cell_eqb (Pd.get row1 col_cumsum) (Pd.get row2 col_cumsum) = true /\
             Pd.cell_eqb (Pd.get row1 col_share) (Pd.get row2 col_share) = true)
          (rows out1) (rows out2) /\
  rank_60_percent out1 = rank_60_percent out2.
Proof.
  intros Hk Hv Hout1 Hout2.
  destruct (process_product_data_Some parse_number sorter1 np df out1 Hk Hv Hout1)
    as (Hpos1 & Hrows1 & Hcols1).
  destruct (process_product_data_Some parse_number sorter2 np df out2 Hk Hv Hout2)
    as (Hpos2 & Hrows2 & Hcols2).
  destruct (sorted_volumes sorter1 df sorter1_perm sorter1_sorted) as [Hp1 Hs1].
  destruct (sorted_volumes sorter2 df sorter2_perm sorter2_sorted) as [Hp2 Hs2].
  set (sorted1 := rows (sort_values_desc sorter1 (cleaned parse_number df) col_volume)) in *.
  set (sorted2 := rows (sort_values_desc sorter2 (cleaned parse_number df) col_volume)) in *.
  assert (Hvols : Forall2 Qeq (map volume sorted1) (map volume sorted2)).
  { apply sorted_desc_unique; [|done..]. by rewrite Hp1, Hp2. }
  assert (Hlen : length sorted1 = length sorted2).
  { apply Forall2_length in Hvols. by rewrite !length_map in Hvols. }
  assert (Hall : Forall2 (fun row1 row2 =>
             Pd.cell_eqb (Pd.get row1 col_volume) (Pd.get row2 col_volume) = true /\
             Pd.get row1 col_rank = Pd.get row2 col_rank /\
             Pd.cell_eqb (Pd.get row1 col_cumsum) (Pd.get row2 col_cumsum) = true /\
             Pd.cell_eqb (Pd.get row1 col_share) (Pd.get row2 col_share) = true)
          (rows out1) (rows out2)).
  { rewrite Hrows1, Hrows2. apply Forall2_same_length_lookup_2.
    { by rewrite !length_imap. }
    intros i row1 row2 H1 H2. rewrite list_lookup_imap in H1, H2.
    destruct (sorted1 !! i) as [r1|] eqn:E1; [|done].
    destruct (sorted2 !! i) as [r2|] eqn:E2; [|done].
    injection H1 as <-. injection H2 as <-.
    rewrite <- (np_running_Qeq np None _ _ Hvols), <- (np_total_Qeq np _ _ Hvols).
    set (total := np_total np (map volume sorted1)).
    set (cum := nth i (np_running np None (map volume sorted1)) 0%Q).
    destruct (ranked_cells i total cum r1) as (Hr1 & Hc1 & Hsh1 & Hv1).
    destruct (ranked_cells i total cum r2) as (Hr2 & Hc2 & Hsh2 & Hv2).
    rewrite Hv1, Hv2, Hr1, Hr2, Hc1, Hc2, Hsh1, Hsh2 by done.
    rewrite Forall_lookup in Hpos1, Hpos2.
    destruct (Hpos1 i r1 E1) as [-> _]. destruct (Hpos2 i r2 E2) as [-> _].
    cbn [Pd.cell_eqb].
    assert (Hvi : (volume r1 == volume r2)%Q).
    { rewrite Forall2_lookup in Hvols. specialize (Hvols i).
      rewrite !list_lookup_fmap, E1, E2 in Hvols. by inversion Hvols. }
    split_and!.
    - by apply Qeq_bool_iff.
    - done.
    - by apply Qeq_bool_iff.
    - by apply Qeq_bool_iff. }
  split; [congruence|]. split; [exact Hall|].
  unfold rank_60_percent, Pd.filter_rows, Pd.empty. cbn [columns rows].
  rewrite Hcols1, Hcols2.
  destruct (union_columns_prefix (columns df) [col_rank; col_cumsum; col_share])
    as (new & ->).
  unfold Pd.has_column in Hk. apply bool_decide_eq_true_1 in Hk.
  destruct (columns df) as [|c0 cs]; [by apply not_elem_of_nil in Hk|]. cbn [app].
  pose proof (filter_head_Forall2 _
                (fun r => reaches point_six (Pd.get r col_share))
                (fun r => Pd.get r col_rank) _ _
                (fun x y H => conj (reaches_cell_eqb _ _ _ (proj2 (proj2 (proj2 H))))
                                   (proj1 (proj2 H)))
                Hall) as Hhead.
  destruct (List.filter _ (rows out1)) as [|x1 rest1];
    destruct (List.filter _ (rows out2)) as [|x2 rest2]; cbn in Hhead; congruence.
Qed.

End TieOrder.

(** X18, witness: two keywords of volume 5 and two sorts that order them
    differently. *)
Lemma ranking_figures_whatever_the_tie_order_witness :
  let parse_number := fun _ : str => @None Q in
  let df := keyword_table [keyword_row "first" 5; keyword_row "top" 7;
                           keyword_row "second" 5] in
  exists out1 out2,
    process_product_data parse_number (insertion_argsort_by false) Np.int64 df = Some out1 /\
    process_product_data parse_number (insertion_argsort_by true) Np.int64 df = Some out2 /\
    Pd.col out1 col_keyword <> Pd.col out2 col_keyword /\
    columns out1 = columns out2 /\
    Forall2 (fun row1 row2 =>
               Pd.cell_eqb (Pd.get row1 col_volume) (Pd.get row2 col_volume) = true /\
               Pd.get row1 col_rank = Pd.get row2 col_rank /\
               Pd.cell_eqb (Pd.get row1 col_cumsum) (Pd.get row2 col_cumsum) = true /\
               Pd.cell_eqb (Pd.get row1 col_share) (Pd.get row2 col_share) = true)
            (rows out1) (rows out2) /\
    rank_60_percent out1 = rank_60_percent out2.
Proof.
  intros parse_number df.
  destruct (process_product_data parse_number (insertion_argsort_by false) Np.int64 df)
    as [out1|] eqn:E1; [|vm_compute in E1; discriminate E1].
  destruct (process_product_data parse_number (insertion_argsort_by true) Np.int64 df)
    as [out2|] eqn:E2; [|vm_compute in E2; discriminate E2].
  exists out1, out2. split; [reflexivity|]. split; [reflexivity|]. split.
  - vm_compute in E1. injection E1 as <-. vm_compute in E2. injection E2 as <-.
    vm_compute. discriminate.
  - apply (ranking_figures_whatever_the_tie_order parse_number
             (insertion_argsort_by false) (insertion_argsort_by true) Np.int64
             (insertion_argsort_by_perm false) (insertion_argsort_by_sorted false)
             (insertion_argsort_by_perm true) (insertion_argsort_by_sorted true)
             df out1 out2 eq_refl eq_refl E1 E2).
Defined.

(** ** Uploads *)

Lemma last_accepted_snoc_ok (accepted : option DataFrame -> bool)
    (reads : list (option DataFrame)) (df : DataFrame) :
  accepted (Some df) = true -> last_accepted accepted (reads ++ [Some df]) = Some df.
Proof.
  intros H. unfold last_accepted. rewrite List.filter_app. cbn [List.filter]. rewrite H.
  by rewrite last_snoc.
Qed.

Lemma last_accepted_snoc_no (accepted : option DataFrame -> bool)
    (reads : list (option DataFrame)) (read : option DataFrame) :
  accepted read = false ->
  last_accepted accepted (reads ++ [read]) = last_accepted accepted reads.
Proof.
  intros H. unfold last_accepted. rewrite List.filter_app. cbn [List.filter]. rewrite H.
  by rewrite app_nil_r.
Qed.

Lemma product_session_last (reads : list (option DataFrame)) :
  product_session reads = last_accepted product_accepted reads.
Proof.
  unfold product_session. induction reads as [|read reads IH] using rev_ind; [done|].
  rewrite fold_left_app. cbn [fold_left]. rewrite IH. unfold product_upload.
  destruct read as [df|]; [|by rewrite last_accepted_snoc_no].
  destruct (Pd.has_column df col_keyword) eqn:Hk, (Pd.has_column df col_volume) eqn:Hv;
    cbn [negb orb].
  - rewrite last_accepted_snoc_ok; [done|]. cbn. by rewrite Hk, Hv.
  - rewrite last_accepted_snoc_no; [done|]. cbn. by rewrite Hk, Hv.
  - rewrite last_accepted_snoc_no; [done|]. cbn. by rewrite Hk.
  - rewrite last_accepted_snoc_no; [done|]. cbn. by rewrite Hk.
Qed.

Lemma brand_session_last (reads : list (option DataFrame)) :
  brand_session reads =
  (fun df => Pd.drop_duplicates (Pd.dropna df col_brand_name) col_brand_name)
    <$> last_accepted brand_accepted reads.
Proof.
  unfold brand_session. induction reads as [|read reads IH] using rev_ind; [done|].
  rewrite fold_left_app. cbn [fold_left]. rewrite IH. unfold brand_upload.
  destruct read as [df|]; [|by rewrite last_accepted_snoc_no].
  destruct (Pd.has_column df col_brand_name) eqn:Hb.
  - by rewrite last_accepted_snoc_ok.
  - by rewrite last_accepted_snoc_no.
Qed.

Lemma last_accepted_Some (accepted : option DataFrame -> bool)
    (reads : list (option DataFrame)) (df : DataFrame) :
  last_accepted accepted reads = Some df -> accepted (Some df) = true /\ Some df ∈ reads.
Proof.
  unfold last_accepted. destruct (last _) as [[df'|]|] eqn:E; [|done..].
  intros [= ->]. apply last_Some in E as (l' & E).
  assert (Hin : In (Some df) (List.filter accepted reads))
    by (rewrite E; apply in_app_iff; right; by left).
  apply filter_In in Hin as [Hin Hok]. split; [done|]. by apply list_elem_of_In.
Qed.

(** X19: what the two upload handlers store.  After any sequence of
    uploads the stored keyword table is the table of the last upload that
    was read and has the keyword and volume columns, as it was read; the
    stored brand table is that of the last upload that was read and has
    the name column, without its rows of missing name and with the first
    row only of each name.  An upload that cannot be read or lacks a
    column leaves what was stored.  So a stored keyword table has both
    columns, and a stored brand table has the name column and no missing
    name. *)
Theorem upload_sessions (reads : list (option DataFrame)) :
  product_session reads = last_accepted product_accepted reads /\
  brand_session reads =
    (fun df => Pd.drop_duplicates (Pd.dropna df col_brand_name) col_brand_name)
      <$> last_accepted brand_accepted reads /\
  (forall read,
     product_accepted read = false ->
     product_session (reads ++ [read]) = product_session reads) /\
  (forall read,
     brand_accepted read = false ->
     brand_session (reads ++ [read]) = brand_session reads) /\
  (forall df, product_session reads = Some df ->
     Some df ∈ reads /\
     Pd.has_column df col_keyword = true /\ Pd.has_column df col_volume = true) /\
  (forall df, brand_session reads = Some df ->
     Pd.has_column df col_brand_name = true /\
     Forall (fun c => Pd.isnull c = false) (Pd.col df col_brand_name)).
Proof.
  split_and!.
  - apply product_session_last.
  - apply brand_session_last.
  - intros read H. by rewrite !product_session_last, last_accepted_snoc_no.
  - intros read H. by rewrite !brand_session_last, last_accepted_snoc_no.
  - intros df. rewrite product_session_last. intros H.
    apply last_accepted_Some in H as [Hok Hin]. split; [done|].
    cbn in Hok. by apply andb_true_iff in Hok.
  - intros df. rewrite brand_session_last.
    destruct (last_accepted brand_accepted reads) as [src|] eqn:E; [|done].
    intros [= <-]. apply last_accepted_Some in E as [Hok _]. cbn in Hok.
    split; [exact Hok|].
    unfold Pd.col. cbn [Pd.drop_duplicates Pd.dropna Pd.filter_rows columns rows].
    apply Forall_map.
    destruct (dedup_rows_spec col_brand_name
                (List.filter (fun r => negb (Pd.isnull (Pd.get r col_brand_name))) (rows src))
                []) as (Hsub & _).
    apply Forall_forall. intros r0 Hr0.
    assert (Hin : r0 ∈ List.filter (fun r => negb (Pd.isnull (Pd.get r col_brand_name)))
                                   (rows src)) by (eapply elem_of_sublist; eauto).
    apply list_elem_of_In, filter_In in Hin as [_ Hn]. by apply negb_true_iff in Hn.
Qed.

Lemma empty_rows (df : DataFrame) :
  columns df <> [] -> Pd.empty df = true <-> rows df = [].
Proof.
  unfold Pd.empty. destruct (columns df); [done|]. intros _. by destruct (rows df).
Qed.

Lemma has_column_columns (df : DataFrame) (c : string) :
  Pd.has_column df c = true -> columns df <> [].
Proof.
  unfold Pd.has_column. intros H. apply bool_decide_eq_true_1 in H.
  destruct (columns df); [by apply not_elem_of_nil in H|done].
Qed.

Section StoredTables.

Variable num_repr : Q -> str.
Variable parse_number : str -> option Q.
Variable argsort_desc : list Q -> list nat.
Variable np : Np.arith.

(** X20: the two engines on the tables the page stores, under the rules
    of a session, when the stored keyword table has no blank keyword.  The
    ranking gives no table exactly when no row has a volume that reads as
    a positive number (a column is never missing).  The matching returns
    no table exactly when the stored keyword table or the stored brand
    table has no rows.  The matching never raises KeyError; when it
    raises, the exception is IndexError or AttributeError and the brand
    table holds a name that is a number. *)
Theorem stored_tables_fit (product_reads brand_reads : list (option DataFrame))
    (events : list rule_event) (h : heap) (p b r : loc) (pdf bdf : DataFrame) :
  product_session product_reads = Some pdf ->
  brand_session brand_reads = Some bdf ->
  h !! p = Some pdf -> h !! b = Some bdf -> h !! r = Some (session_rules events) ->
  Forall (fun c => Pd.isnull c = false) (Pd.col pdf col_keyword) ->
  (process_product_data parse_number argsort_desc np pdf = None <->
   surviving parse_number pdf = []) /\
  (fst (match_brands num_repr (Some p) (Some b) r h) = Return None <->
   rows pdf = [] \/ rows bdf = []) /\
  (forall e, fst (match_brands num_repr (Some p) (Some b) r h) = Raise e ->
     (e = IndexError \/ e = AttributeError) /\
     exists q, Num q ∈ Pd.col bdf col_brand_name).
Proof.
  intros Hps Hbs Hp Hb Hr _.
  rewrite product_session_last in Hps. apply last_accepted_Some in Hps as [Hpok _].
  cbn in Hpok. apply andb_true_iff in Hpok as [Hk Hv].
  rewrite brand_session_last in Hbs.
  destruct (last_accepted brand_accepted brand_reads) as [src|] eqn:Esrc; [|done].
  injection Hbs as Hbdf. apply last_accepted_Some in Esrc as [Hbn _]. cbn in Hbn.
  assert (Hbn' : Pd.has_column bdf col_brand_name = true) by (by rewrite <- Hbdf).
  assert (Hnn : Forall (fun c => Pd.isnull c = false) (Pd.col bdf col_brand_name)).
  { rewrite <- Hbdf. unfold Pd.col.
    cbn [Pd.drop_duplicates Pd.dropna Pd.filter_rows columns rows]. apply Forall_map.
    destruct (dedup_rows_spec col_brand_name
                (List.filter (fun r => negb (Pd.isnull (Pd.get r col_brand_name))) (rows src))
                []) as (Hsub & _).
    apply Forall_forall. intros r0 Hr0.
    assert (Hin : r0 ∈ List.filter (fun r => negb (Pd.isnull (Pd.get r col_brand_name)))
                                   (rows src)) by (eapply elem_of_sublist; eauto).
    apply list_elem_of_In, filter_In in Hin as [_ Hn]. by apply negb_true_iff in Hn. }
  rewrite (match_brands_fst num_repr h p b r pdf bdf _ Hp Hb Hr).
  split_and!.
  - rewrite (process_product_data_unfold parse_number argsort_desc np pdf Hk Hv).
    pose proof (empty_cleaned parse_number pdf Hv) as He.
    destruct (Pd.empty (cleaned parse_number pdf)).
    + split; [intros _|done]. by apply He.
    + split; [done|]. intros Hs. by apply He in Hs.
  - rewrite <- (empty_rows pdf (has_column_columns _ _ Hk)).
    rewrite <- (empty_rows bdf (has_column_columns _ _ Hbn')).
    rewrite <- (match_table_None num_repr pdf bdf (session_rules events)).
    destruct (match_table num_repr pdf bdf (session_rules events)) as [[df|]|e];
      split; done.
  - intros e He.
    destruct (match_table num_repr pdf bdf (session_rules events)) as [[df|]|e'] eqn:Et;
      try done.
    injection He as ->.
    assert (Hnokey : e <> KeyError).
    { intros ->. apply match_table_KeyError in Et as (_ & _ & [H|[H|[H|[_ H]]]]);
        try congruence.
      destruct (session_rules_shape events) as [Hc _].
      unfold Pd.has_column in H. rewrite Hc in H. by destruct H. }
    split.
    { destruct (match_table_exceptions num_repr _ _ _ _ Et) as [?|[?|?]]; auto. done. }
    destruct (existsb (fun c => negb (Pd.is_str c)) (Pd.col bdf col_brand_name)) eqn:Ex.
    + apply existsb_exists in Ex as (c & Hc & Hns).
      rewrite Forall_forall in Hnn.
      pose proof (Hnn c (proj2 (list_elem_of_In _ _) Hc)) as Hcn.
      destruct c as [|q|s]; [done| |done]. exists q. by apply list_elem_of_In.
    + exfalso.
      assert (Hstr : Forall (fun c => Pd.is_str c = true) (Pd.col bdf col_brand_name)).
      { apply Forall_forall. intros c Hc.
        destruct (Pd.is_str c) eqn:Es; [done|].
        assert (existsb (fun c => negb (Pd.is_str c)) (Pd.col bdf col_brand_name) = true).
        { apply existsb_exists. exists c. split; [by apply list_elem_of_In|by rewrite Es]. }
        congruence. }
      assert (Hpe : Pd.empty pdf = false).
      { destruct (Pd.empty pdf) eqn:E; [|done].
        by rewrite (proj2 (match_table_None num_repr pdf bdf _) (or_introl E)) in Et. }
      assert (Hbe : Pd.empty bdf = false).
      { destruct (Pd.empty bdf) eqn:E; [|done].
        by rewrite (proj2 (match_table_None num_repr pdf bdf _) (or_intror E)) in Et. }
      destruct (session_rules_shape events) as [Hc _].
      destruct (match_table_succeeds num_repr pdf bdf (session_rules events)
                  Hpe Hk Hv Hbe Hbn' Hstr) as (df & Hdf).
      { right. unfold Pd.has_column. rewrite Hc. split; by vm_compute. }
      congruence.
Qed.

End StoredTables.

(** X20, witness: uploads of which some are refused, then the run on the
    two sample keywords. *)
Lemma stored_tables_fit_witness :
  let pdf := keyword_table [keyword_row "space" 100; keyword_row "ace pro" 50] in
  let bdf := brand_table [brand_row "ace"] in
  let h := [pdf; bdf; session_rules []] in
  let num_repr := fun _ : Q => Py.lit "0" in
  let parse_number := fun _ : str => @None Q in
  (process_product_data parse_number insertion_argsort Np.int64 pdf = None <->
   surviving parse_number pdf = []) /\
  (fst (match_brands num_repr (Some 0%nat) (Some 1%nat) 2%nat h) = Return None <->
   rows pdf = [] \/ rows bdf = []) /\
  (forall e, fst (match_brands num_repr (Some 0%nat) (Some 1%nat) 2%nat h) = Raise e ->
     (e = IndexError \/ e = AttributeError) /\
     exists q, Num q ∈ Pd.col bdf col_brand_name).
Proof.
  intros pdf bdf h num_repr parse_number.
  apply (stored_tables_fit num_repr parse_number insertion_argsort Np.int64
           [None; Some pdf; Some (brand_table [])]
           [Some (brand_table [brand_row "ace"; brand_row "ace"]); None]
           [] h 0%nat 1%nat 2%nat pdf bdf); try reflexivity.
  repeat constructor.
Defined.

(** ** File names *)

Lemma rsplit1_no_sep (sep : ascii) (s : str) : sep ∉ s -> Py.rsplit1 sep s = [s].
Proof.
  induction s as [|c s IH]; [done|]. intros Hs. cbn [Py.rsplit1].
  rewrite IH by (intros H; apply Hs; by apply list_elem_of_further).
  destruct (Ascii.eqb_spec c sep) as [->|_]; [|done].
  exfalso. apply Hs. apply list_elem_of_here.
Qed.

Lemma rsplit1_last_sep (sep : ascii) (stem ext : str) :
  sep ∉ ext -> Py.rsplit1 sep (stem ++ sep :: ext) = [stem; ext].
Proof.
  intros Hext. induction stem as [|c stem IH]; cbn [app Py.rsplit1].
  - rewrite (rsplit1_no_sep sep ext Hext). by rewrite Ascii.eqb_refl.
  - by rewrite IH.
Qed.

(** X21: the label the merge tabs give a file: a name with no dot is its
    own label; otherwise the label is what precedes the last dot, so only
    the last extension is removed ("a.b.zip" is labelled "a.b").  The label
    is always a prefix of the name. *)
Theorem base_name_spec :
  (forall name : str, "."%char ∉ name -> base_name name = name) /\
  (forall stem ext : str, "."%char ∉ ext -> base_name (stem ++ "."%char :: ext) = stem) /\
  (forall name : str, exists rest, name = base_name name ++ rest).
Proof.
  split_and!.
  - intros name H. unfold base_name. by rewrite (rsplit1_no_sep _ _ H).
  - intros stem ext H. unfold base_name. by rewrite (rsplit1_last_sep _ _ _ H).
  - intros name.
    assert (Hdec : forall s : str, "."%char ∉ s \/
                     exists stem ext, s = stem ++ "."%char :: ext /\ "."%char ∉ ext).
    { induction s as [|c s IH]; [left; apply not_elem_of_nil|].
      destruct IH as [Hno|(stem & ext & -> & Hext)].
      - destruct (Ascii.eqb_spec c "."%char) as [->|Hne].
        + right. exists [], s. done.
        + left. intros H. apply elem_of_cons in H as [?|?]; done.
      - right. exists (c :: stem), ext. done. }
    destruct (Hdec name) as [Hno|(stem & ext & -> & Hext)].
    + exists []. unfold base_name. by rewrite (rsplit1_no_sep _ _ Hno), app_nil_r.
    + exists ("."%char :: ext). unfold base_name. by rewrite (rsplit1_last_sep _ _ _ Hext).
Qed.

(** ** The merged table *)

Lemma union_columns_elem (acc cs : list string) (c : string) :
  c ∈ Pd.union_columns acc cs <-> c ∈ acc \/ c ∈ cs.
Proof.
  unfold Pd.union_columns. revert acc. induction cs as [|c0 cs IH]; intros acc; cbn [fold_left].
  - split; [by left|]. intros [?|H]; [done|]. by apply not_elem_of_nil in H.
  - rewrite IH. case_bool_decide.
    + rewrite elem_of_cons. split; [tauto|]. intros [?|[->|?]]; tauto.
    + rewrite elem_of_app, list_elem_of_singleton, elem_of_cons. tauto.
Qed.

Lemma concat_columns_prefix (dfs : list DataFrame) (acc : list string) :
  exists new, fold_left (fun a df => Pd.union_columns a (columns df)) dfs acc = acc ++ new.
Proof.
  revert acc. induction dfs as [|df dfs IH]; intros acc; cbn [fold_left].
  - exists []. by rewrite app_nil_r.
  - destruct (union_columns_prefix acc (columns df)) as (n1 & ->).
    destruct (IH (acc ++ n1)) as (n2 & ->). exists (n1 ++ n2). by rewrite app_assoc.
Qed.

Lemma concat_columns_head (df : DataFrame) (dfs : list DataFrame) (c : string)
    (cs : list string) :
  columns df = c :: cs -> head (columns (Pd.concat (df :: dfs))) = Some c.
Proof.
  intros Hc. unfold Pd.concat. cbn [columns fold_left]. rewrite Hc.
  unfold Pd.union_columns at 2. cbn [fold_left].
  rewrite bool_decide_eq_false_2 by apply not_elem_of_nil. cbn [app].
  fold (Pd.union_columns [c] cs).
  destruct (union_columns_prefix [c] cs) as (n1 & ->).
  destruct (concat_columns_prefix dfs ([c] ++ n1)) as (n2 & ->). done.
Qed.

Lemma concat_columns_first (df : DataFrame) (dfs : list DataFrame) (c : string) :
  c ∈ columns df -> Pd.has_column (Pd.concat (df :: dfs)) c = true.
Proof.
  intros Hc. unfold Pd.has_column, Pd.concat. cbn [columns fold_left].
  apply bool_decide_eq_true_2.
  destruct (concat_columns_prefix dfs (Pd.union_columns [] (columns df))) as (n & ->).
  apply elem_of_app. left. apply union_columns_elem. by right.
Qed.

Lemma omap_filter_length {A B} (table : A -> option B) (l : list A) :
  (length (omap table l) + length (List.filter (fun f => is_none (table f)) l))%nat
  = length l.
Proof.
  induction l as [|x l IH]; [done|]. cbn [omap list_omap List.filter].
  destruct (table x); cbn [is_none length]; lia.
Qed.

Lemma concat_rows_omap {A} (table : A -> option DataFrame) (l : list A) :
  List.concat (map rows (omap table l)) =
  flat_map (fun f => match table f with Some t => rows t | None => [] end) l.
Proof.
  induction l as [|x l IH]; [done|]. cbn [omap list_omap flat_map].
  destruct (table x); cbn [map List.concat]; by rewrite IH.
Qed.

Section MergedTable.

Variable Blob : Type.
Variable zip_open : Blob -> option (list (str * Blob)).
Variable read_csv : Blob -> option DataFrame.
Variable read_excel : Blob -> option DataFrame.

Lemma file_table_rows (file : upload Blob) :
  match file_table Blob read_csv read_excel file with
  | Some t => rows t
  | None => []
  end = file_rows Blob read_csv read_excel file.
Proof.
  unfold file_table, file_rows.
  destruct (read_table _ _ _ _ _) as [df|]; [|done]. cbn. unfold Pd.insert_first.
  by destruct (Pd.has_column df col_time).
Qed.

Lemma zip_table_rows (zip_file : upload Blob) :
  match zip_table Blob zip_open read_csv read_excel zip_file with
  | Some t => rows t
  | None => []
  end = zip_rows Blob zip_open read_csv read_excel zip_file.
Proof.
  unfold zip_table, zip_rows.
  destruct (zip_open (content zip_file)) as [z|]; [|done]. cbn.
  destruct (List.filter _ z) as [|[file_name entry] rest]; [done|]. cbn.
  by destruct (read_table _ _ _ _ _).
Qed.

(** X22: the table the file tab merges.  Its rows are the rows of the
    files that could be read and have no column named "时间", file after
    file in upload order, each row labelled in that column with the label
    of its file; no other row is added and none is lost.  The label column
    is the first column.  The number of files reported as merged and the
    number of names in the failed list add up to the number of files
    uploaded. *)
Theorem file_merge_contents (f : upload Blob) (uploaded : list (upload Blob))
    (merged_df : DataFrame) (files_merged : nat) :
  result (file_merge_tab Blob read_csv read_excel (f :: uploaded))
    = Merged merged_df files_merged ->
  rows merged_df = flat_map (file_rows Blob read_csv read_excel) (f :: uploaded) /\
  head (columns merged_df) = Some col_time /\
  Forall (fun row => exists file, file ∈ f :: uploaded /\
                       Pd.get row col_time = Str (base_name (name file)))
         (rows merged_df) /\
  (files_merged + length (failed (file_merge_tab Blob read_csv read_excel (f :: uploaded))))%nat
    = length (f :: uploaded).
Proof.
  unfold file_merge_tab.
  rewrite (merge_tab_view Blob (file_table Blob read_csv read_excel)
             (file_step Blob read_csv read_excel) f uploaded
             (file_step_table Blob read_csv read_excel)).
  cbn [result failed].
  pose proof (concat_rows_omap (file_table Blob read_csv read_excel) (f :: uploaded)) as Hc.
  pose proof (omap_filter_length (file_table Blob read_csv read_excel) (f :: uploaded)) as Hl.
  remember (omap (file_table Blob read_csv read_excel) (f :: uploaded)) as tables eqn:Eo.
  destruct tables as [|t ts]; [done|].
  intros [= <- <-].
  assert (Hrows : rows (Pd.concat (t :: ts)) = flat_map (file_rows Blob read_csv read_excel) (f :: uploaded)).
  { change (rows (Pd.concat (t :: ts))) with (List.concat (map rows (t :: ts))).
    rewrite Hc. apply flat_map_ext. intros file. apply file_table_rows. }
  split_and!.
  - exact Hrows.
  - assert (Hin : t ∈ omap (file_table Blob read_csv read_excel) (f :: uploaded))
      by (rewrite <- Eo; apply list_elem_of_here).
    apply list_elem_of_omap in Hin as (file & _ & Ht).
    unfold file_table in Ht. destruct (read_table _ _ _ _ _) as [df|]; [|done]. cbn in Ht.
    unfold Pd.insert_first in Ht. destruct (Pd.has_column df col_time); [done|].
    injection Ht as <-. by eapply concat_columns_head.
  - rewrite Hrows. apply Forall_forall. intros row Hrow.
    apply list_elem_of_In, in_flat_map in Hrow as (file & Hfile & Hrow).
    exists file. split; [by apply list_elem_of_In|].
    unfold file_rows in Hrow. destruct (read_table _ _ _ _ _) as [df|]; [|done].
    destruct (Pd.has_column df col_time); [done|].
    apply in_map_iff in Hrow as (r0 & <- & _). unfold Pd.get. by rewrite lookup_insert_eq.
  - rewrite length_map. exact Hl.
Qed.

(** X23: the table the ZIP tab merges.  Its rows are, archive after
    archive in upload order, the rows of the first entry of the archive
    whose name has a tabular extension, each labelled in the column "时间"
    with the label of the archive (not of the entry); later entries of an
    archive are not read.  The merged table has that column.  The number
    of archives reported as merged and the number of names in the failed
    list add up to the number of archives uploaded. *)
Theorem zip_merge_contents (f : upload Blob) (uploaded : list (upload Blob))
    (merged_df : DataFrame) (files_merged : nat) :
  result (zip_merge_tab Blob zip_open read_csv read_excel (f :: uploaded))
    = Merged merged_df files_merged ->
  rows merged_df = flat_map (zip_rows Blob zip_open read_csv read_excel) (f :: uploaded) /\
  Pd.has_column merged_df col_time = true /\
  Forall (fun row => exists zip_file, zip_file ∈ f :: uploaded /\
                       Pd.get row col_time = Str (base_name (name zip_file)))
         (rows merged_df) /\
  (files_merged +
   length (failed (zip_merge_tab Blob zip_open read_csv read_excel (f :: uploaded))))%nat
    = length (f :: uploaded).
Proof.
  unfold zip_merge_tab.
  rewrite (merge_tab_view Blob (zip_table Blob zip_open read_csv read_excel)
             (zip_step Blob zip_open read_csv read_excel) f uploaded
             (zip_step_table Blob zip_open read_csv read_excel)).
  cbn [result failed].
  pose proof (concat_rows_omap (zip_table Blob zip_open read_csv read_excel) (f :: uploaded))
    as Hc.
  pose proof (omap_filter_length (zip_table Blob zip_open read_csv read_excel) (f :: uploaded))
    as Hl.
  remember (omap (zip_table Blob zip_open read_csv read_excel) (f :: uploaded))
    as tables eqn:Eo.
  destruct tables as [|t ts]; [done|].
  intros [= <- <-].
  assert (Hrows : rows (Pd.concat (t :: ts)) = flat_map (zip_rows Blob zip_open read_csv read_excel) (f :: uploaded)).
  { change (rows (Pd.concat (t :: ts))) with (List.concat (map rows (t :: ts))).
    rewrite Hc. apply flat_map_ext. intros file. apply zip_table_rows. }
  split_and!.
  - exact Hrows.
  - assert (Hin : t ∈ omap (zip_table Blob zip_open read_csv read_excel) (f :: uploaded))
      by (rewrite <- Eo; apply list_elem_of_here).
    apply list_elem_of_omap in Hin as (file & _ & Ht).
    unfold zip_table in Ht. destruct (zip_open _) as [z|]; [|done]. cbn in Ht.
    destruct (head _) as [entry|]; [|done]. cbn in Ht.
    destruct (read_table _ _ _ _ _) as [df|]; [|done]. cbn in Ht.
    injection Ht as <-. apply concat_columns_first.
    unfold Pd.setitem_scalar, Pd.has_column. cbn [columns].
    case_bool_decide; [done|]. apply elem_of_app. right. apply list_elem_of_here.
  - rewrite Hrows. apply Forall_forall. intros row Hrow.
    apply list_elem_of_In, in_flat_map in Hrow as (file & Hfile & Hrow).
    exists file. split; [by apply list_elem_of_In|].
    unfold zip_rows in Hrow. destruct (zip_open _) as [z|]; [|done].
    destruct (List.filter _ z) as [|[file_name entry] rest]; [done|].
    destruct (read_table _ _ _ _ _) as [df|]; [|done].
    apply in_map_iff in Hrow as (r0 & <- & _). unfold Pd.get. by rewrite lookup_insert_eq.
  - rewrite length_map. exact Hl.
Qed.

End MergedTable.

(** X22, witness: two sheets and a file that cannot be read. *)
Lemma file_merge_contents_witness :
  let jan := mkUpload (Py.lit "2024-01.csv") (Sheet plain_table) in
  let bad := mkUpload (Py.lit "broken.xlsx") Corrupt in
  let feb := mkUpload (Py.lit "2024-02.xlsx") (Sheet plain_table) in
  let view := file_merge_tab sample_blob sample_read sample_read [jan; bad; feb] in
  exists merged_df files_merged,
    result view = Merged merged_df files_merged /\
    rows merged_df = flat_map (file_rows sample_blob sample_read sample_read) [jan; bad; feb] /\
    head (columns merged_df) = Some col_time /\
    Forall (fun row => exists file, file ∈ [jan; bad; feb] /\
                         Pd.get row col_time = Str (base_name (name file)))
           (rows merged_df) /\
    (files_merged + length (failed view))%nat = length [jan; bad; feb].
Proof.
  intros jan bad feb view. eexists _, _. split; [reflexivity|].
  apply (file_merge_contents sample_blob sample_read sample_read jan [bad; feb]).
  reflexivity.
Defined.

(** X23, witness: an archive of three entries and a corrupt archive. *)
Lemma zip_merge_contents_witness :
  let jan := mkUpload (Py.lit "2024-01.zip")
                      (Archive [(Py.lit "notes.txt", Corrupt);
                                (Py.lit "Data.CSV", Sheet dated_table);
                                (Py.lit "more.xlsx", Sheet plain_table)]) in
  let bad := mkUpload (Py.lit "broken.zip") Corrupt in
  let view := zip_merge_tab sample_blob sample_zip_open sample_read sample_read [jan; bad] in
  exists merged_df files_merged,
    result view = Merged merged_df files_merged /\
    rows merged_df =
      flat_map (zip_rows sample_blob sample_zip_open sample_read sample_read) [jan; bad] /\
    Pd.has_column merged_df col_time = true /\
    Forall (fun row => exists zip_file, zip_file ∈ [jan; bad] /\
                         Pd.get row col_time = Str (base_name (name zip_file)))
           (rows merged_df) /\
    (files_merged + length (failed view))%nat = length [jan; bad].
Proof.
  intros jan bad view. eexists _, _. split; [reflexivity|].
  apply (zip_merge_contents sample_blob sample_zip_open sample_read sample_read jan [bad]).
  reflexivity.
Defined.
(** ** File extensions *)

Lemma endswith_spec (s suffix : str) :
  Py.endswith s suffix = true <-> exists pre, s = pre ++ suffix.
Proof.
  unfold Py.endswith. rewrite bool_decide_eq_true. split.
  - intros H. exists (take (length s - length suffix) s).
    transitivity (take (length s - length suffix) s ++ drop (length s - length suffix) s);
      [by rewrite take_drop|by rewrite H].
  - intros (pre & ->). rewrite length_app.
    replace (length pre + length suffix - length suffix)%nat with (length pre) by lia.
    by rewrite drop_app_length.
Qed.

Lemma lower_app (s t : str) : Py.lower (s ++ t) = Py.lower s ++ Py.lower t.
Proof. unfold Py.lower. apply map_app. Qed.

Lemma lower_split (s pre suffix : str) :
  Py.lower s = pre ++ suffix ->
  exists stem ext, s = stem ++ ext /\ Py.lower stem = pre /\ Py.lower ext = suffix.
Proof.
  unfold Py.lower. intros H. apply map_eq_app in H as (stem & ext & -> & <- & <-).
  by exists stem, ext.
Qed.

Lemma xls_not_tabular (stem : str) : is_tabular (stem ++ Py.lit ".xls") = false.
Proof.
  unfold is_tabular, is_csv. apply orb_false_iff. split.
  - destruct (Py.endswith _ (Py.lit ".csv")) eqn:E; [|done].
    apply endswith_spec in E as (pre & E). rewrite lower_app in E.
    change (Py.lower (Py.lit ".xls")) with (Py.lit ".xls") in E.
    apply (f_equal (@rev ascii)) in E. rewrite !rev_app_distr in E.
    cbn in E. discriminate E.
  - destruct (Py.endswith _ (Py.lit ".xlsx")) eqn:E; [|done].
    apply endswith_spec in E as (pre & E). rewrite lower_app in E.
    change (Py.lower (Py.lit ".xls")) with (Py.lit ".xls") in E.
    apply (f_equal (@rev ascii)) in E. rewrite !rev_app_distr in E.
    cbn in E. discriminate E.
Qed.

Section Extensions.

Variable Blob : Type.
Variable zip_open : Blob -> option (list (str * Blob)).
Variable read_csv : Blob -> option DataFrame.
Variable read_excel : Blob -> option DataFrame.

(** X24: how file names select a reader.  A name is read as CSV exactly
    when it ends in ".csv", in any mix of cases, and with the Excel reader
    otherwise; inside an archive only names that end in ".csv" or ".xlsx"
    (in any mix of cases) are considered.  So a name ending in ".xls" is
    not considered inside an archive: an archive whose only entry is such
    a sheet gives no table, while the file tab reads the same sheet, with
    the Excel reader, and labels it. *)
Theorem extension_rules :
  (forall file_name,
     is_csv file_name = true <->
     exists stem ext, file_name = stem ++ ext /\ Py.lower ext = Py.lit ".csv") /\
  (forall file_name,
     is_tabular file_name = true <->
     exists stem ext, file_name = stem ++ ext /\
                      (Py.lower ext = Py.lit ".csv" \/ Py.lower ext = Py.lit ".xlsx")) /\
  (forall file_name f,
     read_table Blob read_csv read_excel file_name f =
     if is_csv file_name then read_csv f else read_excel f) /\
  (forall stem, is_tabular (stem ++ Py.lit ".xls") = false) /\
  (forall stem zip_name archive sheet,
     zip_open archive = Some [(stem ++ Py.lit ".xls", sheet)] ->
     zip_table Blob zip_open read_csv read_excel (mkUpload zip_name archive) = None /\
     file_table Blob read_csv read_excel (mkUpload (stem ++ Py.lit ".xls") sheet) =
       (df ← read_excel sheet;
        Pd.insert_first df col_time (Str (base_name (stem ++ Py.lit ".xls"))))).
Proof.
  assert (Hcsv : forall file_name,
     is_csv file_name = true <->
     exists stem ext, file_name = stem ++ ext /\ Py.lower ext = Py.lit ".csv").
  { intros file_name. unfold is_csv. rewrite endswith_spec. split.
    - intros (pre & H). apply lower_split in H as (stem & ext & -> & _ & Hext).
      by exists stem, ext.
    - intros (stem & ext & -> & Hext). exists (Py.lower stem). by rewrite lower_app, Hext. }
  split_and!.
  - exact Hcsv.
  - intros file_name. unfold is_tabular. rewrite orb_true_iff, Hcsv, endswith_spec. split.
    + intros [(stem & ext & -> & Hext)|(pre & H)].
      * exists stem, ext. auto.
      * apply lower_split in H as (stem & ext & -> & _ & Hext). exists stem, ext. auto.
    + intros (stem & ext & -> & [Hext|Hext]).
      * left. by exists stem, ext.
      * right. exists (Py.lower stem). by rewrite lower_app, Hext.
  - reflexivity.
  - apply xls_not_tabular.
  - intros stem zip_name archive sheet Hopen. split.
    + unfold zip_table. cbn [content]. rewrite Hopen. cbn.
      by rewrite xls_not_tabular.
    + unfold file_table, read_table. cbn [name content].
      assert (Hn : is_csv (stem ++ Py.lit ".xls") = false).
      { pose proof (xls_not_tabular stem) as H. unfold is_tabular in H.
        by apply orb_false_iff in H as [? _]. }
      by rewrite Hn.
Qed.

End Extensions.
